(** * Game of Life (main.c): a shallow embedding and its verification

    The program is one C file: two global byte arrays ([cells] and
    [previous_simul]), a handful of [int] locals of [main], and a frame loop
    that polls events, lets the user edit the grid while paused, and advances
    the automaton by one generation when the tick counter has passed the
    threshold.

    The embedding follows the C text statement by statement.  Everything the
    C standard leaves undefined (an array access outside the array, a signed
    [int] overflow, a [FILE*] that is [NULL]) is the [None] of an error
    monad, so a theorem saying that a piece of code returns [Some _] also
    says that the code never leaves the arrays. *)

From Stdlib Require Import ZArith Lia Bool.
From stdpp Require Import base option list list_numbers gmap strings.

Local Open Scope Z_scope.

(** ** Constants of the source *)

Definition CELL_ALIVE : Z := 1.
Definition CELL_REVIVE : Z := 2.
Definition CELL_DIE : Z := 4.

Definition WINDOW_WIDTH : Z := 1280.
Definition WINDOW_HEIGHT : Z := 720.
Definition PIXEL_SIZE : Z := 5.

Definition GRID_WIDTH : Z := 256.
Definition GRID_HEIGHT : Z := 144.

(** [sizeof(cells)]: the arrays hold [GRID_WIDTH * GRID_HEIGHT] elements of
    one byte each. *)
Definition sizeof_cells : Z := GRID_WIDTH * GRID_HEIGHT.
Definition sizeof_uint8_t : Z := 1.
Definition sizeof_uint32_t : Z := 4.

Definition INT_MAX : Z := 2147483647.
Definition INT_MIN : Z := -2147483648.

(** ** Machine integers and memory *)

(** Conversion to [uint8_t] (what an assignment to a cell does). *)
Definition uint8 (z : Z) : Z := z mod 256.

(** The result of a signed [int] operation; overflow is undefined. *)
Definition int_of (z : Z) : option Z :=
  if (INT_MIN <=? z) && (z <=? INT_MAX) then Some z else None.

(** [a[i]] as an rvalue and [a[i] = v]; both undefined outside the array. *)
Definition load (a : list Z) (i : Z) : option Z :=
  if 0 <=? i then a !! Z.to_nat i else None.

Definition store (a : list Z) (i : Z) (v : Z) : option (list Z) :=
  if (0 <=? i) && (i <? Z.of_nat (length a))
  then Some (<[Z.to_nat i := v]> a) else None.

(** [c & m] used as a condition. *)
Definition flag (c m : Z) : bool := negb (Z.land c m =? 0).

(** [for (int i = lo; i < hi; i++) body], threading the state. *)
Fixpoint for_loop {S : Type} (n : nat) (i : Z)
    (body : Z → S → option S) (s : S) : option S :=
  match n with
  | O => Some s
  | S n' => s' ← body i s; for_loop n' (i + 1) body s'
  end.

Definition for_range {S : Type} (lo hi : Z)
    (body : Z → S → option S) (s : S) : option S :=
  for_loop (Z.to_nat (hi - lo)) lo body s.

(** A loop that runs its body once per item of a list (the pending events of
    a frame, the inputs of the window loop, the cells in a chosen order). *)
Fixpoint visit {A S : Type} (body : A → S → option S)
    (order : list A) (s : S) : option S :=
  match order with
  | [] => Some s
  | p :: rest => s' ← body p s; visit body rest s'
  end.

(** ** The generation step (main.c, lines 316-379) *)

(** One of the eight border-checked tests
    [if (guard) if (cells[i] & CELL_ALIVE) live_neighbors++;]
    ([live_neighbors] is a [uint8_t]). *)
Definition probe (guard : bool) (cells : list Z) (i : Z) (n : Z) : option Z :=
  if guard then
    c ← load cells i;
    Some (if flag c CELL_ALIVE then uint8 (n + 1) else n)
  else Some n.

Definition live_neighbors (cells : list Z) (x y : Z) : option Z :=
  n ← Some 0;
  n ← probe (negb (x =? 0) && negb (y =? 0))
        cells ((x - 1) + GRID_WIDTH * (y - 1)) n;
  n ← probe (negb (y =? 0))
        cells (x + GRID_WIDTH * (y - 1)) n;
  n ← probe (negb (y =? 0) && negb (x =? GRID_WIDTH - 1))
        cells ((x + 1) + GRID_WIDTH * (y - 1)) n;
  n ← probe (negb (x =? 0))
        cells ((x - 1) + GRID_WIDTH * y) n;
  n ← probe (negb (x =? GRID_WIDTH - 1))
        cells ((x + 1) + GRID_WIDTH * y) n;
  n ← probe (negb (x =? 0) && negb (y =? GRID_HEIGHT - 1))
        cells ((x - 1) + GRID_WIDTH * (y + 1)) n;
  n ← probe (negb (y =? GRID_HEIGHT - 1))
        cells (x + GRID_WIDTH * (y + 1)) n;
  probe (negb (x =? GRID_WIDTH - 1) && negb (y =? GRID_HEIGHT - 1))
        cells ((x + 1) + GRID_WIDTH * (y + 1)) n.

(** [cells[i] |= m]. *)
Definition or_assign (cells : list Z) (i m : Z) : option (list Z) :=
  c ← load cells i;
  store cells i (uint8 (Z.lor c m)).

(** Body of the evaluation loops, for the cell [(x, y)]. *)
Definition eval_cell (cells : list Z) (x y : Z) : option (list Z) :=
  n ← live_neighbors cells x y;
  if (n =? 2) || (n =? 3) then
    c ← load cells (x + GRID_WIDTH * y);
    if flag c CELL_ALIVE then Some cells
    else if n =? 3 then or_assign cells (x + GRID_WIDTH * y) CELL_REVIVE
    else Some cells
  else or_assign cells (x + GRID_WIDTH * y) CELL_DIE.

Definition eval_pass (cells : list Z) : option (list Z) :=
  for_range 0 GRID_HEIGHT (λ y cells,
    for_range 0 GRID_WIDTH (λ x cells, eval_cell cells x y) cells) cells.

(** Body of the update loops. *)
Definition commit_cell (cells : list Z) (x y : Z) : option (list Z) :=
  c ← load cells (x + GRID_WIDTH * y);
  if flag c CELL_REVIVE then store cells (x + GRID_WIDTH * y) CELL_ALIVE
  else
    c ← load cells (x + GRID_WIDTH * y);
    if flag c CELL_DIE then store cells (x + GRID_WIDTH * y) 0
    else Some cells.

Definition commit_pass (cells : list Z) : option (list Z) :=
  for_range 0 GRID_HEIGHT (λ y cells,
    for_range 0 GRID_WIDTH (λ x cells, commit_cell cells x y) cells) cells.

Definition generation (cells : list Z) : option (list Z) :=
  cells ← eval_pass cells;
  commit_pass cells.

(** The two passes with the cells visited in an arbitrary order; the order
    of the nested loops of the source is [row_major]. *)
Definition row_major : list (Z * Z) :=
  y ← seqZ 0 GRID_HEIGHT; x ← seqZ 0 GRID_WIDTH; [(x, y)].

Definition eval_order (order : list (Z * Z)) (cells : list Z)
    : option (list Z) :=
  visit (λ p cells, eval_cell cells p.1 p.2) order cells.

Definition commit_order (order : list (Z * Z)) (cells : list Z)
    : option (list Z) :=
  visit (λ p cells, commit_cell cells p.1 p.2) order cells.

(** ** The program state and its inputs

    The state holds the two global arrays and the locals of [main] that
    survive a frame.  The screen buffer and the SDL handles are left out:
    the drawing loop only reads [cells] and writes [buffer], and nothing
    reads [buffer] back.  [files] is the part of the file system the program
    can see. *)

Record state := State {
  cells : list Z;
  previous_simul : list Z;
  s_started : bool;
  tick : Z;
  max_tick : Z;
  quit : bool;
  add_btn_down : bool;
  rem_btn_down : bool;
  files : gmap string (list Z)
}.

Definition set_cells (v : list Z) (s : state) : state :=
  State v (previous_simul s) (s_started s) (tick s) (max_tick s) (quit s)
    (add_btn_down s) (rem_btn_down s) (files s).
Definition set_previous_simul (v : list Z) (s : state) : state :=
  State (cells s) v (s_started s) (tick s) (max_tick s) (quit s)
    (add_btn_down s) (rem_btn_down s) (files s).
Definition set_s_started (v : bool) (s : state) : state :=
  State (cells s) (previous_simul s) v (tick s) (max_tick s) (quit s)
    (add_btn_down s) (rem_btn_down s) (files s).
Definition set_tick (v : Z) (s : state) : state :=
  State (cells s) (previous_simul s) (s_started s) v (max_tick s) (quit s)
    (add_btn_down s) (rem_btn_down s) (files s).
Definition set_max_tick (v : Z) (s : state) : state :=
  State (cells s) (previous_simul s) (s_started s) (tick s) v (quit s)
    (add_btn_down s) (rem_btn_down s) (files s).
Definition set_quit (v : bool) (s : state) : state :=
  State (cells s) (previous_simul s) (s_started s) (tick s) (max_tick s) v
    (add_btn_down s) (rem_btn_down s) (files s).
Definition set_add_btn_down (v : bool) (s : state) : state :=
  State (cells s) (previous_simul s) (s_started s) (tick s) (max_tick s)
    (quit s) v (rem_btn_down s) (files s).
Definition set_rem_btn_down (v : bool) (s : state) : state :=
  State (cells s) (previous_simul s) (s_started s) (tick s) (max_tick s)
    (quit s) (add_btn_down s) v (files s).
Definition set_files (v : gmap string (list Z)) (s : state) : state :=
  State (cells s) (previous_simul s) (s_started s) (tick s) (max_tick s)
    (quit s) (add_btn_down s) (rem_btn_down s) v.

(** The state [main] starts its loop in: zero-initialised globals,
    [s_started = false], [tick = 0], [max_tick = 1]. *)
Definition cells_init : list Z := replicate (Z.to_nat sizeof_cells) 0.

Definition initial_state (fs : gmap string (list Z)) : state :=
  State cells_init cells_init false 0 1 false false false fs.

Inductive keycode :=
  SDLK_F1 | SDLK_F2 | SDLK_F3 | SDLK_F4 | SDLK_F5 | SDLK_OTHER.

Inductive mouse_button :=
  SDL_BUTTON_LEFT | SDL_BUTTON_RIGHT | SDL_BUTTON_OTHER.

Inductive event :=
  | SDL_QUIT
  | SDL_KEYUP (sym : keycode)
  | SDL_MOUSEBUTTONDOWN (button : mouse_button)
  | SDL_MOUSEBUTTONUP (button : mouse_button)
  | SDL_MOUSEWHEEL (y : Z)
  | SDL_OTHER_EVENT.

(** What the external collaborators answer while an event is handled:
    [SDL_ShowMessageBox] ([None] when it fails, otherwise the button id it
    writes to [btn]), the two file dialogs ([Some path] on [NFD_OKAY]), and
    whether [fopen(path, "w+b")] gives a file. *)
Record responses := Responses {
  message_box : option Z;
  save_dialog : option string;
  open_dialog : option string;
  fopen_write : bool
}.

(** One iteration of the window loop receives the pending events and the
    mouse position that [SDL_GetMouseState] reports. *)
Record input := Input {
  events : list (event * responses);
  mouse : Z * Z
}.

(** ** Library calls on byte arrays *)

(** [memcpy(dst, src, n)]. *)
Definition memcpy (dst src : list Z) (n : Z) : option (list Z) :=
  if (0 <=? n) && (n <=? Z.of_nat (length src))
     && (n <=? Z.of_nat (length dst))
  then Some (take (Z.to_nat n) src ++ drop (Z.to_nat n) dst) else None.

(** [fwrite(ptr, size, nmemb, fp)] on a freshly truncated file: the bytes
    that end up in the file. *)
Definition fwrite (ptr : list Z) (size nmemb : Z) : option (list Z) :=
  if (0 <=? size * nmemb) && (size * nmemb <=? Z.of_nat (length ptr))
  then Some (take (Z.to_nat (size * nmemb)) ptr) else None.

(** [fread(ptr, size, nmemb, fp)] from the start of a file: up to
    [size * nmemb] bytes of the file replace the front of the buffer (the
    bytes of a trailing incomplete element are stored as they come, as the C
    libraries do). *)
Definition fread (ptr : list Z) (size nmemb : Z) (file : list Z)
    : option (list Z) :=
  let k := Z.min (size * nmemb) (Z.of_nat (length file)) in
  if (0 <=? k) && (k <=? Z.of_nat (length ptr))
  then Some (take (Z.to_nat k) file ++ drop (Z.to_nat k) ptr) else None.

(** ** The window loop (main.c, lines 126-400) *)

(** [case SDL_MOUSEWHEEL], on [max_tick]. *)
Definition mouse_wheel (y : Z) (max_tick : Z) : option Z :=
  if y <? 0 then int_of (max_tick + 1)
  else if y >? 0 then
    m ← int_of (max_tick - 1);
    Some (if m <=? 0 then 1 else m)
  else Some max_tick.

(** The F2 loop [for (i = 0; i < GRID_WIDTH * GRID_HEIGHT; i++) cells[i] = 0]. *)
Definition clear_cells (a : list Z) : option (list Z) :=
  for_range 0 (GRID_WIDTH * GRID_HEIGHT) (λ i a, store a i 0) a.

(** The F3 branch. *)
Definition save_state (r : responses) (s : state) : option state :=
  match message_box r with
  | None => Some s
  | Some btn =>
      match save_dialog r with
      | Some save_path =>
          if fopen_write r then
            bytes ← (if btn =? 1
                     then fwrite (cells s) sizeof_uint8_t
                            (sizeof_cells / sizeof_uint8_t)
                     else fwrite (previous_simul s) sizeof_uint8_t
                            (sizeof_cells / sizeof_uint8_t));
            Some (set_files (<[save_path := bytes]> (files s)) s)
          else None
      | None => Some s
      end
  end.

(** The F4 branch. *)
Definition load_state (r : responses) (s : state) : option state :=
  match open_dialog r with
  | Some simul_path =>
      file ← files s !! simul_path;
      a ← fread (cells s) sizeof_uint32_t
             (sizeof_cells / sizeof_uint32_t) file;
      Some (set_cells a s)
  | None => Some s
  end.

Definition key_up (sym : keycode) (r : responses) (s : state) : option state :=
  match sym with
  | SDLK_F1 =>
      let s := set_s_started (negb (s_started s)) s in
      if s_started s then
        a ← memcpy (previous_simul s) (cells s) sizeof_cells;
        Some (set_previous_simul a s)
      else Some s
  | _ =>
      if negb (s_started s) then
        match sym with
        | SDLK_F2 => a ← clear_cells (cells s); Some (set_cells a s)
        | SDLK_F3 => save_state r s
        | SDLK_F4 => load_state r s
        | _ => Some s
        end
      else Some s
  end.

Definition handle_event (ev : event) (r : responses) (s : state)
    : option state :=
  match ev with
  | SDL_QUIT => Some (set_quit true s)
  | SDL_KEYUP sym => key_up sym r s
  | SDL_MOUSEBUTTONDOWN button =>
      match button with
      | SDL_BUTTON_LEFT => Some (set_add_btn_down true s)
      | SDL_BUTTON_RIGHT => Some (set_rem_btn_down true s)
      | SDL_BUTTON_OTHER => Some s
      end
  | SDL_MOUSEBUTTONUP button =>
      match button with
      | SDL_BUTTON_LEFT => Some (set_add_btn_down false s)
      | SDL_BUTTON_RIGHT => Some (set_rem_btn_down false s)
      | SDL_BUTTON_OTHER => Some s
      end
  | SDL_MOUSEWHEEL y =>
      m ← mouse_wheel y (max_tick s);
      Some (set_max_tick m s)
  | SDL_OTHER_EVENT => Some s
  end.

(** [while (SDL_PollEvent(&event)) switch (event.type) ...]. *)
Definition poll_events (evs : list (event * responses)) (s : state)
    : option state :=
  visit (λ er s, handle_event er.1 er.2 s) evs s.

(** [cx + GRID_WIDTH * cy] for mouse-derived coordinates, in [int]. *)
Definition mouse_index (cx cy : Z) : option Z :=
  m ← int_of (GRID_WIDTH * cy);
  int_of (cx + m).

(** The drawing block guarded by [if (!s_started)] (lines 286-307). *)
Definition edit_phase (xy : Z * Z) (s : state) : option state :=
  if negb (s_started s) then
    let cx := xy.1 ÷ PIXEL_SIZE in
    let cy := xy.2 ÷ PIXEL_SIZE in
    if add_btn_down s then
      i ← mouse_index cx cy;
      a ← store (cells s) i CELL_ALIVE;
      Some (set_cells a s)
    else if rem_btn_down s then
      i ← mouse_index cx cy;
      a ← store (cells s) i 0;
      Some (set_cells a s)
    else Some s
  else Some s.

(** The block guarded by [if (s_started)] (lines 310-384). *)
Definition update_phase (s : state) : option state :=
  if s_started s then
    if tick s >? max_tick s then
      a ← generation (cells s);
      Some (set_tick 0 (set_cells a s))
    else Some s
  else Some s.

(** [tick++] at the end of the loop body. *)
Definition tick_phase (s : state) : option state :=
  t ← int_of (tick s + 1);
  Some (set_tick t s).

Definition frame (inp : input) (s : state) : option state :=
  s ← poll_events (events inp) s;
  s ← edit_phase (mouse inp) s;
  s ← update_phase s;
  tick_phase s.

(** [while (!quit) ...], fed one input per iteration. *)
Fixpoint main_loop (inputs : list input) (s : state) : option state :=
  match inputs with
  | [] => Some s
  | inp :: rest =>
      if quit s then Some s
      else s' ← frame inp s; main_loop rest s'
  end.

(** ** Reference definitions, written from the specification

    The grid store of the specification: [get] reads the committed state of
    a cell (the least-significant bit of its byte) at the row-major index
    [x + W*y]; the neighbor counter looks at the eight Moore neighbors and
    leaves out every coordinate outside [[0,W) x [0,H)]; the rule is
    B3/S23. *)

Definition in_grid (x y : Z) : bool :=
  (0 <=? x) && (x <? GRID_WIDTH) && (0 <=? y) && (y <? GRID_HEIGHT).

(** The byte stored at a linear index (0 outside the array; every use below
    is inside). *)
Definition cell (cells : list Z) (i : Z) : Z :=
  default 0 (cells !! Z.to_nat i).

Definition get (cells : list Z) (x y : Z) : bool :=
  Z.odd (cell cells (x + GRID_WIDTH * y)).

(** A candidate neighbor counts when it is on the grid and alive. *)
Definition live_at (cells : list Z) (p : Z * Z) : bool :=
  in_grid p.1 p.2 && get cells p.1 p.2.

Definition moore (x y : Z) : list (Z * Z) :=
  [ (x - 1, y - 1); (x, y - 1); (x + 1, y - 1);
    (x - 1, y);                 (x + 1, y);
    (x - 1, y + 1); (x, y + 1); (x + 1, y + 1) ].

Definition count_live_neighbors (cells : list Z) (x y : Z) : Z :=
  foldr (λ p n, Z.b2z (live_at cells p) + n) 0 (moore x y).

(** B3/S23. *)
Definition life_rule (alive : bool) (n : Z) : bool :=
  if alive then (n =? 2) || (n =? 3) else n =? 3.

(** The next generation of the specification, as a grid of 0/1 bytes in
    row-major order. *)
Definition life_cell (cells : list Z) (i : Z) : Z :=
  let x := i mod GRID_WIDTH in
  let y := i / GRID_WIDTH in
  Z.b2z (life_rule (get cells x y) (count_live_neighbors cells x y)).

Definition life_generation (cells : list Z) : list Z :=
  life_cell cells <$> seqZ 0 sizeof_cells.

(** Grids of the right size, and grids in the committed format. *)
Definition sized (cells : list Z) : bool :=
  Z.of_nat (length cells) =? sizeof_cells.

Definition committed (cells : list Z) : bool :=
  forallb (λ c, (c =? 0) || (c =? 1)) cells.


(** ** What the two passes do to one byte

    [pending] is the bit the evaluation pass ORs into the cell [(x, y)] (0
    when it leaves the cell alone), [marked] the byte after that, and
    [commit_value] what the update pass turns a byte into. *)

Definition pending (cells : list Z) (x y : Z) : Z :=
  let n := count_live_neighbors cells x y in
  if (n =? 2) || (n =? 3) then
    if get cells x y then 0
    else if n =? 3 then CELL_REVIVE else 0
  else CELL_DIE.

Definition marked (c m : Z) : Z :=
  if m =? 0 then c else uint8 (Z.lor c m).

Definition commit_value (c : Z) : Z :=
  if flag c CELL_REVIVE then CELL_ALIVE
  else if flag c CELL_DIE then 0 else c.

Definition eval_value (cells : list Z) (i : Z) : Z :=
  marked (cell cells i) (pending cells (i mod GRID_WIDTH) (i / GRID_WIDTH)).

Definition index_of (p : Z * Z) : Z := p.1 + GRID_WIDTH * p.2.

(** A grid in the middle of a pass that rewrites [orig] cell by cell into
    [new]: every cell still has its old byte or already its new one. *)
Definition partial (orig : list Z) (new : Z → Z) (cur : list Z) : Prop :=
  length cur = length orig ∧
  ∀ i, 0 ≤ i < 36864 → cell cur i = cell orig i ∨ cell cur i = new i.

(** ** Concrete grids used in examples

    [with_alive ps g] sets the listed cells of [g] to [CELL_ALIVE]. *)

Definition with_alive (ps : list (Z * Z)) (g : list Z) : list Z :=
  foldr (λ p g, <[Z.to_nat (index_of p) := CELL_ALIVE]> g) g ps.

Definition corner_block : list Z :=
  with_alive [(1, 0); (0, 1); (1, 1)] cells_init.

(** A burst of scroll-wheel events, all handled with the same answers of the
    collaborators (the wheel handler consults none). *)
Definition wheel_events (r : responses) (ys : list Z)
    : list (event * responses) :=
  (λ y, (SDL_MOUSEWHEEL y, r)) <$> ys.

(** Events other than a release of F1 (the run/pause toggle), and other than
    a release of F4 (load). *)
Definition no_toggle (evs : list (event * responses)) : bool :=
  forallb (λ er, match er.1 with SDL_KEYUP SDLK_F1 => false | _ => true end)
          evs.

Definition no_load (evs : list (event * responses)) : bool :=
  forallb (λ er, match er.1 with SDL_KEYUP SDLK_F4 => false | _ => true end)
          evs.

Definition no_answers : responses := Responses None None None false.

Definition save_current : responses :=
  Responses (Some 1) (Some "corner.gol"%string) None true.

Definition paused_corner : state :=
  set_cells corner_block (initial_state ∅).

Definition running_corner : state :=
  set_tick 2 (set_s_started true paused_corner).

Definition quiet : input := Input [] (0, 0).

(** A running program with the left button held down, and a frame in which
    the user presses F2, clicks and scrolls. *)
Definition running_painting : state :=
  set_add_btn_down true (set_s_started true paused_corner).

Definition busy : input :=
  Input [ (SDL_KEYUP SDLK_F2, no_answers);
          (SDL_MOUSEBUTTONDOWN SDL_BUTTON_RIGHT, no_answers);
          (SDL_MOUSEWHEEL (-1), no_answers) ] (100, 100).

Definition press_start : input :=
  Input [(SDL_KEYUP SDLK_F1, no_answers)] (0, 0).

Definition press_left : input :=
  Input [(SDL_MOUSEBUTTONDOWN SDL_BUTTON_LEFT, no_answers)] (52, 51).

Definition swap_buttons : input :=
  Input [ (SDL_MOUSEBUTTONUP SDL_BUTTON_LEFT, no_answers);
          (SDL_MOUSEBUTTONDOWN SDL_BUTTON_RIGHT, no_answers) ] (1279, 719).

(** A file of the right size whose bytes are not in the committed format. *)
Definition foreign_file : list Z := replicate (Z.to_nat sizeof_cells) 7.

Definition open_foreign : responses :=
  Responses None None (Some "foreign.gol"%string) false.

(** The blinker: three live cells in a row centred on [(x, y)] on an
    otherwise dead grid, and the same in a column. *)
Definition blinker_h (x y : Z) : list Z :=
  with_alive [(x - 1, y); (x, y); (x + 1, y)] cells_init.

Definition blinker_v (x y : Z) : list Z :=
  with_alive [(x, y - 1); (x, y); (x, y + 1)] cells_init.

Definition on_row (x y a b : Z) : bool :=
  (b =? y) && (x - 1 <=? a) && (a <=? x + 1).

Definition on_column (x y a b : Z) : bool :=
  (a =? x) && (y - 1 <=? b) && (b <=? y + 1).

(** ** The drawing loop (main.c, lines 263-283)

    [buffer] holds [WINDOW_WIDTH * WINDOW_HEIGHT] pixels of 32 bits; the
    loop paints the block of [PIXEL_SIZE] by [PIXEL_SIZE] pixels of every
    cell. *)

Definition UINT32_MAX : Z := 4294967295.

Definition draw_pixel (cells : list Z) (i x y : Z) (buffer : list Z)
    : option (list Z) :=
  c ← load cells i;
  if flag c CELL_ALIVE then store buffer (x + WINDOW_WIDTH * y) UINT32_MAX
  else store buffer (x + WINDOW_WIDTH * y) 0.

Definition draw_cells (cells buffer : list Z) : option (list Z) :=
  for_range 0 (GRID_WIDTH * GRID_HEIGHT) (λ i buffer,
    let cx := Z.rem i GRID_WIDTH * PIXEL_SIZE in
    let cy := (i ÷ GRID_WIDTH) * PIXEL_SIZE in
    for_range cx (cx + PIXEL_SIZE) (λ x buffer,
      for_range cy (cy + PIXEL_SIZE) (λ y buffer,
        draw_pixel cells i x y buffer) buffer) buffer) buffer.

(** A piece of code that only stores into an array of [len] elements: it
    returns, keeps the length, gives every index in [J] the value [f] has
    there and leaves the other elements alone. *)
Definition writes (code : list Z → option (list Z)) (len : Z)
    (J : Z → Prop) (f : Z → Z) : Prop :=
  ∀ b, Z.of_nat (length b) = len →
    ∃ b', code b = Some b' ∧ Z.of_nat (length b') = len ∧
      ∀ j, 0 ≤ j < len →
        (cell b' j = f j ∨ cell b' j = cell b j) ∧
        (J j → cell b' j = f j) ∧ (¬ J j → cell b' j = cell b j).

(** The colour the drawing loop gives the pixel of linear index [j]. *)
Definition pixel_of (cells : list Z) (j : Z) : Z :=
  if get cells ((j mod WINDOW_WIDTH) / PIXEL_SIZE)
               ((j / WINDOW_WIDTH) / PIXEL_SIZE)
  then UINT32_MAX else 0.

Definition black_screen : list Z :=
  replicate (Z.to_nat (WINDOW_WIDTH * WINDOW_HEIGHT)) 0.

(** States used in the examples of the further properties. *)
Definition painting : state := set_add_btn_down true paused_corner.

(** The value the editing block writes: [CELL_ALIVE] for the left button,
    0 for the right one alone. *)
Definition edit_value (s : state) : Z :=
  if add_btn_down s then CELL_ALIVE else 0.

Definition stale_counter : state := set_tick 5 paused_corner.

Definition idle : state := set_cells corner_block (initial_state ∅).

Definition save_previous : responses :=
  Responses (Some 0) (Some "before.gol"%string) None true.

Definition short_file : list Z := [1; 1; 1; 1; 0; 0; 0; 1; 1; 1].

Definition open_short : responses :=
  Responses None None (Some "short.gol"%string) false.

Definition with_short_file : state :=
  set_files {[ "short.gol"%string := short_file ]} paused_corner.

Definition quit_then_click : input :=
  Input [ (SDL_QUIT, no_answers);
          (SDL_MOUSEBUTTONDOWN SDL_BUTTON_LEFT, no_answers) ] (52, 51).

(** ** Inputs under which the program stays defined

    Whether an event can go wrong depends on two things the loop has settled
    by the time the event is handled: whether the simulation is running
    (F2, F3 and F4 do nothing then) and which paths name a file (those of
    the file system at the start and those saved since).  [track_event]
    follows both through an event, reading only the events and the answers
    of the collaborators.

    An event is harmless when the files it needs are there: a save handled
    while paused whose dialogs both succeed gets its file opened, a load
    handled while paused names a file that exists at that moment.  A run is
    harmless when the events of every frame it executes are and the mouse is
    inside the window in every such frame; the frames after one that saw
    [SDL_QUIT] are not executed.  [weight] counts the frames and events of a
    run. *)

Record env := Env {
  running : bool;
  paths : gset string
}.

Definition harmless_event (e : env) (er : event * responses) : bool :=
  match er.1 with
  | SDL_KEYUP SDLK_F3 =>
      running e ||
      match message_box er.2, save_dialog er.2 with
      | Some _, Some _ => fopen_write er.2
      | _, _ => true
      end
  | SDL_KEYUP SDLK_F4 =>
      running e ||
      match open_dialog er.2 with
      | Some p => bool_decide (p ∈ paths e)
      | None => true
      end
  | _ => true
  end.

Definition track_event (e : env) (er : event * responses) : env :=
  match er.1 with
  | SDL_KEYUP SDLK_F1 => Env (negb (running e)) (paths e)
  | SDL_KEYUP SDLK_F3 =>
      if running e then e
      else match message_box er.2, save_dialog er.2 with
           | Some _, Some p => Env (running e) ({[ p ]} ∪ paths e)
           | _, _ => e
           end
  | _ => e
  end.

Fixpoint harmless_events (e : env) (evs : list (event * responses)) : bool :=
  match evs with
  | [] => true
  | er :: rest =>
      harmless_event e er && harmless_events (track_event e er) rest
  end.

Definition track_events (e : env) (evs : list (event * responses)) : env :=
  foldl track_event e evs.

Definition has_quit (evs : list (event * responses)) : bool :=
  existsb (λ er, if er.1 is SDL_QUIT then true else false) evs.

Definition in_window (xy : Z * Z) : bool :=
  (0 <=? xy.1) && (xy.1 <? WINDOW_WIDTH)
  && (0 <=? xy.2) && (xy.2 <? WINDOW_HEIGHT).

Fixpoint harmless_run (e : env) (inputs : list input) : bool :=
  match inputs with
  | [] => true
  | inp :: rest =>
      harmless_events e (events inp) && in_window (mouse inp)
      && (has_quit (events inp)
          || harmless_run (track_events e (events inp)) rest)
  end.

Definition weight (inputs : list input) : Z :=
  foldr (λ inp n, 1 + Z.of_nat (length (events inp)) + n) 0 inputs.

(** What every state reached by a harmless run satisfies, [n] bounding the
    frames and events handled so far. *)
Definition within (e : env) (n : Z) (s : state) : Prop :=
  Z.of_nat (length (cells s)) = 36864 ∧
  Z.of_nat (length (previous_simul s)) = 36864 ∧
  0 ≤ tick s ≤ n ∧ 1 ≤ max_tick s ≤ n + 1 ∧
  s_started s = running e ∧
  ∀ p, p ∈ paths e → is_Some (files s !! p).

Definition session : list input :=
  [press_left; swap_buttons; press_start; busy; quiet; quit_then_click].

(** A session that saves the grid and loads the file it has just written. *)
Definition open_saved : responses :=
  Responses None None (Some "corner.gol"%string) false.

Definition save_then_load : list input :=
  [ press_left;
    Input [ (SDL_KEYUP SDLK_F3, save_current);
            (SDL_KEYUP SDLK_F4, open_saved) ] (52, 51);
    swap_buttons; press_start; busy; quiet; quit_then_click ].

(** ** The counters of a run

    The scroll events that slow the simulation down are the only code that
    raises [max_tick]; [tick] is raised once per frame. *)
Definition slower (er : event * responses) : bool :=
  match er.1 with
  | SDL_MOUSEWHEEL y => y <? 0
  | _ => false
  end.

Definition slow_downs (evs : list (event * responses)) : Z :=
  foldr (λ er n, Z.b2z (slower er) + n) 0 evs.

Definition run_slow_downs (inputs : list input) : Z :=
  foldr (λ inp n, slow_downs (events inp) + n) 0 inputs.

Definition counters_ok (t m : Z) (s : state) : Prop :=
  0 ≤ tick s ≤ t ∧ 1 ≤ max_tick s ≤ m.

(** A grid as a foreign file can leave it: cell (0,0) dead with a stale
    REVIVE bit, cell (1,0) alive with a stale DIE bit, cell (2,0) alive with
    a high bit set. *)
Definition stale_grid : list Z :=
  <[0%nat := 2]> (<[1%nat := 5]> (<[2%nat := 9]> cells_init)).

(** What is left of a blinker lying on the top row after one generation,
    and a block of two by two cells with its upper left corner at (x, y). *)
Definition edge_stub (x : Z) : list Z :=
  with_alive [(x, 0); (x, 1)] cells_init.

Definition on_stub (x a b : Z) : bool :=
  (a =? x) && (0 <=? b) && (b <=? 1).

Definition block (x y : Z) : list Z :=
  with_alive [(x, y); (x + 1, y); (x, y + 1); (x + 1, y + 1)] cells_init.

Definition on_block (x y a b : Z) : bool :=
  (x <=? a) && (a <=? x + 1) && (y <=? b) && (b <=? y + 1).

(** One iteration of the window loop together with the screen buffer: the
    drawing loop runs after the events and before the editing and update
    blocks, and the buffer it fills is what the frame shows. *)
Definition frame_drawn (inp : input) (s : state) (buffer : list Z)
    : option (state * list Z) :=
  s ← poll_events (events inp) s;
  buffer ← draw_cells (cells s) buffer;
  s ← edit_phase (mouse inp) s;
  s ← update_phase s;
  s ← tick_phase s;
  Some (s, buffer).

Definition with_foreign_file : state :=
  initial_state {[ "foreign.gol"%string := foreign_file ]}.

(** A running program whose grid came from a foreign file. *)
Definition running_foreign : state :=
  set_tick 1 (set_s_started true (set_cells foreign_file (initial_state ∅))).

(** The window loop together with the screen buffer. *)
Fixpoint main_loop_drawn (inputs : list input) (s : state) (buffer : list Z)
    : option (state * list Z) :=
  match inputs with
  | [] => Some (s, buffer)
  | inp :: rest =>
      if quit s then Some (s, buffer)
      else sb ← frame_drawn inp s buffer; main_loop_drawn rest sb.1 sb.2
  end.

(** ** Basic facts about bytes, flags and array accesses *)

Lemma sizeof_cells_eq : sizeof_cells = 36864.
Proof. reflexivity. Qed.

Lemma sized_length cells :
  sized cells = true ↔ Z.of_nat (length cells) = 36864.
Proof. unfold sized. rewrite Z.eqb_eq, sizeof_cells_eq. tauto. Qed.

Lemma in_grid_iff x y :
  in_grid x y = true ↔ 0 ≤ x < 256 ∧ 0 ≤ y < 144.
Proof.
  unfold in_grid, GRID_WIDTH, GRID_HEIGHT.
  rewrite !andb_true_iff, !Z.leb_le, !Z.ltb_lt. lia.
Qed.

Lemma in_grid_index x y :
  in_grid x y = true → 0 ≤ x + GRID_WIDTH * y < 36864.
Proof. rewrite in_grid_iff. unfold GRID_WIDTH. lia. Qed.

Lemma flag_alive_odd c : flag c CELL_ALIVE = Z.odd c.
Proof.
  unfold flag, CELL_ALIVE.
  change 1 with (Z.ones 1). rewrite Z.land_ones by lia.
  change (2 ^ 1) with 2. rewrite Zmod_odd.
  now destruct (Z.odd c).
Qed.

Lemma uint8_testbit z k :
  0 ≤ k < 8 → Z.testbit (uint8 z) k = Z.testbit z k.
Proof.
  intros Hk. unfold uint8. change 256 with (2 ^ 8).
  apply Z.mod_pow2_bits_low. lia.
Qed.

Lemma load_in cells i :
  0 ≤ i < Z.of_nat (length cells) → load cells i = Some (cell cells i).
Proof.
  intros Hi. unfold load, cell.
  destruct (Z.leb_spec 0 i); [|lia].
  destruct (lookup_lt_is_Some_2 cells (Z.to_nat i)) as [c Hc]; [lia|].
  now rewrite Hc.
Qed.

Lemma store_in cells i v :
  0 ≤ i < Z.of_nat (length cells) →
  store cells i v = Some (<[Z.to_nat i := v]> cells).
Proof.
  intros Hi. unfold store.
  destruct (Z.leb_spec 0 i); [|lia].
  destruct (Z.ltb_spec i (Z.of_nat (length cells))); [|lia].
  reflexivity.
Qed.

Lemma cell_insert cells i j v :
  0 ≤ i < Z.of_nat (length cells) → 0 ≤ j →
  cell (<[Z.to_nat i := v]> cells) j = if Z.eq_dec i j then v else cell cells j.
Proof.
  intros Hi Hj. unfold cell.
  destruct (Z.eq_dec i j) as [->|Hne].
  - rewrite list_lookup_insert_eq by lia. reflexivity.
  - rewrite list_lookup_insert_ne by lia. reflexivity.
Qed.

Lemma cells_ext (a b : list Z) :
  length a = length b →
  (∀ i, 0 ≤ i < Z.of_nat (length a) → cell a i = cell b i) →
  a = b.
Proof.
  intros Hlen Hcell. apply list_eq. intros n.
  destruct (decide (n < length a)%nat) as [Hn|Hn].
  - destruct (lookup_lt_is_Some_2 a n Hn) as [u Hu].
    destruct (lookup_lt_is_Some_2 b n) as [v Hv]; [lia|].
    specialize (Hcell (Z.of_nat n)). unfold cell in Hcell.
    rewrite Nat2Z.id, Hu, Hv in Hcell. simpl in Hcell.
    rewrite Hu, Hv, Hcell by lia. reflexivity.
  - rewrite !lookup_ge_None_2 by lia. reflexivity.
Qed.

(** ** The neighbor counter *)

Lemma live_at_range cells p : 0 ≤ Z.b2z (live_at cells p) ≤ 1.
Proof. destruct (live_at cells p); simpl; lia. Qed.

(** One border-checked test adds the reference contribution of the neighbor
    it looks at, and its read stays inside the array. *)
Lemma probe_spec cells guard x y n :
  Z.of_nat (length cells) = 36864 →
  0 ≤ n ≤ 200 →
  (guard = true → in_grid x y = true) →
  guard = in_grid x y →
  probe guard cells (x + GRID_WIDTH * y) n
  = Some (Z.b2z (live_at cells (x, y)) + n).
Proof.
  intros Hlen Hn Hin Hg. unfold probe, live_at. simpl. rewrite <- Hg.
  destruct guard; simpl; [|reflexivity].
  specialize (Hin eq_refl). apply in_grid_index in Hin.
  rewrite load_in by lia. simpl.
  rewrite flag_alive_odd. unfold get.
  destruct (Z.odd _); simpl; [|reflexivity].
  unfold uint8. rewrite Z.mod_small by lia. f_equal. lia.
Qed.

Lemma live_neighbors_spec cells x y :
  Z.of_nat (length cells) = 36864 →
  in_grid x y = true →
  live_neighbors cells x y = Some (count_live_neighbors cells x y).
Proof.
  intros Hlen Hxy. apply in_grid_iff in Hxy.
  pose proof (live_at_range cells (x - 1, y - 1)).
  pose proof (live_at_range cells (x, y - 1)).
  pose proof (live_at_range cells (x + 1, y - 1)).
  pose proof (live_at_range cells (x - 1, y)).
  pose proof (live_at_range cells (x + 1, y)).
  pose proof (live_at_range cells (x - 1, y + 1)).
  pose proof (live_at_range cells (x, y + 1)).
  pose proof (live_at_range cells (x + 1, y + 1)).
  assert (∀ g x' y', (g = true ↔ (0 ≤ x' < 256 ∧ 0 ≤ y' < 144)) →
            (g = true → in_grid x' y' = true) ∧ g = in_grid x' y') as Hguard.
  { intros g x' y' Hg. rewrite <- in_grid_iff in Hg.
    split; [tauto|]. destruct g, (in_grid x' y'); intuition congruence. }
  unfold live_neighbors, count_live_neighbors, moore. simpl.
  repeat match goal with
  | |- context [probe ?g cells (?x' + GRID_WIDTH * ?y') ?n] =>
      let Hg := fresh in
      destruct (Hguard g x' y') as [? Hg];
      [ unfold GRID_WIDTH, GRID_HEIGHT;
        rewrite ?andb_true_iff, ?negb_true_iff, ?Z.eqb_neq; lia
      | rewrite (probe_spec cells g x' y' n) by (auto; lia); simpl ]
  end.
  f_equal. lia.
Qed.

(** ** Loops as visits of a list of cells *)

Lemma for_loop_visit {S : Type} (body : Z → S → option S) n :
  ∀ i s, for_loop n i body s = visit body (seqZ i (Z.of_nat n)) s.
Proof.
  induction n as [|n IH]; intros i s.
  - now rewrite seqZ_nil by lia.
  - rewrite seqZ_cons by lia. simpl.
    destruct (body i s) as [s'|]; simpl; [|reflexivity].
    rewrite IH. do 2 f_equal; lia.
Qed.

Lemma for_range_visit {S : Type} (body : Z → S → option S) lo hi s :
  for_range lo hi body s = visit body (seqZ lo (hi - lo)) s.
Proof.
  unfold for_range. rewrite for_loop_visit.
  unfold seqZ. now rewrite Nat2Z.id.
Qed.

Lemma visit_app {A S : Type} (body : A → S → option S) l1 l2 :
  ∀ s, visit body (l1 ++ l2) s = visit body l1 s ≫= visit body l2.
Proof.
  induction l1 as [|p l1 IH]; intros s; simpl; [reflexivity|].
  destruct (body p s); simpl; auto.
Qed.

Lemma visit_ext {A S : Type} (f g : A → S → option S) l :
  (∀ p s, f p s = g p s) → ∀ s, visit f l s = visit g l s.
Proof.
  intros Hfg. induction l as [|p l IH]; intros s; simpl; [reflexivity|].
  rewrite Hfg. destruct (g p s); simpl; auto.
Qed.

Lemma visit_rows {S : Type} (body : Z * Z → S → option S) xs ys :
  ∀ s, visit (λ y s, visit (λ x s, body (x, y) s) xs s) ys s
       = visit body (y ← ys; x ← xs; [(x, y)]) s.
Proof.
  assert (∀ y s, visit (λ x s, body (x, y) s) xs s
                 = visit body (x ← xs; [(x, y)]) s) as Hrow.
  { intros y. induction xs as [|x xs IH]; intros s; [reflexivity|].
    rewrite bind_cons. simpl.
    destruct (body (x, y) s); simpl; auto. }
  induction ys as [|y ys IH]; intros s; [reflexivity|].
  rewrite bind_cons, visit_app. simpl. rewrite Hrow.
  destruct (visit body _ s); simpl; auto.
Qed.

Lemma eval_pass_row_major cells : eval_pass cells = eval_order row_major cells.
Proof.
  unfold eval_pass, eval_order, row_major.
  rewrite for_range_visit, Z.sub_0_r.
  erewrite visit_ext by (intros; apply for_range_visit).
  rewrite Z.sub_0_r.
  apply (visit_rows (λ p cells, eval_cell cells p.1 p.2)).
Qed.

Lemma commit_pass_row_major cells :
  commit_pass cells = commit_order row_major cells.
Proof.
  unfold commit_pass, commit_order, row_major.
  rewrite for_range_visit, Z.sub_0_r.
  erewrite visit_ext by (intros; apply for_range_visit).
  rewrite Z.sub_0_r.
  apply (visit_rows (λ p cells, commit_cell cells p.1 p.2)).
Qed.

Lemma row_major_in_grid :
  Forall (λ p, in_grid p.1 p.2 = true) row_major.
Proof.
  apply Forall_forall. intros [x y] Hp. unfold row_major in Hp.
  apply list_elem_of_bind in Hp as (y' & Hp & Hy).
  apply list_elem_of_bind in Hp as (x' & Hp & Hx).
  apply list_elem_of_singleton in Hp. injection Hp as -> ->.
  apply elem_of_seqZ in Hx, Hy. simpl.
  apply in_grid_iff. unfold GRID_WIDTH, GRID_HEIGHT in *. lia.
Qed.

Lemma elem_of_row_major x y :
  (x, y) ∈ row_major ↔ in_grid x y = true.
Proof.
  split.
  - intros Hp. apply (proj1 (Forall_forall _ _) row_major_in_grid _ Hp).
  - intros Hp. apply in_grid_iff in Hp. unfold row_major.
    apply list_elem_of_bind. exists y. split.
    + apply list_elem_of_bind. exists x. split; [apply list_elem_of_singleton; reflexivity|].
      apply elem_of_seqZ. unfold GRID_WIDTH. lia.
    + apply elem_of_seqZ. unfold GRID_HEIGHT. lia.
Qed.

Lemma index_of_coords i :
  0 ≤ i < 36864 →
  in_grid (i mod GRID_WIDTH) (i / GRID_WIDTH) = true ∧
  index_of (i mod GRID_WIDTH, i / GRID_WIDTH) = i.
Proof.
  intros Hi. unfold index_of, GRID_WIDTH. simpl.
  pose proof (Z.div_mod i 256 ltac:(lia)).
  pose proof (Z.mod_pos_bound i 256 ltac:(lia)).
  split; [apply in_grid_iff|]; lia.
Qed.

Lemma coords_of_index x y :
  in_grid x y = true →
  (x + GRID_WIDTH * y) mod GRID_WIDTH = x ∧
  (x + GRID_WIDTH * y) / GRID_WIDTH = y.
Proof.
  intros Hxy. apply in_grid_iff in Hxy. unfold GRID_WIDTH.
  replace (x + 256 * y) with (x + y * 256) by lia.
  rewrite Z_mod_plus_full, Z_div_plus_full by lia.
  rewrite Z.mod_small, Z.div_small by lia. lia.
Qed.

Lemma row_major_covers i :
  0 ≤ i < 36864 → i ∈ index_of <$> row_major.
Proof.
  intros Hi. destruct (index_of_coords i Hi) as [Hin Hidx].
  apply list_elem_of_fmap. eexists. split; [symmetry; exact Hidx|].
  now apply elem_of_row_major.
Qed.

(** ** A pass that rewrites the grid cell by cell *)

Section sweep.
Variable orig : list Z.
Variable new : Z → Z.
Variable body : Z * Z → list Z → option (list Z).

Hypothesis orig_sized : Z.of_nat (length orig) = 36864.
Hypothesis body_step : ∀ cur x y,
  partial orig new cur → in_grid x y = true →
  body (x, y) cur
  = Some (<[Z.to_nat (x + GRID_WIDTH * y) := new (x + GRID_WIDTH * y)]> cur).

Lemma partial_orig : partial orig new orig.
Proof. split; auto. Qed.

Lemma partial_step cur x y :
  partial orig new cur → in_grid x y = true →
  partial orig new
    (<[Z.to_nat (x + GRID_WIDTH * y) := new (x + GRID_WIDTH * y)]> cur).
Proof.
  intros [Hlen Hcur] Hxy. apply in_grid_index in Hxy.
  split; [now rewrite length_insert|].
  intros i Hi. rewrite cell_insert by lia.
  destruct (Z.eq_dec _ i) as [->|]; auto.
Qed.

Lemma sweep_visit order :
  ∀ cur, partial orig new cur →
  Forall (λ p, in_grid p.1 p.2 = true) order →
  ∃ fin, visit body order cur = Some fin ∧ partial orig new fin ∧
    ∀ i, 0 ≤ i < 36864 →
      cell fin i
      = if decide (i ∈ index_of <$> order) then new i else cell cur i.
Proof.
  induction order as [|[x y] order IH]; intros cur Hcur Hord.
  - exists cur. split; [reflexivity|]. split; [exact Hcur|]. intros i Hi.
    destruct (decide _) as [Hin|]; [|reflexivity].
    apply elem_of_nil in Hin. contradiction.
  - apply Forall_cons in Hord as [Hxy Hord]. simpl in Hxy.
    assert (visit body ((x, y) :: order) cur
            = visit body order
                (<[Z.to_nat (x + GRID_WIDTH * y)
                   := new (x + GRID_WIDTH * y)]> cur)) as ->
      by (simpl; now rewrite body_step by assumption).
    destruct (IH _ (partial_step cur x y Hcur Hxy) Hord)
      as (fin & Hfin & Hpart & Hcells).
    exists fin. split; [exact Hfin|]. split; [exact Hpart|].
    intros i Hi. rewrite Hcells by assumption.
    pose proof (in_grid_index x y Hxy) as Hidx.
    destruct Hcur as [Hlen _].
    rewrite cell_insert by lia. rewrite fmap_cons.
    change (index_of (x, y)) with (x + GRID_WIDTH * y).
    destruct (decide (i ∈ index_of <$> order)) as [Hin|Hnin].
    + rewrite decide_True by (apply elem_of_cons; auto). reflexivity.
    + destruct (Z.eq_dec (x + GRID_WIDTH * y) i) as [Heq|Hne].
      * rewrite decide_True by (apply elem_of_cons; auto). now rewrite Heq.
      * rewrite decide_False; [reflexivity|].
        intros [?|?]%elem_of_cons; congruence.
Qed.

(** Visiting every cell at least once, in any order, gives the new grid. *)
Lemma sweep_all order :
  Forall (λ p, in_grid p.1 p.2 = true) order →
  (∀ i, 0 ≤ i < 36864 → i ∈ index_of <$> order) →
  ∃ fin, visit body order orig = Some fin ∧ length fin = length orig ∧
    ∀ i, 0 ≤ i < 36864 → cell fin i = new i.
Proof.
  intros Hord Hall.
  destruct (sweep_visit order orig partial_orig Hord)
    as (fin & Hfin & [Hlen _] & Hcells).
  exists fin. repeat split; auto. intros i Hi.
  rewrite Hcells by assumption.
  now rewrite decide_True by auto.
Qed.
End sweep.

(** ** The evaluation pass *)

Lemma pending_cases cells x y :
  pending cells x y = 0 ∨ pending cells x y = CELL_REVIVE
  ∨ pending cells x y = CELL_DIE.
Proof.
  unfold pending.
  destruct (_ || _); [destruct (get cells x y); [|destruct (_ =? 3)]|]; auto.
Qed.

Lemma uint8_lor_absorb u m :
  uint8 (Z.lor (uint8 u) m) = uint8 (Z.lor u m).
Proof.
  apply Z.bits_inj'. intros n Hn.
  destruct (Z.lt_ge_cases n 8).
  - rewrite !uint8_testbit, !Z.lor_spec, uint8_testbit by lia. reflexivity.
  - unfold uint8. change 256 with (2 ^ 8).
    rewrite !Z.mod_pow2_bits_high by lia. reflexivity.
Qed.

Lemma marked_idem c m : marked (marked c m) m = marked c m.
Proof.
  unfold marked. destruct (m =? 0); [reflexivity|].
  rewrite uint8_lor_absorb, <- Z.lor_assoc, Z.lor_diag. reflexivity.
Qed.

(** The evaluation pass never touches the alive bit. *)
Lemma odd_marked c m :
  m = 0 ∨ m = CELL_REVIVE ∨ m = CELL_DIE → Z.odd (marked c m) = Z.odd c.
Proof.
  intros Hm. unfold marked.
  destruct (Z.eqb_spec m 0); [reflexivity|].
  rewrite <- !Z.bit0_odd, uint8_testbit, Z.lor_spec by lia.
  destruct Hm as [->|[->| ->]]; [lia| |]; apply orb_false_r.
Qed.

Lemma odd_eval_value cells i :
  Z.odd (eval_value cells i) = Z.odd (cell cells i).
Proof. apply odd_marked, pending_cases. Qed.

Section same_alive.
Variables a b : list Z.
Hypothesis same : ∀ i, 0 ≤ i < 36864 → Z.odd (cell b i) = Z.odd (cell a i).

Lemma same_get x y : in_grid x y = true → get b x y = get a x y.
Proof. intros Hxy. apply same, in_grid_index, Hxy. Qed.

Lemma same_live_at p : live_at b p = live_at a p.
Proof.
  unfold live_at. destruct (in_grid p.1 p.2) eqn:Hp; [|reflexivity].
  simpl. now apply same_get.
Qed.

Lemma same_count x y :
  count_live_neighbors b x y = count_live_neighbors a x y.
Proof.
  unfold count_live_neighbors.
  induction (moore x y) as [|p l IH]; [reflexivity|].
  simpl. now rewrite IH, same_live_at.
Qed.

Lemma same_pending x y :
  in_grid x y = true → pending b x y = pending a x y.
Proof. intros Hxy. unfold pending. now rewrite same_count, same_get. Qed.
End same_alive.

Lemma partial_eval_odd a cur :
  partial a (eval_value a) cur →
  ∀ i, 0 ≤ i < 36864 → Z.odd (cell cur i) = Z.odd (cell a i).
Proof.
  intros [_ Hcur] i Hi.
  destruct (Hcur i Hi) as [-> | ->]; [reflexivity|apply odd_eval_value].
Qed.

Lemma or_assign_in cells i m :
  0 ≤ i < Z.of_nat (length cells) →
  or_assign cells i m
  = Some (<[Z.to_nat i := uint8 (Z.lor (cell cells i) m)]> cells).
Proof.
  intros Hi. unfold or_assign. rewrite load_in by assumption. simpl.
  now apply store_in.
Qed.

Lemma insert_cell_id cells i :
  0 ≤ i < Z.of_nat (length cells) →
  <[Z.to_nat i := cell cells i]> cells = cells.
Proof.
  intros Hi. apply list_insert_id. unfold cell.
  destruct (lookup_lt_is_Some_2 cells (Z.to_nat i)) as [c Hc]; [lia|].
  now rewrite Hc.
Qed.

(** What the body of the evaluation loops does to a grid whose alive bits
    are those of [a]: it ORs the pending bit of [a] into the cell. *)
Lemma eval_cell_marks a cur x y :
  Z.of_nat (length cur) = 36864 →
  (∀ i, 0 ≤ i < 36864 → Z.odd (cell cur i) = Z.odd (cell a i)) →
  in_grid x y = true →
  eval_cell cur x y
  = Some (<[Z.to_nat (x + GRID_WIDTH * y)
            := marked (cell cur (x + GRID_WIDTH * y)) (pending a x y)]> cur).
Proof.
  intros Hlen Hodd Hxy.
  pose proof (in_grid_index x y Hxy) as Hidx.
  unfold eval_cell. rewrite live_neighbors_spec by assumption.
  rewrite <- (same_pending a cur Hodd x y Hxy).
  unfold pending, marked.
  set (n := count_live_neighbors cur x y).
  cbn [mbind option_bind].
  destruct ((n =? 2) || (n =? 3)).
  - rewrite load_in by lia. cbn [mbind option_bind].
    rewrite flag_alive_odd. fold (get cur x y).
    destruct (get cur x y); [|destruct (n =? 3)].
    + rewrite Z.eqb_refl. now rewrite insert_cell_id by lia.
    + now rewrite or_assign_in by lia.
    + rewrite Z.eqb_refl. now rewrite insert_cell_id by lia.
  - now rewrite or_assign_in by lia.
Qed.

Lemma eval_cell_step a (Ha : Z.of_nat (length a) = 36864) cur x y :
  partial a (eval_value a) cur → in_grid x y = true →
  eval_cell cur x y
  = Some (<[Z.to_nat (x + GRID_WIDTH * y)
            := eval_value a (x + GRID_WIDTH * y)]> cur).
Proof.
  intros Hcur Hxy.
  pose proof (partial_eval_odd a cur Hcur) as Hodd.
  destruct Hcur as [Hlen Hcur].
  rewrite (eval_cell_marks a) by (auto; lia). do 2 f_equal.
  unfold eval_value at 1.
  destruct (coords_of_index x y Hxy) as [-> ->].
  destruct (Hcur _ (in_grid_index x y Hxy)) as [-> | ->]; [reflexivity|].
  unfold eval_value. destruct (coords_of_index x y Hxy) as [-> ->].
  apply marked_idem.
Qed.

(** The evaluation pass in any order that reaches every cell. *)
Lemma eval_order_spec a order :
  Z.of_nat (length a) = 36864 →
  Forall (λ p, in_grid p.1 p.2 = true) order →
  (∀ i, 0 ≤ i < 36864 → i ∈ index_of <$> order) →
  ∃ b, eval_order order a = Some b ∧ length b = length a ∧
    ∀ i, 0 ≤ i < 36864 → cell b i = eval_value a i.
Proof.
  intros Ha Hord Hall. unfold eval_order.
  apply (sweep_all a (eval_value a)
           (λ p cells, eval_cell cells p.1 p.2)); auto.
  intros cur x y Hcur Hxy. now apply eval_cell_step.
Qed.

Lemma eval_pass_spec a :
  Z.of_nat (length a) = 36864 →
  ∃ b, eval_pass a = Some b ∧ length b = length a ∧
    ∀ i, 0 ≤ i < 36864 → cell b i = eval_value a i.
Proof.
  intros Ha. rewrite eval_pass_row_major.
  apply eval_order_spec; auto using row_major_in_grid, row_major_covers.
Qed.

(** ** The update pass *)

Lemma commit_value_idem c : commit_value (commit_value c) = commit_value c.
Proof.
  unfold commit_value.
  destruct (flag c CELL_REVIVE) eqn:Hr; [reflexivity|].
  destruct (flag c CELL_DIE) eqn:Hd; [reflexivity|].
  now rewrite Hr, Hd.
Qed.

Lemma commit_cell_in cur x y :
  Z.of_nat (length cur) = 36864 → in_grid x y = true →
  commit_cell cur x y
  = Some (<[Z.to_nat (x + GRID_WIDTH * y)
            := commit_value (cell cur (x + GRID_WIDTH * y))]> cur).
Proof.
  intros Hlen Hxy. pose proof (in_grid_index x y Hxy) as Hidx.
  unfold commit_cell, commit_value.
  rewrite load_in by lia. cbn [mbind option_bind].
  destruct (flag _ CELL_REVIVE); [now apply store_in; lia|].
  destruct (flag _ CELL_DIE); [now apply store_in; lia|].
  now rewrite insert_cell_id by lia.
Qed.

Lemma commit_order_spec b order :
  Z.of_nat (length b) = 36864 →
  Forall (λ p, in_grid p.1 p.2 = true) order →
  (∀ i, 0 ≤ i < 36864 → i ∈ index_of <$> order) →
  ∃ c, commit_order order b = Some c ∧ length c = length b ∧
    ∀ i, 0 ≤ i < 36864 → cell c i = commit_value (cell b i).
Proof.
  intros Hb Hord Hall. unfold commit_order.
  apply (sweep_all b (λ i, commit_value (cell b i))
           (λ p cells, commit_cell cells p.1 p.2)); auto.
  intros cur x y [Hlen Hcur] Hxy. simpl.
  rewrite commit_cell_in by (auto; lia). do 2 f_equal.
  destruct (Hcur _ (in_grid_index x y Hxy)) as [-> | ->]; [reflexivity|].
  apply commit_value_idem.
Qed.

Lemma commit_pass_spec b :
  Z.of_nat (length b) = 36864 →
  ∃ c, commit_pass b = Some c ∧ length c = length b ∧
    ∀ i, 0 ≤ i < 36864 → cell c i = commit_value (cell b i).
Proof.
  intros Hb. rewrite commit_pass_row_major.
  apply commit_order_spec; auto using row_major_in_grid, row_major_covers.
Qed.

(** ** One generation *)

Lemma generation_spec a :
  Z.of_nat (length a) = 36864 →
  ∃ c, generation a = Some c ∧ length c = length a ∧
    ∀ i, 0 ≤ i < 36864 → cell c i = commit_value (eval_value a i).
Proof.
  intros Ha. unfold generation.
  destruct (eval_pass_spec a Ha) as (b & -> & Hlb & Hb).
  cbn [mbind option_bind].
  destruct (commit_pass_spec b) as (c & -> & Hlc & Hc); [lia|].
  exists c. split; [reflexivity|]. split; [congruence|].
  intros i Hi. now rewrite Hc, Hb.
Qed.

Lemma committed_cell cells i :
  committed cells = true → 0 ≤ i < Z.of_nat (length cells) →
  cell cells i = 0 ∨ cell cells i = 1.
Proof.
  intros Hc Hi. unfold committed in Hc.
  destruct (lookup_lt_is_Some_2 cells (Z.to_nat i)) as [c Hc']; [lia|].
  unfold cell. rewrite Hc'. simpl.
  rewrite forallb_forall in Hc. specialize (Hc c).
  rewrite orb_true_iff, !Z.eqb_eq in Hc. apply Hc.
  apply list_elem_of_In, list_elem_of_lookup. eauto.
Qed.

Lemma cell_life_generation cells i :
  0 ≤ i < 36864 → cell (life_generation cells) i = life_cell cells i.
Proof.
  intros Hi. unfold cell, life_generation.
  rewrite list_lookup_fmap, lookup_seqZ_lt by (rewrite sizeof_cells_eq; lia).
  simpl. f_equal. lia.
Qed.

Lemma length_life_generation cells :
  Z.of_nat (length (life_generation cells)) = 36864.
Proof.
  unfold life_generation.
  rewrite length_fmap, length_seqZ, sizeof_cells_eq. lia.
Qed.

(** On a committed byte the two passes together apply B3/S23. *)
Lemma commit_eval_life cells i :
  0 ≤ i < 36864 → cell cells i = 0 ∨ cell cells i = 1 →
  commit_value (eval_value cells i) = life_cell cells i.
Proof.
  intros Hi Hc. destruct (index_of_coords i Hi) as [_ Hidx].
  unfold eval_value, life_cell, pending, life_rule, get.
  unfold index_of in Hidx. simpl in Hidx. rewrite Hidx.
  set (n := count_live_neighbors _ _ _).
  destruct Hc as [-> | ->]; simpl;
    destruct (n =? 2), (n =? 3); reflexivity.
Qed.

(** On a grid in the committed format the two passes compute the reference
    next generation. *)
Lemma generation_life cells :
  sized cells = true → committed cells = true →
  generation cells = Some (life_generation cells).
Proof.
  intros Hs Hc. apply sized_length in Hs.
  destruct (generation_spec cells Hs) as (c & -> & Hlen & Hcells).
  f_equal. apply cells_ext.
  - pose proof (length_life_generation cells). lia.
  - intros i Hi.
    rewrite Hcells, cell_life_generation by lia.
    apply commit_eval_life; [lia|]. apply committed_cell; [assumption|lia].
Qed.

(** C1: on a grid whose bytes are all 0 or 1, the evaluation pass followed by
    the update pass returns exactly the B3/S23 successor with edge-clamped
    neighborhoods: the cell (x,y) of the result is 1 if it was alive with 2
    or 3 live neighbors or dead with exactly 3, and 0 otherwise. *)
Theorem generation_is_life cells :
  sized cells = true → committed cells = true →
  ∃ next, generation cells = Some next ∧
    Z.of_nat (length next) = GRID_WIDTH * GRID_HEIGHT ∧
    ∀ x y, in_grid x y = true →
      cell next (x + GRID_WIDTH * y)
      = Z.b2z (if get cells x y
               then (count_live_neighbors cells x y =? 2)
                    || (count_live_neighbors cells x y =? 3)
               else count_live_neighbors cells x y =? 3).
Proof.
  intros Hs Hc. exists (life_generation cells).
  split; [now apply generation_life|].
  split; [apply length_life_generation|].
  intros x y Hxy.
  rewrite cell_life_generation by now apply in_grid_index.
  unfold life_cell. now destruct (coords_of_index x y Hxy) as [-> ->].
Qed.

Lemma generation_is_life_witness :
  ∃ next, generation corner_block = Some next ∧
    Z.of_nat (length next) = GRID_WIDTH * GRID_HEIGHT ∧
    ∀ x y, in_grid x y = true →
      cell next (x + GRID_WIDTH * y)
      = Z.b2z (if get corner_block x y
               then (count_live_neighbors corner_block x y =? 2)
                    || (count_live_neighbors corner_block x y =? 3)
               else count_live_neighbors corner_block x y =? 3).
Proof.
  apply (generation_is_life corner_block); vm_compute; reflexivity.
Defined.

(** C2: visiting the cells in any order, the evaluation pass leaves the alive
    bit of every cell as it was at every point of the pass, so that every
    neighbor count it computes is the count of the starting grid; and the
    grid it ends with is the one the row-by-row loops of the source produce:
    the starting grid with, in each cell, at most the pending REVIVE or DIE
    bit decided from the starting grid ORed in. *)
Theorem evaluation_order_independent cells order :
  sized cells = true → order ≡ₚ row_major →
  (∀ done rest, order = done ++ rest →
     ∃ mid, eval_order done cells = Some mid ∧
       ∀ x y, in_grid x y = true →
         get mid x y = get cells x y ∧
         live_neighbors mid x y = Some (count_live_neighbors cells x y)) ∧
  ∃ fin, eval_order order cells = Some fin ∧ eval_pass cells = Some fin ∧
    ∀ x y, in_grid x y = true →
      cell fin (x + GRID_WIDTH * y)
      = marked (cell cells (x + GRID_WIDTH * y)) (pending cells x y).
Proof.
  intros Hs Hperm. apply sized_length in Hs.
  assert (Forall (λ p, in_grid p.1 p.2 = true) order) as Hord
    by (rewrite Hperm; apply row_major_in_grid).
  assert (∀ i, 0 ≤ i < 36864 → i ∈ index_of <$> order) as Hall
    by (intros i Hi; rewrite Hperm; now apply row_major_covers).
  split.
  - intros pre rest ->. apply Forall_app in Hord as [Hpre _].
    destruct (sweep_visit cells (eval_value cells)
                (λ p cells, eval_cell cells p.1 p.2) Hs
                (λ cur x y, eval_cell_step cells Hs cur x y)
                pre cells (partial_orig _ _) Hpre)
      as (mid & Hmid & Hpart & _).
    exists mid. split; [exact Hmid|]. intros x y Hxy.
    pose proof (partial_eval_odd cells mid Hpart) as Hodd.
    destruct Hpart as [Hlen _].
    split; [now apply same_get|].
    rewrite live_neighbors_spec by (auto; lia).
    f_equal. now apply same_count.
  - destruct (eval_order_spec cells order Hs Hord Hall) as (b & Hb & Hlb & Hcb).
    destruct (eval_pass_spec cells Hs) as (b' & Hb' & Hlb' & Hcb').
    exists b. split; [exact Hb|]. split.
    + rewrite Hb'. f_equal.
      apply cells_ext; [congruence|].
      intros i Hi. rewrite Hcb, Hcb' by lia. reflexivity.
    + intros x y Hxy. rewrite Hcb by now apply in_grid_index.
      unfold eval_value. now destruct (coords_of_index x y Hxy) as [-> ->].
Qed.

Lemma evaluation_order_independent_witness :
  (∀ done rest, reverse row_major = done ++ rest →
     ∃ mid, eval_order done corner_block = Some mid ∧
       ∀ x y, in_grid x y = true →
         get mid x y = get corner_block x y ∧
         live_neighbors mid x y
         = Some (count_live_neighbors corner_block x y)) ∧
  ∃ fin, eval_order (reverse row_major) corner_block = Some fin ∧
         eval_pass corner_block = Some fin ∧
    ∀ x y, in_grid x y = true →
      cell fin (x + GRID_WIDTH * y)
      = marked (cell corner_block (x + GRID_WIDTH * y))
          (pending corner_block x y).
Proof.
  apply (evaluation_order_independent corner_block (reverse row_major)).
  - vm_compute. reflexivity.
  - apply reverse_Permutation.
Defined.

(** C3: on a grid of the right size and for every cell (x,y) of the grid,
    the counting code returns a value (all its reads are inside the array),
    the value is between 0 and 8 and is the number of live cells among the
    Moore neighbors that lie on the grid; at the corner (0,0) it is at most
    3. *)
Theorem live_neighbors_edge_clamped cells x y :
  sized cells = true → 0 ≤ x < GRID_WIDTH → 0 ≤ y < GRID_HEIGHT →
  ∃ n, live_neighbors cells x y = Some n ∧
       0 ≤ n ≤ 8 ∧
       n = count_live_neighbors cells x y ∧
       (x = 0 → y = 0 → n ≤ 3).
Proof.
  intros Hs Hx Hy. apply sized_length in Hs.
  assert (in_grid x y = true) as Hxy by now apply in_grid_iff.
  exists (count_live_neighbors cells x y).
  split; [now apply live_neighbors_spec|].
  unfold count_live_neighbors, moore. cbn [foldr].
  pose proof (live_at_range cells (x - 1, y - 1)).
  pose proof (live_at_range cells (x, y - 1)).
  pose proof (live_at_range cells (x + 1, y - 1)).
  pose proof (live_at_range cells (x - 1, y)).
  pose proof (live_at_range cells (x + 1, y)).
  pose proof (live_at_range cells (x - 1, y + 1)).
  pose proof (live_at_range cells (x, y + 1)).
  pose proof (live_at_range cells (x + 1, y + 1)).
  split; [lia|]. split; [reflexivity|].
  intros -> ->. unfold live_at, in_grid in *. simpl in *. lia.
Qed.

Lemma live_neighbors_edge_clamped_witness :
  ∃ n, live_neighbors corner_block 0 0 = Some n ∧
       0 ≤ n ≤ 8 ∧
       n = count_live_neighbors corner_block 0 0 ∧
       (0 = 0 → 0 = 0 → n ≤ 3).
Proof.
  apply (live_neighbors_edge_clamped corner_block 0 0);
    vm_compute; intuition discriminate.
Defined.

(** ** Saving and loading *)

Lemma fwrite_cells a :
  Z.of_nat (length a) = 36864 →
  fwrite a sizeof_uint8_t (sizeof_cells / sizeof_uint8_t) = Some a.
Proof.
  intros Ha. unfold fwrite.
  change (sizeof_uint8_t * (sizeof_cells / sizeof_uint8_t)) with 36864.
  rewrite Ha. change ((0 <=? 36864) && (36864 <=? 36864)) with true.
  cbv iota. now rewrite take_ge by lia.
Qed.

Lemma fread_cells a file :
  Z.of_nat (length a) = 36864 → Z.of_nat (length file) = 36864 →
  fread a sizeof_uint32_t (sizeof_cells / sizeof_uint32_t) file = Some file.
Proof.
  intros Ha Hf. unfold fread.
  change (sizeof_uint32_t * (sizeof_cells / sizeof_uint32_t)) with 36864.
  rewrite Ha, Hf, Z.min_id.
  change ((0 <=? 36864) && (36864 <=? 36864)) with true. cbv iota.
  now rewrite take_ge, drop_ge, app_nil_r by lia.
Qed.

(** C4: saving stores in the chosen file exactly the W*H = 36864 bytes of
    the array being saved (the grid for the button "Current", the snapshot
    otherwise), byte i being the cell of row-major index i and its lowest
    bit the alive flag; and loading a file with that content into a paused
    program makes the grid exactly the saved cells: the 9216 units of 4
    bytes that the load reads are the same 36864 bytes. *)
Theorem save_load_round_trip r path btn s :
  s_started s = false →
  sized (cells s) = true → sized (previous_simul s) = true →
  message_box r = Some btn → save_dialog r = Some path →
  fopen_write r = true →
  ∃ s1 file,
    handle_event (SDL_KEYUP SDLK_F3) r s = Some s1 ∧
    cells s1 = cells s ∧
    files s1 !! path = Some file ∧
    file = (if btn =? 1 then cells s else previous_simul s) ∧
    Z.of_nat (length file) = GRID_WIDTH * GRID_HEIGHT ∧
    (btn = 1 → ∀ x y, in_grid x y = true →
       Z.odd (cell file (x + GRID_WIDTH * y)) = get (cells s) x y) ∧
    ∀ r' t, s_started t = false → sized (cells t) = true →
      open_dialog r' = Some path → files t !! path = Some file →
      ∃ t', handle_event (SDL_KEYUP SDLK_F4) r' t = Some t' ∧
            cells t' = file.
Proof.
  intros Hp Hs Hs' Hbtn Hdlg Hopen. apply sized_length in Hs, Hs'.
  set (file := if btn =? 1 then cells s else previous_simul s).
  assert (Z.of_nat (length file) = 36864) as Hfile
    by (unfold file; now destruct (btn =? 1)).
  exists (set_files (<[path := file]> (files s)) s), file.
  split.
  { cbn [handle_event]. unfold key_up. rewrite Hp. cbn [negb].
    unfold save_state. rewrite Hbtn, Hdlg, Hopen. unfold file.
    destruct (btn =? 1); now rewrite fwrite_cells by assumption. }
  split; [reflexivity|].
  split; [cbn [files set_files]; apply lookup_insert_eq|].
  split; [reflexivity|].
  split; [exact Hfile|].
  split.
  { intros -> x y Hxy. reflexivity. }
  intros r' t Ht Hst Hdlg' Hfile'. apply sized_length in Hst.
  exists (set_cells file t). split; [|reflexivity].
  cbn [handle_event]. unfold key_up. rewrite Ht. cbn [negb].
  unfold load_state. rewrite Hdlg', Hfile'. cbn [mbind option_bind].
  now rewrite fread_cells by assumption.
Qed.

Lemma save_load_round_trip_witness :
  ∃ s1 file,
    handle_event (SDL_KEYUP SDLK_F3) save_current paused_corner = Some s1 ∧
    cells s1 = cells paused_corner ∧
    files s1 !! "corner.gol"%string = Some file ∧
    file = (if 1 =? 1 then cells paused_corner
            else previous_simul paused_corner) ∧
    Z.of_nat (length file) = GRID_WIDTH * GRID_HEIGHT ∧
    (1 = 1 → ∀ x y, in_grid x y = true →
       Z.odd (cell file (x + GRID_WIDTH * y)) = get (cells paused_corner) x y) ∧
    ∀ r' t, s_started t = false → sized (cells t) = true →
      open_dialog r' = Some "corner.gol"%string →
      files t !! "corner.gol"%string = Some file →
      ∃ t', handle_event (SDL_KEYUP SDLK_F4) r' t = Some t' ∧
            cells t' = file.
Proof.
  apply (save_load_round_trip save_current "corner.gol"%string 1
           paused_corner);
    vm_compute; reflexivity.
Defined.

(** ** The speed threshold *)

Lemma mouse_wheel_floor y m m' :
  1 ≤ m → mouse_wheel y m = Some m' → 1 ≤ m'.
Proof.
  unfold mouse_wheel, int_of, INT_MIN, INT_MAX. intros Hm.
  destruct (y <? 0).
  - destruct (_ && _); intros [= <-]. lia.
  - destruct (y >? 0); [|intros [= <-]; lia].
    destruct (_ && _); simpl; [|discriminate].
    destruct (Z.leb_spec (m - 1) 0); intros [= <-]; lia.
Qed.

Lemma mouse_wheel_defined y m :
  1 ≤ m < INT_MAX → ∃ m', mouse_wheel y m = Some m' ∧ m' ≤ m + 1.
Proof.
  unfold mouse_wheel, int_of, INT_MIN, INT_MAX. intros Hm.
  destruct (y <? 0).
  - exists (m + 1).
    destruct (Z.leb_spec (-2147483648) (m + 1)); [|lia].
    destruct (Z.leb_spec (m + 1) 2147483647); [|lia]. split; [reflexivity|lia].
  - destruct (y >? 0); [|exists m; split; [reflexivity|lia]].
    destruct (Z.leb_spec (-2147483648) (m - 1)); [|lia].
    destruct (Z.leb_spec (m - 1) 2147483647); [|lia]. simpl.
    destruct (Z.leb_spec (m - 1) 0); eexists; (split; [reflexivity|lia]).
Qed.

Lemma mouse_wheel_decrease y m :
  0 < y → 1 ≤ m ≤ INT_MAX →
  mouse_wheel y m = Some (Z.max 1 (m - 1)).
Proof.
  unfold mouse_wheel, int_of, INT_MIN, INT_MAX. intros Hy Hm.
  destruct (Z.ltb_spec y 0); [lia|].
  destruct (Z.gtb_spec y 0); [|lia].
  destruct (Z.leb_spec (-2147483648) (m - 1)); [|lia].
  destruct (Z.leb_spec (m - 1) 2147483647); [|lia]. simpl.
  destruct (Z.leb_spec (m - 1) 0); f_equal; lia.
Qed.

Lemma wheel_events_run ys r :
  ∀ s, 1 ≤ max_tick s →
  (∀ s', poll_events (wheel_events r ys) s = Some s' → 1 ≤ max_tick s') ∧
  (max_tick s + Z.of_nat (length ys) ≤ INT_MAX →
   is_Some (poll_events (wheel_events r ys) s)).
Proof.
  unfold poll_events, wheel_events.
  induction ys as [|y ys IH]; intros s Hs.
  - split; [intros s' [= <-]; exact Hs|]. intros _. now exists s.
  - rewrite fmap_cons. cbn [visit handle_event fst snd]. split.
    + intros s'. destruct (mouse_wheel y (max_tick s)) as [m|] eqn:Hm;
        [|discriminate].
      cbn [mbind option_bind]. apply IH. simpl.
      now apply (mouse_wheel_floor y (max_tick s)).
    + rewrite length_cons. intros Hlen.
      destruct (mouse_wheel_defined y (max_tick s)) as (m & Hm & Hm'); [lia|].
      rewrite Hm. cbn [mbind option_bind].
      apply IH; simpl; [|lia].
      exact (mouse_wheel_floor y (max_tick s) m Hs Hm).
Qed.

(** C8: from the initial threshold 1, after any sequence of scroll-wheel
    events the threshold is at least 1 (the handler is defined on every
    sequence too short to overflow [max_tick]); one decrease step takes the
    threshold m to max(1, m - 1). *)
Theorem speed_floor fs r ys :
  (∀ s, poll_events (wheel_events r ys) (initial_state fs) = Some s →
        1 ≤ max_tick s) ∧
  (Z.of_nat (length ys) < INT_MAX →
   is_Some (poll_events (wheel_events r ys) (initial_state fs))) ∧
  (∀ s y, 0 < y → 1 ≤ max_tick s ≤ INT_MAX →
     handle_event (SDL_MOUSEWHEEL y) r s
     = Some (set_max_tick (Z.max 1 (max_tick s - 1)) s)).
Proof.
  destruct (wheel_events_run ys r (initial_state fs)) as [Hfloor Hdef];
    [simpl; lia|].
  split; [exact Hfloor|]. split.
  - intros Hlen. apply Hdef. simpl. lia.
  - intros s y Hy Hm. simpl.
    now rewrite mouse_wheel_decrease by assumption.
Qed.

Lemma speed_floor_witness :
  ∃ s, poll_events (wheel_events no_answers [1; 1; -1; -1; 1; 1; 1])
         (initial_state ∅) = Some s ∧ 1 ≤ max_tick s.
Proof.
  destruct (proj1 (proj2 (speed_floor ∅ no_answers [1; 1; -1; -1; 1; 1; 1])))
    as [s Hs]; [vm_compute; reflexivity|].
  exists s. split; [exact Hs|].
  exact (proj1 (speed_floor ∅ no_answers [1; 1; -1; -1; 1; 1; 1]) s Hs).
Defined.

(** ** Grids in the committed format *)

Lemma committed_Forall a :
  committed a = true ↔ Forall (λ c, c = 0 ∨ c = 1) a.
Proof.
  unfold committed. rewrite forallb_forall, Forall_forall.
  split; intros H c Hc.
  - apply list_elem_of_In in Hc. specialize (H c Hc).
    now rewrite orb_true_iff, !Z.eqb_eq in H.
  - apply list_elem_of_In in Hc. specialize (H c Hc).
    now rewrite orb_true_iff, !Z.eqb_eq.
Qed.

Lemma committed_cells_init : committed cells_init = true.
Proof. apply committed_Forall, Forall_replicate. now left. Qed.

Lemma length_cells_init : Z.of_nat (length cells_init) = 36864.
Proof.
  unfold cells_init. rewrite length_replicate, sizeof_cells_eq. lia.
Qed.

Lemma committed_life_generation a : committed (life_generation a) = true.
Proof.
  apply committed_Forall, Forall_fmap, Forall_forall. intros i _.
  unfold life_cell. simpl. destruct (life_rule _ _); simpl; auto.
Qed.

Lemma committed_store a i v a' :
  v = 0 ∨ v = 1 → committed a = true → store a i v = Some a' →
  committed a' = true ∧ length a' = length a.
Proof.
  intros Hv Ha. unfold store. destruct (_ && _); [|discriminate].
  intros [= <-]. split; [|apply length_insert].
  apply committed_Forall, Forall_insert; [|exact Hv].
  now apply committed_Forall.
Qed.

Lemma cell_cells_init i : cell cells_init i = 0.
Proof.
  unfold cell, cells_init.
  destruct (replicate _ _ !! _) as [c|] eqn:Hc; [|reflexivity].
  apply lookup_replicate in Hc as [Hc _]. rewrite Hc. reflexivity.
Qed.

(** No spontaneous generation: the all-dead grid stays all dead. *)
Lemma generation_cells_init : generation cells_init = Some cells_init.
Proof.
  rewrite generation_life;
    [|apply sized_length, length_cells_init|apply committed_cells_init].
  apply (f_equal Some). apply cells_ext.
  - pose proof (length_life_generation cells_init).
    pose proof length_cells_init. lia.
  - rewrite length_life_generation. intros i Hi.
    rewrite cell_life_generation by assumption.
    assert (∀ p, live_at cells_init p = false) as Hlive.
    { intros p. unfold live_at, get. rewrite cell_cells_init.
      apply andb_false_r. }
    unfold life_cell, get, count_live_neighbors, moore. cbn [foldr].
    rewrite !Hlive, !cell_cells_init. reflexivity.
Qed.

(** ** The library calls on arrays of the size of the grid *)

Lemma memcpy_cells dst src :
  Z.of_nat (length dst) = 36864 → Z.of_nat (length src) = 36864 →
  memcpy dst src sizeof_cells = Some src.
Proof.
  intros Hd Hs. unfold memcpy. rewrite Hd, Hs, sizeof_cells_eq.
  change ((0 <=? 36864) && (36864 <=? 36864) && (36864 <=? 36864)) with true.
  cbv iota. now rewrite take_ge, drop_ge, app_nil_r by lia.
Qed.

Lemma clear_loop n :
  ∀ i a, 0 ≤ i → i + Z.of_nat n ≤ Z.of_nat (length a) →
  ∃ r, for_loop n i (λ i a, store a i 0) a = Some r ∧
       length r = length a ∧
       ∀ j, 0 ≤ j →
         cell r j = if (i <=? j) && (j <? i + Z.of_nat n) then 0
                    else cell a j.
Proof.
  induction n as [|n IH]; intros i a Hi Hn.
  - exists a. split; [reflexivity|]. split; [reflexivity|]. intros j Hj.
    destruct (Z.leb_spec i j), (Z.ltb_spec j (i + Z.of_nat 0));
      simpl; try reflexivity; lia.
  - cbn [for_loop]. rewrite store_in by lia. cbn [mbind option_bind].
    destruct (IH (i + 1) (<[Z.to_nat i := 0]> a)) as (r & Hr & Hlen & Hcell);
      [lia|rewrite length_insert; lia|].
    exists r. split; [exact Hr|].
    split; [now rewrite Hlen, length_insert|].
    intros j Hj. rewrite Hcell, cell_insert by lia.
    destruct (Z.leb_spec (i + 1) j), (Z.ltb_spec j (i + 1 + Z.of_nat n)),
      (Z.leb_spec i j), (Z.ltb_spec j (i + Z.of_nat (S n))),
      (Z.eq_dec i j); simpl; try reflexivity; lia.
Qed.

Lemma clear_cells_spec a :
  Z.of_nat (length a) = 36864 → clear_cells a = Some cells_init.
Proof.
  intros Ha. unfold clear_cells, for_range.
  destruct (clear_loop (Z.to_nat (GRID_WIDTH * GRID_HEIGHT - 0)) 0 a)
    as (r & -> & Hlen & Hcell);
    [lia|unfold GRID_WIDTH, GRID_HEIGHT; lia|].
  f_equal. apply cells_ext.
  - pose proof length_cells_init. lia.
  - intros j Hj. rewrite Hcell by lia.
    unfold GRID_WIDTH, GRID_HEIGHT.
    destruct (Z.leb_spec 0 j), (Z.ltb_spec j (0 + Z.of_nat (Z.to_nat (256 * 144 - 0))));
      simpl; try lia.
    unfold cell, cells_init.
    rewrite lookup_replicate_2 by (rewrite sizeof_cells_eq; lia).
    reflexivity.
Qed.

(** ** Which parts of the state each step of the loop touches *)

Lemma key_up_running sym r s :
  s_started s = true →
  key_up sym r s
  = Some (if sym is SDLK_F1 then set_s_started false s else s).
Proof.
  intros Hs. unfold key_up.
  destruct sym; cbn [s_started set_s_started]; rewrite Hs; reflexivity.
Qed.

Lemma handle_event_running ev r s s' :
  s_started s = true → handle_event ev r s = Some s' →
  cells s' = cells s.
Proof.
  intros Hs. destruct ev as [|sym|[]|[]|y|]; cbn [handle_event];
    try (intros [= <-]; reflexivity).
  - rewrite key_up_running by assumption.
    destruct sym; intros [= <-]; reflexivity.
  - destruct (mouse_wheel y (max_tick s)); cbn; [|discriminate].
    intros [= <-]. reflexivity.
Qed.

Lemma save_state_keeps r s s' :
  save_state r s = Some s' →
  cells s' = cells s ∧ previous_simul s' = previous_simul s ∧
  s_started s' = s_started s.
Proof.
  unfold save_state.
  destruct (message_box r) as [btn|]; [|intros [= <-]; auto].
  destruct (save_dialog r); [|intros [= <-]; auto].
  destruct (fopen_write r); [|discriminate].
  destruct (if btn =? 1 then _ else _); cbn; [|discriminate].
  intros [= <-]. auto.
Qed.

Lemma load_state_keeps r s s' :
  load_state r s = Some s' →
  previous_simul s' = previous_simul s ∧ s_started s' = s_started s.
Proof.
  unfold load_state.
  destruct (open_dialog r); [|intros [= <-]; auto].
  destruct (files s !! _); cbn; [|discriminate].
  destruct (fread _ _ _ _); cbn; [|discriminate].
  intros [= <-]. auto.
Qed.

(** Only a release of F1 writes [previous_simul] or [s_started]. *)
Lemma handle_event_snapshot ev r s s' :
  (if ev is SDL_KEYUP SDLK_F1 then false else true) = true →
  handle_event ev r s = Some s' →
  previous_simul s' = previous_simul s ∧ s_started s' = s_started s.
Proof.
  intros Hev. destruct ev as [|sym|[]|[]|y|]; cbn [handle_event];
    try (intros [= <-]; auto).
  - unfold key_up. destruct sym; try discriminate;
      destruct (s_started s) eqn:Hs; cbn [negb];
      try (intros [= <-]; now auto).
    + destruct (clear_cells (cells s)); cbn [mbind option_bind];
        [|discriminate].
      intros [= <-]. auto.
    + intros H. apply save_state_keeps in H as (_ & ? & ?).
      split; congruence.
    + intros H. apply load_state_keeps in H as [? ?]. split; congruence.
  - destruct (mouse_wheel y (max_tick s)); cbn; [|discriminate].
    intros [= <-]. auto.
Qed.

Lemma poll_events_snapshot evs :
  ∀ s s', no_toggle evs = true → poll_events evs s = Some s' →
  previous_simul s' = previous_simul s ∧ s_started s' = s_started s.
Proof.
  unfold poll_events, no_toggle.
  induction evs as [|[ev r] evs IH]; intros s s'.
  - intros _ [= <-]. auto.
  - cbn [forallb visit fst snd]. intros [Hev Hevs]%andb_true_iff.
    destruct (handle_event ev r s) as [s1|] eqn:H1; cbn; [|discriminate].
    intros H. apply IH in H; [|assumption].
    apply handle_event_snapshot in H1; [|assumption].
    destruct H, H1. split; congruence.
Qed.

Lemma poll_events_running evs :
  ∀ s s', s_started s = true → no_toggle evs = true →
  poll_events evs s = Some s' →
  cells s' = cells s ∧ s_started s' = true.
Proof.
  unfold poll_events, no_toggle.
  induction evs as [|[ev r] evs IH]; intros s s' Hs.
  - intros _ [= <-]. auto.
  - cbn [forallb visit fst snd]. intros [Hev Hevs]%andb_true_iff.
    destruct (handle_event ev r s) as [s1|] eqn:H1; cbn; [|discriminate].
    intros H.
    pose proof (handle_event_running _ _ _ _ Hs H1) as Hc.
    apply handle_event_snapshot in H1 as [_ Hr]; [|assumption].
    apply IH in H as [Hc' Hr']; [|congruence|assumption].
    split; congruence.
Qed.

Lemma edit_phase_running xy s :
  s_started s = true → edit_phase xy s = Some s.
Proof. intros Hs. unfold edit_phase. now rewrite Hs. Qed.

Lemma edit_phase_snapshot xy s s' :
  edit_phase xy s = Some s' →
  previous_simul s' = previous_simul s ∧ s_started s' = s_started s.
Proof.
  unfold edit_phase. destruct (s_started s) eqn:Hs; cbn [negb];
    [intros [= <-]; auto|].
  destruct (add_btn_down s); [|destruct (rem_btn_down s)];
    try (intros [= <-]; now auto);
    (destruct (mouse_index _ _); cbn; [|discriminate]);
    (destruct (store _ _ _); cbn; [|discriminate]);
    intros [= <-]; auto.
Qed.

Lemma update_phase_snapshot s s' :
  update_phase s = Some s' →
  previous_simul s' = previous_simul s ∧ s_started s' = s_started s.
Proof.
  unfold update_phase. destruct (s_started s) eqn:Hs; [|intros [= <-]; auto].
  destruct (tick s >? max_tick s); [|intros [= <-]; auto].
  destruct (generation _); cbn; [|discriminate]. intros [= <-]. auto.
Qed.

Lemma tick_phase_keeps s s' :
  tick_phase s = Some s' →
  cells s' = cells s ∧ previous_simul s' = previous_simul s ∧
  s_started s' = s_started s.
Proof.
  unfold tick_phase. destruct (int_of _); cbn; [|discriminate].
  intros [= <-]. auto.
Qed.

Lemma frame_phases inp s s' :
  frame inp s = Some s' →
  ∃ s1 s2 s3, poll_events (events inp) s = Some s1 ∧
              edit_phase (mouse inp) s1 = Some s2 ∧
              update_phase s2 = Some s3 ∧ tick_phase s3 = Some s'.
Proof.
  unfold frame.
  destruct (poll_events _ s) as [s1|] eqn:H1; cbn [mbind option_bind];
    [|discriminate].
  destruct (edit_phase _ s1) as [s2|] eqn:H2; cbn [mbind option_bind];
    [|discriminate].
  destruct (update_phase s2) as [s3|] eqn:H3; cbn [mbind option_bind];
    [|discriminate].
  intros H. now exists s1, s2, s3.
Qed.

Lemma frame_snapshot inp s s' :
  no_toggle (events inp) = true → frame inp s = Some s' →
  previous_simul s' = previous_simul s ∧ s_started s' = s_started s.
Proof.
  intros Hev (s1 & s2 & s3 & H1 & H2 & H3 & H4)%frame_phases.
  apply poll_events_snapshot in H1 as [? ?]; [|assumption].
  apply edit_phase_snapshot in H2 as [? ?].
  apply update_phase_snapshot in H3 as [? ?].
  apply tick_phase_keeps in H4 as (_ & ? & ?).
  split; congruence.
Qed.

Lemma main_loop_snapshot inputs :
  ∀ s s', forallb (λ inp, no_toggle (events inp)) inputs = true →
  main_loop inputs s = Some s' →
  previous_simul s' = previous_simul s ∧ s_started s' = s_started s.
Proof.
  induction inputs as [|inp inputs IH]; intros s s'.
  - intros _ [= <-]. auto.
  - cbn [forallb main_loop]. intros [Hinp Hrest]%andb_true_iff.
    destruct (quit s); [intros [= <-]; auto|].
    destruct (frame inp s) as [s1|] eqn:H1; cbn; [|discriminate].
    intros H. apply IH in H as [? ?]; [|assumption].
    apply frame_snapshot in H1 as [? ?]; [|assumption].
    split; congruence.
Qed.

(** ** The tick counter *)

Lemma tick_phase_in s :
  INT_MIN ≤ tick s + 1 ≤ INT_MAX →
  tick_phase s = Some (set_tick (tick s + 1) s).
Proof.
  intros Ht. unfold tick_phase, int_of.
  destruct (Z.leb_spec INT_MIN (tick s + 1)); [|lia].
  destruct (Z.leb_spec (tick s + 1) INT_MAX); [|lia]. reflexivity.
Qed.

Lemma update_phase_running s :
  s_started s = true → Z.of_nat (length (cells s)) = 36864 →
  ∃ u, update_phase s = Some u ∧
       if tick s >? max_tick s
       then generation (cells s) = Some (cells u) ∧
            u = set_tick 0 (set_cells (cells u) s)
       else u = s.
Proof.
  intros Hs Hlen. unfold update_phase. rewrite Hs.
  destruct (tick s >? max_tick s); [|now exists s].
  destruct (generation_spec (cells s) Hlen) as (c & Hc & _).
  rewrite Hc. cbn [mbind option_bind].
  exists (set_tick 0 (set_cells c s)). auto.
Qed.

(** C5: in a frame that reaches the update block with the simulation
    running, the generation advances exactly when [tick > max_tick]; in that
    case the block leaves the counter at 0, otherwise it leaves it alone; and
    the end of the frame adds one to the counter. *)
Theorem tick_gates_generation inp s s1 :
  poll_events (events inp) s = Some s1 →
  s_started s1 = true → sized (cells s1) = true →
  INT_MIN ≤ tick s1 < INT_MAX →
  ∃ u s', update_phase s1 = Some u ∧ tick_phase u = Some s' ∧
          frame inp s = Some s' ∧
          tick s' = tick u + 1 ∧ cells s' = cells u ∧
          if tick s1 >? max_tick s1
          then generation (cells s1) = Some (cells u) ∧ tick u = 0
          else cells u = cells s1 ∧ tick u = tick s1.
Proof.
  intros Hpoll Hs Hsz Ht. apply sized_length in Hsz.
  destruct (update_phase_running s1 Hs Hsz) as (u & Hu & Hcase).
  assert (INT_MIN ≤ tick u + 1 ≤ INT_MAX) as Htu.
  { destruct (tick s1 >? max_tick s1).
    - destruct Hcase as [_ ->]. unfold INT_MIN, INT_MAX. simpl. lia.
    - subst u. unfold INT_MIN, INT_MAX in *. lia. }
  exists u, (set_tick (tick u + 1) u).
  split; [exact Hu|]. split; [now apply tick_phase_in|].
  split.
  { unfold frame. rewrite Hpoll. cbn [mbind option_bind].
    rewrite edit_phase_running by assumption. cbn [mbind option_bind].
    rewrite Hu. cbn [mbind option_bind]. now apply tick_phase_in. }
  split; [reflexivity|]. split; [reflexivity|].
  destruct (tick s1 >? max_tick s1).
  - destruct Hcase as [Hg ->]. auto.
  - subst u. auto.
Qed.

Lemma tick_gates_generation_witness :
  ∃ u s', update_phase running_corner = Some u ∧ tick_phase u = Some s' ∧
          frame quiet running_corner = Some s' ∧
          tick s' = tick u + 1 ∧ cells s' = cells u ∧
          if tick running_corner >? max_tick running_corner
          then generation (cells running_corner) = Some (cells u) ∧ tick u = 0
          else cells u = cells running_corner ∧ tick u = tick running_corner.
Proof.
  apply (tick_gates_generation quiet running_corner running_corner);
    [reflexivity | reflexivity | vm_compute; reflexivity
    | vm_compute; intuition discriminate].
Defined.

(** ** Editing and running exclude each other *)

Lemma frame_running inp s s' :
  s_started s = true → no_toggle (events inp) = true →
  frame inp s = Some s' →
  s_started s' = true ∧
  (cells s' = cells s ∨ generation (cells s) = Some (cells s')).
Proof.
  intros Hs Hev (s1 & s2 & s3 & H1 & H2 & H3 & H4)%frame_phases.
  apply poll_events_running in H1 as [Hc1 Hr1]; [|assumption..].
  rewrite edit_phase_running in H2 by assumption. injection H2 as <-.
  apply tick_phase_keeps in H4 as (Hc4 & _ & Hr4).
  pose proof (update_phase_snapshot _ _ H3) as [_ Hr3].
  split; [congruence|].
  unfold update_phase in H3. rewrite Hr1 in H3.
  destruct (tick s1 >? max_tick s1).
  - destruct (generation (cells s1)) as [c|] eqn:Hg;
      cbn [mbind option_bind] in H3; [|discriminate].
    injection H3 as <-. right. rewrite Hc4, <- Hc1. exact Hg.
  - injection H3 as <-. left. congruence.
Qed.

(** C7: while [s_started] is set, the editing block (paint with the left
    button, erase with the right one) returns the state unchanged, a release
    of F2 returns the state unchanged, no event at all changes a cell, and a
    whole frame in which the program stays running leaves the cells either
    as they were or as the generation step makes them. *)
Theorem edits_rejected_while_running s :
  s_started s = true →
  (∀ xy, edit_phase xy s = Some s) ∧
  (∀ r, handle_event (SDL_KEYUP SDLK_F2) r s = Some s) ∧
  (∀ ev r s', handle_event ev r s = Some s' → cells s' = cells s) ∧
  (∀ inp s', no_toggle (events inp) = true → frame inp s = Some s' →
     cells s' = cells s ∨ generation (cells s) = Some (cells s')).
Proof.
  intros Hs. split; [intros xy; now apply edit_phase_running|].
  split; [intros r; cbn [handle_event]; now rewrite key_up_running|].
  split; [intros ev r s'; now apply handle_event_running|].
  intros inp s' Hev Hf. now apply (frame_running inp s s').
Qed.

Lemma edits_rejected_while_running_witness :
  (∀ xy, edit_phase xy running_painting = Some running_painting) ∧
  (∀ r, handle_event (SDL_KEYUP SDLK_F2) r running_painting
        = Some running_painting) ∧
  (∀ ev r s', handle_event ev r running_painting = Some s' →
     cells s' = cells running_painting) ∧
  (∀ inp s', no_toggle (events inp) = true →
     frame inp running_painting = Some s' →
     cells s' = cells running_painting
     ∨ generation (cells running_painting) = Some (cells s')).
Proof.
  apply (edits_rejected_while_running running_painting). reflexivity.
Defined.

(** ** The snapshot taken when the simulation starts *)

Lemma key_up_start r s :
  s_started s = false →
  Z.of_nat (length (cells s)) = 36864 →
  Z.of_nat (length (previous_simul s)) = 36864 →
  handle_event (SDL_KEYUP SDLK_F1) r s
  = Some (set_previous_simul (cells s) (set_s_started true s)).
Proof.
  intros Hs Hc Hp. cbn [handle_event key_up]. rewrite Hs.
  cbn [negb s_started set_s_started cells previous_simul].
  now rewrite memcpy_cells by assumption.
Qed.

(** C6: a release of F1 in a paused program copies [cells] into
    [previous_simul] and sets [s_started]; and whatever the rest of that
    frame and the following frames do, as long as F1 is not released again,
    the program is still running and [previous_simul] is still the grid as
    it was when F1 was released. *)
Theorem start_snapshot r rest xy inputs s s2 :
  quit s = false → s_started s = false →
  sized (cells s) = true → sized (previous_simul s) = true →
  no_toggle rest = true →
  forallb (λ inp, no_toggle (events inp)) inputs = true →
  main_loop (Input ((SDL_KEYUP SDLK_F1, r) :: rest) xy :: inputs) s
  = Some s2 →
  handle_event (SDL_KEYUP SDLK_F1) r s
  = Some (set_previous_simul (cells s) (set_s_started true s)) ∧
  previous_simul s2 = cells s ∧ s_started s2 = true.
Proof.
  intros Hq Hs Hc Hp Hrest Hinputs Hrun.
  apply sized_length in Hc, Hp.
  pose proof (key_up_start r s Hs Hc Hp) as Hstart.
  split; [exact Hstart|].
  cbn [main_loop] in Hrun. rewrite Hq in Hrun.
  destruct (frame _ s) as [s1|] eqn:Hframe;
    cbn [mbind option_bind] in Hrun; [|discriminate].
  apply main_loop_snapshot in Hrun as [Hp2 Hr2]; [|assumption].
  apply frame_phases in Hframe as (t1 & t2 & t3 & H1 & H2 & H3 & H4).
  unfold poll_events in H1. cbn [events visit fst snd] in H1.
  rewrite Hstart in H1. cbn [mbind option_bind] in H1.
  apply (poll_events_snapshot rest) in H1 as [? ?]; [|assumption].
  apply edit_phase_snapshot in H2 as [? ?].
  apply update_phase_snapshot in H3 as [? ?].
  apply tick_phase_keeps in H4 as (_ & ? & ?).
  cbn [previous_simul s_started set_previous_simul set_s_started] in *.
  split; congruence.
Qed.

(** Frames computed symbolically (a generation of a concrete grid is too
    large to evaluate). *)
Lemma main_loop_cons inp rest s :
  quit s = false →
  main_loop (inp :: rest) s = frame inp s ≫= main_loop rest.
Proof. intros Hq. cbn [main_loop]. now rewrite Hq. Qed.

Lemma frame_cons ev r evs xy s :
  frame (Input ((ev, r) :: evs) xy) s
  = handle_event ev r s ≫= frame (Input evs xy).
Proof.
  unfold frame, poll_events. cbn [events visit fst snd].
  now destruct (handle_event ev r s).
Qed.

Lemma frame_quiet_running xy s :
  s_started s = true → sized (cells s) = true →
  committed (cells s) = true → INT_MIN ≤ tick s < INT_MAX →
  frame (Input [] xy) s
  = Some (if tick s >? max_tick s
          then set_tick 1 (set_cells (life_generation (cells s)) s)
          else set_tick (tick s + 1) s).
Proof.
  intros Hs Hsz Hc Ht. unfold frame, poll_events.
  cbn [events visit mouse mbind option_bind].
  rewrite edit_phase_running by assumption. cbn [mbind option_bind].
  unfold update_phase. rewrite Hs.
  destruct (tick s >? max_tick s).
  - rewrite (generation_life _ Hsz Hc). cbn [mbind option_bind].
    rewrite tick_phase_in by (unfold INT_MIN, INT_MAX; simpl; lia).
    reflexivity.
  - cbn [mbind option_bind]. apply tick_phase_in.
    unfold INT_MIN, INT_MAX in *. lia.
Qed.

(** How often the generation advances: after a frame that advanced, the
    counter is 1; the next [max_tick] frames leave the grid alone, and the
    frame after them advances again. *)
Lemma quiet_frames_wait k :
  ∀ s, s_started s = true → quit s = false →
  sized (cells s) = true → committed (cells s) = true →
  INT_MIN ≤ tick s → tick s + Z.of_nat k ≤ max_tick s + 1 →
  max_tick s < INT_MAX →
  ∃ s', main_loop (replicate k quiet) s = Some s' ∧
        cells s' = cells s ∧ tick s' = tick s + Z.of_nat k ∧
        max_tick s' = max_tick s ∧ s_started s' = true ∧ quit s' = false.
Proof.
  induction k as [|k IH]; intros s Hs Hq Hsz Hc Hlo Hhi Hmax.
  - exists s. cbn [replicate main_loop]. repeat split; auto. lia.
  - cbn [replicate]. rewrite main_loop_cons by assumption.
    change (frame quiet s) with (frame (Input [] (0, 0)) s).
    rewrite frame_quiet_running by (auto; lia).
    destruct (Z.gtb_spec (tick s) (max_tick s)); [lia|].
    cbn [mbind option_bind].
    destruct (IH (set_tick (tick s + 1) s)) as (s' & Hrun & ? & Ht & ? & ? & ?);
      auto; cbn [tick max_tick set_tick]; try lia.
    exists s'. split; [exact Hrun|].
    cbn [tick set_tick cells max_tick] in *. repeat split; auto. lia.
Qed.

Lemma generation_period s :
  s_started s = true → quit s = false →
  sized (cells s) = true → committed (cells s) = true →
  tick s = 1 → 1 ≤ max_tick s < INT_MAX - 1 →
  ∃ s1 s2,
    main_loop (replicate (Z.to_nat (max_tick s)) quiet) s = Some s1 ∧
    cells s1 = cells s ∧
    frame quiet s1 = Some s2 ∧
    generation (cells s) = Some (cells s2) ∧ tick s2 = 1.
Proof.
  intros Hs Hq Hsz Hc Ht Hm.
  destruct (quiet_frames_wait (Z.to_nat (max_tick s)) s)
    as (s1 & Hrun & Hc1 & Ht1 & Hm1 & Hs1 & Hq1); auto;
    try (unfold INT_MIN, INT_MAX in *; lia).
  exists s1. change (frame quiet s1) with (frame (Input [] (0, 0)) s1).
  rewrite frame_quiet_running; auto; try congruence;
    [|unfold INT_MIN, INT_MAX in *; lia].
  destruct (Z.gtb_spec (tick s1) (max_tick s1)); [|lia].
  eexists. split; [exact Hrun|]. split; [exact Hc1|].
  split; [reflexivity|]. cbn [cells tick set_tick set_cells].
  split; [|reflexivity]. rewrite Hc1.
  now apply generation_life.
Qed.

Ltac reduce_test :=
  match goal with
  | |- context [if ?b then _ else _] =>
      let v := eval vm_compute in b in change b with v; cbv iota
  end.

Lemma start_snapshot_witness :
  ∃ s2, main_loop [press_start; quiet; quiet] paused_corner = Some s2 ∧
    generation corner_block = Some (cells s2) ∧
    handle_event (SDL_KEYUP SDLK_F1) no_answers paused_corner
    = Some (set_previous_simul (cells paused_corner)
              (set_s_started true paused_corner)) ∧
    previous_simul s2 = cells paused_corner ∧ s_started s2 = true.
Proof.
  assert (∃ s2, main_loop [press_start; quiet; quiet] paused_corner = Some s2
                ∧ generation corner_block = Some (cells s2))
    as (s2 & Hrun & Hgen).
  { eexists. split.
    - unfold press_start, quiet.
      rewrite main_loop_cons, frame_cons by reflexivity.
      rewrite key_up_start by (vm_compute; reflexivity).
      cbn [mbind option_bind].
      do 3 (rewrite frame_quiet_running
              by first [reflexivity | vm_compute; reflexivity
                       | vm_compute; intuition discriminate];
            reduce_test; cbn [mbind option_bind];
            try rewrite main_loop_cons by reflexivity).
      reflexivity.
    - rewrite (generation_life corner_block
                 ltac:(vm_compute; reflexivity)
                 ltac:(vm_compute; reflexivity)).
      symmetry. reflexivity. }
  exists s2. split; [exact Hrun|]. split; [exact Hgen|].
  apply (start_snapshot no_answers [] (0, 0) [quiet; quiet] paused_corner s2);
    first [exact Hrun | vm_compute; reflexivity].
Defined.

(** ** The committed format is an invariant of everything but loading *)

Lemma key_up_committed sym r s s' :
  (if sym is SDLK_F4 then false else true) = true →
  sized (cells s) = true → committed (cells s) = true →
  key_up sym r s = Some s' →
  sized (cells s') = true ∧ committed (cells s') = true.
Proof.
  intros Hsym Hsz Hc. unfold key_up.
  destruct sym; try discriminate.
  - cbn [s_started set_s_started cells previous_simul].
    destruct (negb (s_started s)); [|intros [= <-]; auto].
    destruct (memcpy _ _ _); cbn [mbind option_bind]; [|discriminate].
    intros [= <-]. auto.
  - destruct (negb (s_started s)); [|intros [= <-]; auto].
    rewrite clear_cells_spec by now apply sized_length.
    cbn [mbind option_bind]. intros [= <-]. cbn [cells set_cells].
    split; [apply sized_length, length_cells_init|apply committed_cells_init].
  - destruct (negb (s_started s)); [|intros [= <-]; auto].
    intros H. apply save_state_keeps in H as (-> & _). auto.
  - destruct (negb (s_started s)); intros [= <-]; auto.
  - destruct (negb (s_started s)); intros [= <-]; auto.
Qed.

Lemma handle_event_committed ev r s s' :
  (if ev is SDL_KEYUP SDLK_F4 then false else true) = true →
  sized (cells s) = true → committed (cells s) = true →
  handle_event ev r s = Some s' →
  sized (cells s') = true ∧ committed (cells s') = true.
Proof.
  intros Hev Hsz Hc. destruct ev as [|sym|[]|[]|y|]; cbn [handle_event];
    try (intros [= <-]; now auto).
  - apply key_up_committed; auto.
  - destruct (mouse_wheel y (max_tick s)); cbn [mbind option_bind];
      [|discriminate].
    intros [= <-]. auto.
Qed.

Lemma poll_events_committed evs :
  ∀ s s', no_load evs = true →
  sized (cells s) = true → committed (cells s) = true →
  poll_events evs s = Some s' →
  sized (cells s') = true ∧ committed (cells s') = true.
Proof.
  unfold poll_events, no_load.
  induction evs as [|[ev r] evs IH]; intros s s'.
  - intros _ ? ? [= <-]. auto.
  - cbn [forallb visit fst snd]. intros [Hev Hevs]%andb_true_iff Hsz Hc.
    destruct (handle_event ev r s) as [s1|] eqn:H1; cbn [mbind option_bind];
      [|discriminate].
    apply handle_event_committed in H1 as [? ?]; auto.
    intros Hrest'. apply (IH s1 s'); assumption.
Qed.

Lemma edit_phase_committed xy s s' :
  sized (cells s) = true → committed (cells s) = true →
  edit_phase xy s = Some s' →
  sized (cells s') = true ∧ committed (cells s') = true.
Proof.
  intros Hsz Hc. unfold edit_phase.
  destruct (negb (s_started s)); [|intros [= <-]; auto].
  destruct (add_btn_down s); [|destruct (rem_btn_down s)];
    try (intros [= <-]; now auto);
    (destruct (mouse_index _ _) as [i|]; cbn [mbind option_bind];
       [|discriminate]);
    (destruct (store _ _ _) as [a|] eqn:Hst; cbn [mbind option_bind];
       [|discriminate]);
    intros [= <-]; cbn [cells set_cells];
    (apply committed_store in Hst as [Hc' Hlen]; [|unfold CELL_ALIVE; auto|auto]);
    (split; [|exact Hc']);
    apply sized_length; apply sized_length in Hsz; lia.
Qed.

Lemma update_phase_committed s s' :
  sized (cells s) = true → committed (cells s) = true →
  update_phase s = Some s' →
  sized (cells s') = true ∧ committed (cells s') = true.
Proof.
  intros Hsz Hc. unfold update_phase.
  destruct (s_started s); [|intros [= <-]; auto].
  destruct (tick s >? max_tick s); [|intros [= <-]; auto].
  rewrite (generation_life _ Hsz Hc). cbn [mbind option_bind].
  intros [= <-]. cbn [cells set_cells set_tick].
  split; [apply sized_length, length_life_generation
         |apply committed_life_generation].
Qed.

Lemma frame_committed inp s s' :
  no_load (events inp) = true →
  sized (cells s) = true → committed (cells s) = true →
  frame inp s = Some s' →
  sized (cells s') = true ∧ committed (cells s') = true.
Proof.
  intros Hev Hsz Hc (s1 & s2 & s3 & H1 & H2 & H3 & H4)%frame_phases.
  apply poll_events_committed in H1 as [? ?]; auto.
  apply edit_phase_committed in H2 as [? ?]; auto.
  apply update_phase_committed in H3 as [? ?]; auto.
  apply tick_phase_keeps in H4 as (-> & _). auto.
Qed.

Lemma main_loop_committed inputs :
  ∀ s s', forallb (λ inp, no_load (events inp)) inputs = true →
  sized (cells s) = true → committed (cells s) = true →
  main_loop inputs s = Some s' →
  sized (cells s') = true ∧ committed (cells s') = true.
Proof.
  induction inputs as [|inp inputs IH]; intros s s'.
  - intros _ ? ? [= <-]. auto.
  - cbn [forallb main_loop]. intros [Hinp Hrest]%andb_true_iff Hsz Hc.
    destruct (quit s); [intros [= <-]; auto|].
    destruct (frame inp s) as [s1|] eqn:H1; cbn [mbind option_bind];
      [|discriminate].
    apply frame_committed in H1 as [? ?]; auto.
    intros Hrest'. apply (IH s1 s'); assumption.
Qed.

(** A click inside the window paints (or erases) a cell of the grid: the
    index computed from the mouse position is inside the array. *)
Lemma mouse_index_in_window x y :
  0 ≤ x < WINDOW_WIDTH → 0 ≤ y < WINDOW_HEIGHT →
  mouse_index (x ÷ PIXEL_SIZE) (y ÷ PIXEL_SIZE)
  = Some (x ÷ PIXEL_SIZE + GRID_WIDTH * (y ÷ PIXEL_SIZE)) ∧
  in_grid (x ÷ PIXEL_SIZE) (y ÷ PIXEL_SIZE) = true.
Proof.
  unfold WINDOW_WIDTH, WINDOW_HEIGHT, PIXEL_SIZE. intros Hx Hy.
  rewrite !Z.quot_div_nonneg by lia.
  assert (0 ≤ x / 5 < 256) by (split; [apply Z.div_pos|apply Z.div_lt_upper_bound]; lia).
  assert (0 ≤ y / 5 < 144) by (split; [apply Z.div_pos|apply Z.div_lt_upper_bound]; lia).
  split; [|apply in_grid_iff; lia].
  unfold mouse_index, int_of, INT_MIN, INT_MAX, GRID_WIDTH.
  destruct (Z.leb_spec (-2147483648) (256 * (y / 5))); [|lia].
  destruct (Z.leb_spec (256 * (y / 5)) 2147483647); [|lia].
  cbn [andb mbind option_bind].
  destruct (Z.leb_spec (-2147483648) (x / 5 + 256 * (y / 5))); [|lia].
  destruct (Z.leb_spec (x / 5 + 256 * (y / 5)) 2147483647); [|lia].
  reflexivity.
Qed.

Lemma edit_phase_in_window x y s :
  s_started s = false → sized (cells s) = true →
  0 ≤ x < WINDOW_WIDTH → 0 ≤ y < WINDOW_HEIGHT →
  edit_phase (x, y) s
  = Some (if add_btn_down s
          then set_cells (<[Z.to_nat (x ÷ PIXEL_SIZE
                                      + GRID_WIDTH * (y ÷ PIXEL_SIZE))
                            := CELL_ALIVE]> (cells s)) s
          else if rem_btn_down s
          then set_cells (<[Z.to_nat (x ÷ PIXEL_SIZE
                                      + GRID_WIDTH * (y ÷ PIXEL_SIZE))
                            := 0]> (cells s)) s
          else s).
Proof.
  intros Hs Hsz Hx Hy. apply sized_length in Hsz.
  destruct (mouse_index_in_window x y Hx Hy) as [Hidx Hin].
  apply in_grid_index in Hin.
  unfold edit_phase. rewrite Hs. cbn [negb fst snd].
  destruct (add_btn_down s); [|destruct (rem_btn_down s)];
    [| |reflexivity];
    rewrite Hidx; cbn [mbind option_bind];
    rewrite store_in by lia; reflexivity.
Qed.

Lemma frame_quiet_paused x y s :
  s_started s = false → sized (cells s) = true →
  0 ≤ x < WINDOW_WIDTH → 0 ≤ y < WINDOW_HEIGHT →
  INT_MIN ≤ tick s < INT_MAX →
  frame (Input [] (x, y)) s
  = Some (set_tick (tick s + 1)
            (if add_btn_down s
             then set_cells (<[Z.to_nat (x ÷ PIXEL_SIZE
                                         + GRID_WIDTH * (y ÷ PIXEL_SIZE))
                               := CELL_ALIVE]> (cells s)) s
             else if rem_btn_down s
             then set_cells (<[Z.to_nat (x ÷ PIXEL_SIZE
                                         + GRID_WIDTH * (y ÷ PIXEL_SIZE))
                               := 0]> (cells s)) s
             else s)).
Proof.
  intros Hs Hsz Hx Hy Ht. unfold frame, poll_events.
  cbn [events visit mouse mbind option_bind].
  rewrite edit_phase_in_window by assumption. cbn [mbind option_bind].
  assert (∀ u, s_started u = false → tick u = tick s →
            update_phase u ≫= tick_phase = Some (set_tick (tick s + 1) u))
    as Hrest.
  { intros u Hu Htu. unfold update_phase. rewrite Hu.
    cbn [mbind option_bind]. rewrite tick_phase_in; rewrite Htu;
      [reflexivity|unfold INT_MIN, INT_MAX in *; lia]. }
  destruct (add_btn_down s); [|destruct (rem_btn_down s)];
    now apply Hrest.
Qed.

(** What the editing block and the F2 loop store. *)
Lemma edit_phase_writes x y s :
  s_started s = false → sized (cells s) = true →
  0 ≤ x < WINDOW_WIDTH → 0 ≤ y < WINDOW_HEIGHT →
  add_btn_down s || rem_btn_down s = true →
  ∃ a, edit_phase (x, y) s = Some (set_cells a s) ∧ sized a = true ∧
    cell a (x / PIXEL_SIZE + GRID_WIDTH * (y / PIXEL_SIZE))
    = (if add_btn_down s then 1 else 0) ∧
    ∀ i, 0 ≤ i < GRID_WIDTH * GRID_HEIGHT →
      i ≠ x / PIXEL_SIZE + GRID_WIDTH * (y / PIXEL_SIZE) →
      cell a i = cell (cells s) i.
Proof.
  intros Hp Hs Hx Hy Hbtn.
  rewrite edit_phase_in_window by assumption.
  destruct (mouse_index_in_window x y Hx Hy) as [_ Hin].
  apply sized_length in Hs.
  assert (x ÷ PIXEL_SIZE = x / PIXEL_SIZE) as Hqx
    by (unfold WINDOW_WIDTH, PIXEL_SIZE in *; apply Z.quot_div_nonneg; lia).
  assert (y ÷ PIXEL_SIZE = y / PIXEL_SIZE) as Hqy
    by (unfold WINDOW_HEIGHT, PIXEL_SIZE in *; apply Z.quot_div_nonneg; lia).
  rewrite Hqx, Hqy in *.
  pose proof (in_grid_index _ _ Hin) as Hidx.
  exists (<[Z.to_nat (x / PIXEL_SIZE + GRID_WIDTH * (y / PIXEL_SIZE))
            := if add_btn_down s then 1 else 0]> (cells s)).
  split.
  { destruct (add_btn_down s); [reflexivity|].
    cbn [orb] in Hbtn. now rewrite Hbtn. }
  split; [apply sized_length; now rewrite length_insert|].
  split.
  - rewrite cell_insert by lia. now destruct (Z.eq_dec _ _).
  - intros i Hi Hne. rewrite cell_insert by lia.
    destruct (Z.eq_dec _ i); [congruence|reflexivity].
Qed.

Lemma key_up_clear r s :
  s_started s = false → sized (cells s) = true →
  ∃ a, handle_event (SDL_KEYUP SDLK_F2) r s = Some (set_cells a s) ∧
    sized a = true ∧ ∀ i, 0 ≤ i < GRID_WIDTH * GRID_HEIGHT → cell a i = 0.
Proof.
  intros Hp Hs. exists cells_init. split; [|split].
  - cbn [handle_event]. unfold key_up. rewrite Hp. cbn [negb].
    rewrite clear_cells_spec by now apply sized_length.
    reflexivity.
  - apply sized_length, length_cells_init.
  - intros i _. apply cell_cells_init.
Qed.

Lemma committed_no_pending a i :
  committed a = true →
  flag (cell a i) CELL_REVIVE = false ∧ flag (cell a i) CELL_DIE = false.
Proof.
  intros Ha%committed_Forall. unfold cell.
  destruct (a !! Z.to_nat i) as [c|] eqn:Hc; cbn [default];
    [|split; reflexivity].
  rewrite Forall_lookup in Ha.
  destruct (Ha _ _ Hc) as [-> | ->]; split; reflexivity.
Qed.

(** C10: from the zero-initialised grid, a run of the window loop in which
    no F4 is released (so nothing is loaded) keeps every byte of [cells]
    equal to 0 or 1, whatever is painted, erased, cleared or stepped, so no
    cell carries a pending bit after a frame.  Painting stores exactly 1 in
    the cell under the mouse and erasing stores 0 there, every other cell
    keeping its byte; F2 stores 0 in every cell; the update pass turns a
    byte with the REVIVE bit into 1, a byte with only the DIE bit into 0 and
    leaves the others alone; and loading a file can bring in bytes that are
    neither 0 nor 1. *)
Theorem cells_stay_committed :
  (∀ fs inputs s,
     forallb (λ inp, no_load (events inp)) inputs = true →
     main_loop inputs (initial_state fs) = Some s →
     committed (cells s) = true ∧
     ∀ i, flag (cell (cells s) i) CELL_REVIVE = false ∧
          flag (cell (cells s) i) CELL_DIE = false) ∧
  (∀ x y s,
     s_started s = false → sized (cells s) = true →
     0 ≤ x < WINDOW_WIDTH → 0 ≤ y < WINDOW_HEIGHT →
     add_btn_down s || rem_btn_down s = true →
     ∃ a, edit_phase (x, y) s = Some (set_cells a s) ∧ sized a = true ∧
       cell a (x / PIXEL_SIZE + GRID_WIDTH * (y / PIXEL_SIZE))
       = (if add_btn_down s then 1 else 0) ∧
       ∀ i, 0 ≤ i < GRID_WIDTH * GRID_HEIGHT →
         i ≠ x / PIXEL_SIZE + GRID_WIDTH * (y / PIXEL_SIZE) →
         cell a i = cell (cells s) i) ∧
  (∀ r s,
     s_started s = false → sized (cells s) = true →
     ∃ a, handle_event (SDL_KEYUP SDLK_F2) r s = Some (set_cells a s) ∧
       sized a = true ∧
       ∀ i, 0 ≤ i < GRID_WIDTH * GRID_HEIGHT → cell a i = 0) ∧
  (∀ b, sized b = true →
     ∃ c, commit_pass b = Some c ∧
       ∀ i, 0 ≤ i < GRID_WIDTH * GRID_HEIGHT →
         cell c i = if flag (cell b i) CELL_REVIVE then 1
                    else if flag (cell b i) CELL_DIE then 0
                    else cell b i) ∧
  (∃ s, handle_event (SDL_KEYUP SDLK_F4) open_foreign
          (initial_state {[ "foreign.gol"%string := foreign_file ]}) = Some s
        ∧ committed (cells s) = false).
Proof.
  split; [|split; [|split; [|split]]].
  - intros fs inputs s Hin Hrun.
    assert (committed (cells s) = true) as Hc.
    { apply (main_loop_committed inputs (initial_state fs) s Hin).
      + apply sized_length, length_cells_init.
      + apply committed_cells_init.
      + exact Hrun. }
    split; [exact Hc|]. intros i. now apply committed_no_pending.
  - exact edit_phase_writes.
  - exact key_up_clear.
  - intros b Hb. apply sized_length in Hb.
    destruct (commit_pass_spec b Hb) as (c & Hc & _ & Hcells).
    exists c. split; [exact Hc|]. exact Hcells.
  - exists (set_cells foreign_file
              (initial_state {[ "foreign.gol"%string := foreign_file ]})).
    split; [|vm_compute; reflexivity].
    cbn [handle_event key_up initial_state s_started negb load_state
         open_foreign open_dialog files cells].
    rewrite lookup_singleton_eq. cbn [mbind option_bind].
    rewrite fread_cells; [reflexivity|apply length_cells_init|].
    unfold foreign_file. rewrite length_replicate, sizeof_cells_eq. lia.
Qed.

Lemma cells_stay_committed_witness :
  (∃ s, main_loop [press_left; swap_buttons; press_start] (initial_state ∅)
        = Some s ∧ committed (cells s) = true ∧
        ∀ i, flag (cell (cells s) i) CELL_REVIVE = false ∧
             flag (cell (cells s) i) CELL_DIE = false) ∧
  (∃ a, edit_phase (52, 51) painting = Some (set_cells a painting) ∧
        sized a = true ∧
        cell a (52 / PIXEL_SIZE + GRID_WIDTH * (51 / PIXEL_SIZE))
        = (if add_btn_down painting then 1 else 0) ∧
        ∀ i, 0 ≤ i < GRID_WIDTH * GRID_HEIGHT →
          i ≠ 52 / PIXEL_SIZE + GRID_WIDTH * (51 / PIXEL_SIZE) →
          cell a i = cell (cells painting) i) ∧
  (∃ a, handle_event (SDL_KEYUP SDLK_F2) no_answers paused_corner
        = Some (set_cells a paused_corner) ∧
        sized a = true ∧
        ∀ i, 0 ≤ i < GRID_WIDTH * GRID_HEIGHT → cell a i = 0) ∧
  (∃ c, commit_pass corner_block = Some c ∧
        ∀ i, 0 ≤ i < GRID_WIDTH * GRID_HEIGHT →
          cell c i = if flag (cell corner_block i) CELL_REVIVE then 1
                     else if flag (cell corner_block i) CELL_DIE then 0
                     else cell corner_block i).
Proof.
  assert (∃ s, main_loop [press_left; swap_buttons; press_start]
                 (initial_state ∅) = Some s) as [s Hrun].
  { eexists. unfold press_left, swap_buttons, press_start.
    rewrite main_loop_cons, frame_cons by reflexivity.
    cbn [handle_event mbind option_bind].
    rewrite frame_quiet_paused
      by first [reflexivity | vm_compute; reflexivity
               | vm_compute; intuition discriminate].
    reduce_test. cbn [mbind option_bind].
    rewrite main_loop_cons by reflexivity.
    do 2 (rewrite frame_cons; cbn [handle_event mbind option_bind]).
    rewrite frame_quiet_paused
      by first [reflexivity | vm_compute; reflexivity
               | vm_compute; intuition discriminate].
    do 2 reduce_test. cbn [mbind option_bind].
    rewrite main_loop_cons, frame_cons by reflexivity.
    rewrite key_up_start by (vm_compute; reflexivity).
    cbn [mbind option_bind].
    rewrite frame_quiet_running
      by first [reflexivity | vm_compute; reflexivity
               | vm_compute; intuition discriminate].
    reduce_test. cbn [mbind option_bind main_loop]. reflexivity. }
  destruct cells_stay_committed as (Hinv & Hedit & Hclear & Hcommit & _).
  split; [|split; [|split]].
  - exists s. split; [exact Hrun|].
    apply (Hinv ∅ [press_left; swap_buttons; press_start] s);
      [vm_compute; reflexivity | exact Hrun].
  - apply (Hedit 52 51 painting);
      first [reflexivity | vm_compute; reflexivity
            | vm_compute; intuition discriminate].
  - apply (Hclear no_answers paused_corner);
      [reflexivity | vm_compute; reflexivity].
  - apply (Hcommit corner_block). vm_compute. reflexivity.
Defined.

(** ** The blinker *)

Lemma with_alive_spec ps :
  Forall (λ p, in_grid p.1 p.2 = true) ps →
  Z.of_nat (length (with_alive ps cells_init)) = 36864 ∧
  committed (with_alive ps cells_init) = true ∧
  ∀ i, 0 ≤ i < 36864 →
    cell (with_alive ps cells_init) i
    = Z.b2z (bool_decide (i ∈ index_of <$> ps)).
Proof.
  induction ps as [|p ps IH]; intros Hps.
  - split; [apply length_cells_init|]. split; [apply committed_cells_init|].
    intros i Hi. unfold with_alive, cell, cells_init. cbn [foldr].
    rewrite lookup_replicate_2 by (rewrite sizeof_cells_eq; lia).
    reflexivity.
  - apply Forall_cons in Hps as [Hp Hps].
    destruct (IH Hps) as (Hlen & Hc & Hcell).
    pose proof (in_grid_index _ _ Hp) as Hidx.
    change (with_alive (p :: ps) cells_init)
      with (<[Z.to_nat (index_of p) := CELL_ALIVE]>
              (with_alive ps cells_init)).
    split; [now rewrite length_insert|]. split.
    + apply committed_Forall, Forall_insert; [now apply committed_Forall|].
      now right.
    + intros i Hi. unfold index_of at 1. rewrite cell_insert by lia.
      rewrite fmap_cons. fold (index_of p).
      destruct (Z.eq_dec (index_of p) i) as [<-|Hne].
      * rewrite bool_decide_eq_true_2 by (apply elem_of_cons; auto).
        reflexivity.
      * rewrite Hcell by assumption. f_equal.
        apply bool_decide_ext. rewrite elem_of_cons. intuition congruence.
Qed.

Section blinker.
Variables x y : Z.
Hypothesis Hx : 1 ≤ x < GRID_WIDTH - 1.
Hypothesis Hy : 1 ≤ y < GRID_HEIGHT - 1.

Lemma blinker_h_in_grid :
  Forall (λ p, in_grid p.1 p.2 = true) [(x - 1, y); (x, y); (x + 1, y)].
Proof.
  unfold GRID_WIDTH, GRID_HEIGHT in *.
  repeat constructor; apply in_grid_iff; simpl; lia.
Qed.

Lemma blinker_v_in_grid :
  Forall (λ p, in_grid p.1 p.2 = true) [(x, y - 1); (x, y); (x, y + 1)].
Proof.
  unfold GRID_WIDTH, GRID_HEIGHT in *.
  repeat constructor; apply in_grid_iff; simpl; lia.
Qed.

Lemma cell_blinker_h a b :
  in_grid a b = true →
  cell (blinker_h x y) (a + GRID_WIDTH * b) = Z.b2z (on_row x y a b).
Proof.
  intros Hab. pose proof (in_grid_index a b Hab) as Hi.
  apply in_grid_iff in Hab.
  destruct (with_alive_spec _ blinker_h_in_grid) as (_ & _ & Hcell).
  unfold blinker_h. rewrite Hcell by assumption. f_equal.
  unfold GRID_WIDTH, GRID_HEIGHT in *.
  destruct (on_row x y a b) eqn:E; unfold on_row in E;
    [apply bool_decide_eq_true|apply bool_decide_eq_false];
    rewrite !fmap_cons, !elem_of_cons, fmap_nil, elem_of_nil;
    unfold index_of, GRID_WIDTH; cbn [fst snd].
  - rewrite !andb_true_iff, Z.eqb_eq, !Z.leb_le in E. lia.
  - rewrite !andb_false_iff, Z.eqb_neq, !Z.leb_gt in E. lia.
Qed.

Lemma cell_blinker_v a b :
  in_grid a b = true →
  cell (blinker_v x y) (a + GRID_WIDTH * b) = Z.b2z (on_column x y a b).
Proof.
  intros Hab. pose proof (in_grid_index a b Hab) as Hi.
  apply in_grid_iff in Hab.
  destruct (with_alive_spec _ blinker_v_in_grid) as (_ & _ & Hcell).
  unfold blinker_v. rewrite Hcell by assumption. f_equal.
  unfold GRID_WIDTH, GRID_HEIGHT in *.
  destruct (on_column x y a b) eqn:E; unfold on_column in E;
    [apply bool_decide_eq_true|apply bool_decide_eq_false];
    rewrite !fmap_cons, !elem_of_cons, fmap_nil, elem_of_nil;
    unfold index_of, GRID_WIDTH; cbn [fst snd].
  - rewrite !andb_true_iff, Z.eqb_eq, !Z.leb_le in E. lia.
  - rewrite !andb_false_iff, Z.eqb_neq, !Z.leb_gt in E. lia.
Qed.

Lemma live_at_blinker_h p :
  live_at (blinker_h x y) p = on_row x y p.1 p.2.
Proof.
  unfold live_at, get. destruct (in_grid p.1 p.2) eqn:Hp.
  - rewrite cell_blinker_h by assumption. cbn [andb].
    now destruct (on_row x y p.1 p.2).
  - cbn [andb]. symmetry. unfold on_row.
    destruct (Z.eqb_spec p.2 y), (Z.leb_spec (x - 1) p.1),
      (Z.leb_spec p.1 (x + 1)); try reflexivity.
    assert (in_grid p.1 p.2 = true); [|congruence].
    apply in_grid_iff. unfold GRID_WIDTH, GRID_HEIGHT in *. lia.
Qed.

Lemma live_at_blinker_v p :
  live_at (blinker_v x y) p = on_column x y p.1 p.2.
Proof.
  unfold live_at, get. destruct (in_grid p.1 p.2) eqn:Hp.
  - rewrite cell_blinker_v by assumption. cbn [andb].
    now destruct (on_column x y p.1 p.2).
  - cbn [andb]. symmetry. unfold on_column.
    destruct (Z.eqb_spec p.1 x), (Z.leb_spec (y - 1) p.2),
      (Z.leb_spec p.2 (y + 1)); try reflexivity.
    assert (in_grid p.1 p.2 = true); [|congruence].
    apply in_grid_iff. unfold GRID_WIDTH, GRID_HEIGHT in *. lia.
Qed.
End blinker.

(** Deciding the comparisons of [on_row] and [on_column] once the offsets of
    the cell from the centre are known. *)
Ltac decide_comparisons :=
  repeat match goal with
  | |- context [Z.eqb ?u ?v] =>
      first [ rewrite (proj2 (Z.eqb_eq u v)) by lia
            | rewrite (proj2 (Z.eqb_neq u v)) by lia ]
  | |- context [Z.leb ?u ?v] =>
      first [ rewrite (proj2 (Z.leb_le u v)) by lia
            | rewrite (proj2 (Z.leb_gt u v)) by lia ]
  end.

Lemma row_becomes_column x y a b :
  life_rule (on_row x y a b)
    (foldr (λ p n, Z.b2z (on_row x y p.1 p.2) + n) 0 (moore a b))
  = on_column x y a b.
Proof.
  unfold on_row, on_column, moore. cbn [foldr fst snd].
  assert (a - x ≤ -3 ∨ a - x = -2 ∨ a - x = -1 ∨ a - x = 0
          ∨ a - x = 1 ∨ a - x = 2 ∨ 3 ≤ a - x) as Ha by lia.
  assert (b - y ≤ -2 ∨ b - y = -1 ∨ b - y = 0 ∨ b - y = 1 ∨ 2 ≤ b - y)
    as Hb by lia.
  destruct Ha as [Ha|[Ha|[Ha|[Ha|[Ha|[Ha|Ha]]]]]];
    destruct Hb as [Hb|[Hb|[Hb|[Hb|Hb]]]];
    decide_comparisons; reflexivity.
Qed.

Lemma column_becomes_row x y a b :
  life_rule (on_column x y a b)
    (foldr (λ p n, Z.b2z (on_column x y p.1 p.2) + n) 0 (moore a b))
  = on_row x y a b.
Proof.
  unfold on_row, on_column, moore. cbn [foldr fst snd].
  assert (b - y ≤ -3 ∨ b - y = -2 ∨ b - y = -1 ∨ b - y = 0
          ∨ b - y = 1 ∨ b - y = 2 ∨ 3 ≤ b - y) as Hb by lia.
  assert (a - x ≤ -2 ∨ a - x = -1 ∨ a - x = 0 ∨ a - x = 1 ∨ 2 ≤ a - x)
    as Ha by lia.
  destruct Ha as [Ha|[Ha|[Ha|[Ha|Ha]]]];
    destruct Hb as [Hb|[Hb|[Hb|[Hb|[Hb|[Hb|Hb]]]]]];
    decide_comparisons; reflexivity.
Qed.

Lemma life_generation_blinker_h x y :
  1 ≤ x < GRID_WIDTH - 1 → 1 ≤ y < GRID_HEIGHT - 1 →
  life_generation (blinker_h x y) = blinker_v x y.
Proof.
  intros Hx Hy.
  destruct (with_alive_spec _ (blinker_v_in_grid x y Hx Hy)) as (Hlen & _).
  fold (blinker_v x y) in Hlen.
  apply cells_ext.
  - pose proof (length_life_generation (blinker_h x y)). lia.
  - rewrite length_life_generation. intros i Hi.
    rewrite cell_life_generation by assumption.
    destruct (index_of_coords i Hi) as [Hin Hidx].
    unfold index_of in Hidx. cbn [fst snd] in Hidx.
    rewrite <- Hidx at 2. rewrite cell_blinker_v by assumption.
    unfold life_cell, get. rewrite cell_blinker_h by assumption.
    f_equal. rewrite <- (row_becomes_column x y).
    replace (Z.odd (Z.b2z (on_row x y (i mod GRID_WIDTH) (i / GRID_WIDTH))))
      with (on_row x y (i mod GRID_WIDTH) (i / GRID_WIDTH))
      by now destruct (on_row _ _ _ _).
    f_equal. unfold count_live_neighbors.
    induction (moore _ _) as [|p l IH]; [reflexivity|].
    cbn [foldr]. now rewrite IH, live_at_blinker_h.
Qed.

Lemma life_generation_blinker_v x y :
  1 ≤ x < GRID_WIDTH - 1 → 1 ≤ y < GRID_HEIGHT - 1 →
  life_generation (blinker_v x y) = blinker_h x y.
Proof.
  intros Hx Hy.
  destruct (with_alive_spec _ (blinker_h_in_grid x y Hx Hy)) as (Hlen & _).
  fold (blinker_h x y) in Hlen.
  apply cells_ext.
  - pose proof (length_life_generation (blinker_v x y)). lia.
  - rewrite length_life_generation. intros i Hi.
    rewrite cell_life_generation by assumption.
    destruct (index_of_coords i Hi) as [Hin Hidx].
    unfold index_of in Hidx. cbn [fst snd] in Hidx.
    rewrite <- Hidx at 2. rewrite cell_blinker_h by assumption.
    unfold life_cell, get. rewrite cell_blinker_v by assumption.
    f_equal. rewrite <- (column_becomes_row x y).
    replace (Z.odd (Z.b2z (on_column x y (i mod GRID_WIDTH) (i / GRID_WIDTH))))
      with (on_column x y (i mod GRID_WIDTH) (i / GRID_WIDTH))
      by now destruct (on_column _ _ _ _).
    f_equal. unfold count_live_neighbors.
    induction (moore _ _) as [|p l IH]; [reflexivity|].
    cbn [foldr]. now rewrite IH, live_at_blinker_v.
Qed.

(** C9: take the grid whose live cells are exactly (x-1,y), (x,y), (x+1,y),
    with the row and the column through (x,y) of length 3 inside the grid.
    One generation gives the grid whose live cells are exactly (x,y-1),
    (x,y), (x,y+1), and one more generation gives back the first grid. *)
Theorem blinker_period_two x y :
  1 ≤ x < GRID_WIDTH - 1 → 1 ≤ y < GRID_HEIGHT - 1 →
  (∀ a b, in_grid a b = true →
     get (blinker_h x y) a b = on_row x y a b ∧
     get (blinker_v x y) a b = on_column x y a b) ∧
  generation (blinker_h x y) = Some (blinker_v x y) ∧
  generation (blinker_v x y) = Some (blinker_h x y).
Proof.
  intros Hx Hy.
  destruct (with_alive_spec _ (blinker_h_in_grid x y Hx Hy))
    as (Hlh & Hch & _).
  destruct (with_alive_spec _ (blinker_v_in_grid x y Hx Hy))
    as (Hlv & Hcv & _).
  fold (blinker_h x y) in Hlh, Hch. fold (blinker_v x y) in Hlv, Hcv.
  apply sized_length in Hlh, Hlv.
  split; [|split].
  - intros a b Hab. unfold get.
    rewrite cell_blinker_h, cell_blinker_v by assumption.
    now destruct (on_row x y a b), (on_column x y a b).
  - rewrite (generation_life _ Hlh Hch).
    now rewrite life_generation_blinker_h.
  - rewrite (generation_life _ Hlv Hcv).
    now rewrite life_generation_blinker_v.
Qed.

Lemma blinker_period_two_witness :
  (∀ a b, in_grid a b = true →
     get (blinker_h 1 1) a b = on_row 1 1 a b ∧
     get (blinker_v 1 1) a b = on_column 1 1 a b) ∧
  generation (blinker_h 1 1) = Some (blinker_v 1 1) ∧
  generation (blinker_v 1 1) = Some (blinker_h 1 1).
Proof.
  apply (blinker_period_two 1 1); vm_compute; intuition discriminate.
Defined.


(** * Further properties of the code *)

(** ** The drawing loop *)

Lemma writes_store len k v f :
  0 ≤ k < len → f k = v →
  writes (λ b, store b k v) len (λ j, j = k) f.
Proof.
  intros Hk Hv b Hb. rewrite store_in by lia.
  eexists. split; [reflexivity|]. split; [now rewrite length_insert|].
  intros j Hj. rewrite cell_insert by lia.
  destruct (Z.eq_dec k j) as [->|Hne]; repeat split; auto; congruence.
Qed.

Lemma writes_visit {A : Type} (body : A → list Z → option (list Z))
    len (J : A → Z → Prop) f l :
  (∀ a, a ∈ l → writes (body a) len (J a) f) →
  writes (visit body l) len (λ j, ∃ a, a ∈ l ∧ J a j) f.
Proof.
  induction l as [|a l IH]; intros Hl b Hb.
  - exists b. split; [reflexivity|]. split; [exact Hb|].
    intros j Hj. split; [auto|]. split; [|reflexivity].
    intros (a & Ha & _). now apply elem_of_nil in Ha.
  - destruct (Hl a ltac:(apply elem_of_cons; auto) b Hb)
      as (b1 & H1 & Hb1 & Hc1).
    destruct (IH (λ a' Ha', Hl a' ltac:(apply elem_of_cons; auto)) b1 Hb1)
      as (b2 & H2 & Hb2 & Hc2).
    exists b2. cbn [visit]. rewrite H1. cbn [mbind option_bind].
    split; [exact H2|]. split; [exact Hb2|].
    intros j Hj. destruct (Hc1 j Hj) as (Hor1 & Hin1 & Hout1).
    destruct (Hc2 j Hj) as (Hor2 & Hin2 & Hout2).
    split; [|split].
    + destruct Hor2 as [->| ->]; auto.
    + intros (a' & [->|Ha']%elem_of_cons & Hj').
      * destruct Hor2 as [->| ->]; auto.
      * apply Hin2. eauto.
    + intros Hnot. rewrite Hout2, Hout1; [reflexivity| |].
      * intros Hj'. apply Hnot. exists a. split; [apply elem_of_cons; auto|auto].
      * intros (a' & Ha' & Hj'). apply Hnot. exists a'.
        split; [apply elem_of_cons; auto|auto].
Qed.

Lemma writes_ext (F G : list Z → option (list Z)) len (J J' : Z → Prop) f :
  (∀ b, F b = G b) → (∀ j, J j ↔ J' j) →
  writes G len J f → writes F len J' f.
Proof.
  intros HFG HJ HG b Hb. destruct (HG b Hb) as (b' & Hb' & Hlen & Hc).
  exists b'. rewrite HFG. split; [exact Hb'|]. split; [exact Hlen|].
  intros j Hj. destruct (Hc j Hj) as (Hor & Hin & Hout).
  specialize (HJ j).
  split; [exact Hor|]. split; intros H; [apply Hin|apply Hout]; tauto.
Qed.

Lemma writes_for_range (body : Z → list Z → option (list Z))
    lo hi len (J : Z → Z → Prop) f :
  (∀ a, lo ≤ a < hi → writes (body a) len (J a) f) →
  writes (for_range lo hi body) len (λ j, ∃ a, lo ≤ a < hi ∧ J a j) f.
Proof.
  intros Hbody.
  apply (writes_ext _ (visit body (seqZ lo (hi - lo))) len
           (λ j, ∃ a, a ∈ seqZ lo (hi - lo) ∧ J a j)).
  - intros b. apply for_range_visit.
  - intros j. split; intros (a & Ha & Hj); exists a; split; auto;
      apply elem_of_seqZ in Ha || apply elem_of_seqZ; lia.
  - apply writes_visit. intros a Ha. apply Hbody.
    apply elem_of_seqZ in Ha. lia.
Qed.

(** The pixels of the block of cell [i] show cell [i]. *)
Lemma pixel_of_block cells i x y :
  0 ≤ i < 36864 →
  Z.rem i GRID_WIDTH * PIXEL_SIZE ≤ x
    < Z.rem i GRID_WIDTH * PIXEL_SIZE + PIXEL_SIZE →
  (i ÷ GRID_WIDTH) * PIXEL_SIZE ≤ y
    < (i ÷ GRID_WIDTH) * PIXEL_SIZE + PIXEL_SIZE →
  0 ≤ x + WINDOW_WIDTH * y < WINDOW_WIDTH * WINDOW_HEIGHT ∧
  pixel_of cells (x + WINDOW_WIDTH * y)
  = if Z.odd (cell cells i) then UINT32_MAX else 0.
Proof.
  unfold pixel_of, get, GRID_WIDTH, PIXEL_SIZE, WINDOW_WIDTH, WINDOW_HEIGHT.
  intros Hi. rewrite Z.rem_mod_nonneg, Z.quot_div_nonneg by lia.
  intros Hx Hy.
  pose proof (Z.div_mod i 256 ltac:(lia)).
  pose proof (Z.mod_pos_bound i 256 ltac:(lia)).
  assert (0 ≤ i / 256 < 144)
    by (split; [apply Z.div_pos|apply Z.div_lt_upper_bound]; lia).
  split; [lia|].
  replace ((x + 1280 * y) mod 1280) with x
    by (apply (Z.mod_unique_pos _ _ y); lia).
  replace ((x + 1280 * y) / 1280) with y
    by (apply (Z.div_unique_pos _ _ _ x); lia).
  replace (x / 5) with (i mod 256)
    by (apply (Z.div_unique_pos _ _ _ (x - i mod 256 * 5)); lia).
  replace (y / 5) with (i / 256)
    by (apply (Z.div_unique_pos _ _ _ (y - i / 256 * 5)); lia).
  replace (i mod 256 + 256 * (i / 256)) with i by lia.
  reflexivity.
Qed.

Lemma writes_draw_cells cells :
  Z.of_nat (length cells) = 36864 →
  writes (draw_cells cells) (WINDOW_WIDTH * WINDOW_HEIGHT)
    (λ j, ∃ i, 0 ≤ i < GRID_WIDTH * GRID_HEIGHT ∧
      ∃ x, Z.rem i GRID_WIDTH * PIXEL_SIZE ≤ x
             < Z.rem i GRID_WIDTH * PIXEL_SIZE + PIXEL_SIZE ∧
      ∃ y, (i ÷ GRID_WIDTH) * PIXEL_SIZE ≤ y
             < (i ÷ GRID_WIDTH) * PIXEL_SIZE + PIXEL_SIZE ∧
      j = x + WINDOW_WIDTH * y)
    (pixel_of cells).
Proof.
  intros Hlen. unfold draw_cells.
  apply writes_for_range. intros i Hi.
  change (GRID_WIDTH * GRID_HEIGHT) with 36864 in Hi.
  apply writes_for_range. intros x Hx.
  apply writes_for_range. intros y Hy.
  destruct (pixel_of_block cells i x y Hi Hx Hy) as [Hidx Hpix].
  apply (writes_ext _ (λ b, store b (x + WINDOW_WIDTH * y)
                              (if Z.odd (cell cells i)
                               then UINT32_MAX else 0)) _
           (λ j, j = x + WINDOW_WIDTH * y)).
  - intros b. unfold draw_pixel. rewrite load_in by lia.
    cbn [mbind option_bind]. rewrite flag_alive_odd.
    now destruct (Z.odd _).
  - tauto.
  - now apply writes_store.
Qed.

Lemma draw_cells_pixels cells buffer :
  sized cells = true →
  Z.of_nat (length buffer) = WINDOW_WIDTH * WINDOW_HEIGHT →
  ∃ drawn, draw_cells cells buffer = Some drawn ∧
    Z.of_nat (length drawn) = WINDOW_WIDTH * WINDOW_HEIGHT ∧
    ∀ px py, 0 ≤ px < WINDOW_WIDTH → 0 ≤ py < WINDOW_HEIGHT →
      cell drawn (px + WINDOW_WIDTH * py)
      = if get cells (px / PIXEL_SIZE) (py / PIXEL_SIZE)
        then UINT32_MAX else 0.
Proof.
  intros Hs Hb. apply sized_length in Hs.
  destruct (writes_draw_cells cells Hs buffer Hb) as (drawn & Hd & Hlen & Hc).
  exists drawn. split; [exact Hd|]. split; [exact Hlen|].
  intros px py Hpx Hpy.
  unfold WINDOW_WIDTH, WINDOW_HEIGHT, PIXEL_SIZE, GRID_WIDTH, GRID_HEIGHT in *.
  assert (0 ≤ px / 5 < 256)
    by (split; [apply Z.div_pos|apply Z.div_lt_upper_bound]; lia).
  assert (0 ≤ py / 5 < 144)
    by (split; [apply Z.div_pos|apply Z.div_lt_upper_bound]; lia).
  pose proof (Z.div_mod px 5 ltac:(lia)).
  pose proof (Z.mod_pos_bound px 5 ltac:(lia)).
  pose proof (Z.div_mod py 5 ltac:(lia)).
  pose proof (Z.mod_pos_bound py 5 ltac:(lia)).
  destruct (Hc (px + 1280 * py) ltac:(lia)) as (_ & Hin & _).
  rewrite Hin.
  - unfold pixel_of, WINDOW_WIDTH, PIXEL_SIZE.
    replace ((px + 1280 * py) mod 1280) with px
      by (apply (Z.mod_unique_pos _ _ py); lia).
    replace ((px + 1280 * py) / 1280) with py
      by (apply (Z.div_unique_pos _ _ _ px); lia).
    reflexivity.
  - exists (px / 5 + 256 * (py / 5)).
    rewrite Z.rem_mod_nonneg, Z.quot_div_nonneg by lia.
    replace ((px / 5 + 256 * (py / 5)) mod 256) with (px / 5)
      by (apply (Z.mod_unique_pos _ _ (py / 5)); lia).
    replace ((px / 5 + 256 * (py / 5)) / 256) with (py / 5)
      by (apply (Z.div_unique_pos _ _ _ (px / 5)); lia).
    split; [lia|]. exists px. split; [lia|]. exists py. split; [lia|].
    reflexivity.
Qed.

(** X1: on a grid and a screen buffer of the right sizes the drawing loop
    returns (every store is inside the buffer), and afterwards the pixel
    (px, py) is white exactly when the cell (px / 5, py / 5) is alive and
    black otherwise, whatever the buffer held before. *)
Theorem draw_cells_renders cells buffer :
  sized cells = true →
  Z.of_nat (length buffer) = WINDOW_WIDTH * WINDOW_HEIGHT →
  ∃ drawn, draw_cells cells buffer = Some drawn ∧
    Z.of_nat (length drawn) = WINDOW_WIDTH * WINDOW_HEIGHT ∧
    ∀ px py, 0 ≤ px < WINDOW_WIDTH → 0 ≤ py < WINDOW_HEIGHT →
      cell drawn (px + WINDOW_WIDTH * py)
      = if get cells (px / PIXEL_SIZE) (py / PIXEL_SIZE)
        then UINT32_MAX else 0.
Proof. exact (draw_cells_pixels cells buffer). Qed.

Lemma length_black_screen :
  Z.of_nat (length black_screen) = WINDOW_WIDTH * WINDOW_HEIGHT.
Proof.
  unfold black_screen. rewrite length_replicate, Z2Nat.id; [reflexivity|].
  unfold WINDOW_WIDTH, WINDOW_HEIGHT. lia.
Qed.

Lemma draw_cells_renders_witness :
  ∃ drawn, draw_cells corner_block black_screen = Some drawn ∧
    Z.of_nat (length drawn) = WINDOW_WIDTH * WINDOW_HEIGHT ∧
    ∀ px py, 0 ≤ px < WINDOW_WIDTH → 0 ≤ py < WINDOW_HEIGHT →
      cell drawn (px + WINDOW_WIDTH * py)
      = if get corner_block (px / PIXEL_SIZE) (py / PIXEL_SIZE)
        then UINT32_MAX else 0.
Proof.
  apply (draw_cells_renders corner_block black_screen);
    [vm_compute; reflexivity | apply length_black_screen].
Defined.

(** ** Editing while paused *)

(** X2: released while paused, F2 leaves a grid in which every cell is 0
    and changes nothing else of the state; all 36864 stores of its loop are
    inside the array. *)
Theorem clear_makes_all_dead r s :
  s_started s = false → sized (cells s) = true →
  ∃ cleared, handle_event (SDL_KEYUP SDLK_F2) r s
             = Some (set_cells cleared s) ∧
    sized cleared = true ∧
    ∀ i, 0 ≤ i < GRID_WIDTH * GRID_HEIGHT → cell cleared i = 0.
Proof.
  intros Hp Hs. exists cells_init. split; [|split].
  - cbn [handle_event]. unfold key_up. rewrite Hp. cbn [negb].
    rewrite clear_cells_spec by now apply sized_length.
    reflexivity.
  - apply sized_length, length_cells_init.
  - intros i _. apply cell_cells_init.
Qed.

Lemma clear_makes_all_dead_witness :
  ∃ cleared, handle_event (SDL_KEYUP SDLK_F2) no_answers paused_corner
             = Some (set_cells cleared paused_corner) ∧
    sized cleared = true ∧
    ∀ i, 0 ≤ i < GRID_WIDTH * GRID_HEIGHT → cell cleared i = 0.
Proof.
  apply (clear_makes_all_dead no_answers paused_corner);
    [reflexivity | vm_compute; reflexivity].
Defined.

(** X3: with the mouse inside the window and a button held, the editing
    block of a paused program writes exactly the cell under the mouse, the
    cell (x / 5, y / 5): 1 if the left button is down (also when both are),
    0 if only the right one is; every other cell keeps its byte. *)
Theorem edit_writes_cell_under_mouse x y s :
  s_started s = false → sized (cells s) = true →
  add_btn_down s || rem_btn_down s = true →
  0 ≤ x < WINDOW_WIDTH → 0 ≤ y < WINDOW_HEIGHT →
  ∃ a, edit_phase (x, y) s = Some (set_cells a s) ∧
    sized a = true ∧
    in_grid (x / PIXEL_SIZE) (y / PIXEL_SIZE) = true ∧
    cell a (x / PIXEL_SIZE + GRID_WIDTH * (y / PIXEL_SIZE))
    = (if add_btn_down s then CELL_ALIVE else 0) ∧
    ∀ i, 0 ≤ i < GRID_WIDTH * GRID_HEIGHT →
      i ≠ x / PIXEL_SIZE + GRID_WIDTH * (y / PIXEL_SIZE) →
      cell a i = cell (cells s) i.
Proof.
  intros Hp Hs Hbtn Hx Hy.
  rewrite edit_phase_in_window by assumption.
  destruct (mouse_index_in_window x y Hx Hy) as [_ Hin].
  apply sized_length in Hs.
  assert (x ÷ PIXEL_SIZE = x / PIXEL_SIZE) as Hqx
    by (unfold WINDOW_WIDTH, PIXEL_SIZE in *; apply Z.quot_div_nonneg; lia).
  assert (y ÷ PIXEL_SIZE = y / PIXEL_SIZE) as Hqy
    by (unfold WINDOW_HEIGHT, PIXEL_SIZE in *; apply Z.quot_div_nonneg; lia).
  rewrite Hqx, Hqy in *.
  pose proof (in_grid_index _ _ Hin) as Hidx.
  exists (<[Z.to_nat (x / PIXEL_SIZE + GRID_WIDTH * (y / PIXEL_SIZE))
            := if add_btn_down s then CELL_ALIVE else 0]> (cells s)).
  split.
  { destruct (add_btn_down s); [reflexivity|].
    cbn [orb] in Hbtn. now rewrite Hbtn. }
  split; [apply sized_length; now rewrite length_insert|].
  split; [exact Hin|].
  split.
  - rewrite cell_insert by lia. now destruct (Z.eq_dec _ _).
  - intros i Hi Hne. rewrite cell_insert by lia.
    destruct (Z.eq_dec _ i); [congruence|reflexivity].
Qed.

Lemma edit_writes_cell_under_mouse_witness :
  ∃ a, edit_phase (52, 51) painting = Some (set_cells a painting) ∧
    sized a = true ∧
    in_grid (52 / PIXEL_SIZE) (51 / PIXEL_SIZE) = true ∧
    cell a (52 / PIXEL_SIZE + GRID_WIDTH * (51 / PIXEL_SIZE))
    = (if add_btn_down painting then CELL_ALIVE else 0) ∧
    ∀ i, 0 ≤ i < GRID_WIDTH * GRID_HEIGHT →
      i ≠ 52 / PIXEL_SIZE + GRID_WIDTH * (51 / PIXEL_SIZE) →
      cell a i = cell (cells painting) i.
Proof.
  apply (edit_writes_cell_under_mouse 52 51 painting);
    first [reflexivity | vm_compute; reflexivity
          | vm_compute; intuition discriminate].
Defined.

Lemma quot_PIXEL_SIZE_bound x :
  INT_MIN ≤ x ≤ INT_MAX → -429496729 ≤ x ÷ PIXEL_SIZE ≤ 429496729.
Proof.
  unfold INT_MIN, INT_MAX, PIXEL_SIZE. intros Hx.
  Z.to_euclidean_division_equations. lia.
Qed.

Lemma mouse_index_spec cx cy :
  -429496729 ≤ cx ≤ 429496729 →
  (mouse_index cx cy = Some (cx + GRID_WIDTH * cy))
  ∨ (mouse_index cx cy = None ∧ ¬ 0 ≤ cx + GRID_WIDTH * cy < 36864).
Proof.
  intros Hcx. unfold mouse_index, int_of, INT_MIN, INT_MAX, GRID_WIDTH.
  destruct (Z.leb_spec (-2147483648) (256 * cy)),
    (Z.leb_spec (256 * cy) 2147483647); cbn [andb mbind option_bind];
    try (right; split; [reflexivity|lia]).
  destruct (Z.leb_spec (-2147483648) (cx + 256 * cy)),
    (Z.leb_spec (cx + 256 * cy) 2147483647); cbn [andb];
    try (right; split; [reflexivity|lia]).
  now left.
Qed.

Lemma edit_phase_paused x y s :
  s_started s = false → add_btn_down s || rem_btn_down s = true →
  edit_phase (x, y) s
  = i ← mouse_index (x ÷ PIXEL_SIZE) (y ÷ PIXEL_SIZE);
    a ← store (cells s) i (edit_value s);
    Some (set_cells a s).
Proof.
  intros Hp Hbtn. unfold edit_phase, edit_value. rewrite Hp.
  cbn [negb fst snd]. destruct (add_btn_down s); [reflexivity|].
  cbn [orb] in Hbtn. now rewrite Hbtn.
Qed.

(** X4: for any mouse position, the editing block of a paused program with
    a button held is defined exactly when the index x/5 + 256 * (y/5)
    (C division) falls inside the array, and then it stores at that index;
    the position is never clamped to the grid. *)
Theorem edit_defined_iff_index_in_array x y s :
  s_started s = false → sized (cells s) = true →
  add_btn_down s || rem_btn_down s = true →
  INT_MIN ≤ x ≤ INT_MAX → INT_MIN ≤ y ≤ INT_MAX →
  (is_Some (edit_phase (x, y) s)
   ↔ 0 ≤ x ÷ PIXEL_SIZE + GRID_WIDTH * (y ÷ PIXEL_SIZE)
       < GRID_WIDTH * GRID_HEIGHT) ∧
  ∀ s', edit_phase (x, y) s = Some s' →
    s' = set_cells
           (<[Z.to_nat (x ÷ PIXEL_SIZE + GRID_WIDTH * (y ÷ PIXEL_SIZE))
              := edit_value s]> (cells s)) s.
Proof.
  intros Hp Hs Hbtn Hx Hy. apply sized_length in Hs.
  rewrite edit_phase_paused by assumption.
  change (GRID_WIDTH * GRID_HEIGHT) with 36864.
  destruct (mouse_index_spec (x ÷ PIXEL_SIZE) (y ÷ PIXEL_SIZE)
              (quot_PIXEL_SIZE_bound x Hx)) as [-> | [-> Hout]];
    cbn [mbind option_bind].
  - unfold store. rewrite Hs.
    destruct (Z.leb_spec 0 (x ÷ PIXEL_SIZE + GRID_WIDTH * (y ÷ PIXEL_SIZE))),
      (Z.ltb_spec (x ÷ PIXEL_SIZE + GRID_WIDTH * (y ÷ PIXEL_SIZE)) 36864);
      cbn [andb mbind option_bind];
      (split; [split; [intros [? H']; try discriminate H'; lia
                      |intros; try lia; eauto]
              |intros s' H'; now inversion H']).
  - split; [|discriminate].
    split; [intros [? H']; discriminate H'|intros; lia].
Qed.

Lemma edit_defined_iff_index_in_array_witness :
  (is_Some (edit_phase (-3, 0) painting)
   ↔ 0 ≤ (-3) ÷ PIXEL_SIZE + GRID_WIDTH * (0 ÷ PIXEL_SIZE)
       < GRID_WIDTH * GRID_HEIGHT) ∧
  ∀ s', edit_phase (-3, 0) painting = Some s' →
    s' = set_cells
           (<[Z.to_nat ((-3) ÷ PIXEL_SIZE + GRID_WIDTH * (0 ÷ PIXEL_SIZE))
              := edit_value painting]> (cells painting)) painting.
Proof.
  apply (edit_defined_iff_index_in_array (-3) 0 painting);
    first [reflexivity | vm_compute; reflexivity
          | vm_compute; intuition discriminate].
Defined.

(** X5: a mouse position up to one window width to the right of the window
    is not rejected: on the rows above the last one the block paints the
    cell ((x - 1280) / 5, y / 5 + 1) of the next row, and on the last row of
    cells the store is outside the array. *)
Theorem edit_right_of_window x y s :
  s_started s = false → sized (cells s) = true →
  add_btn_down s || rem_btn_down s = true →
  WINDOW_WIDTH ≤ x < 2 * WINDOW_WIDTH → 0 ≤ y < WINDOW_HEIGHT →
  if y <? WINDOW_HEIGHT - PIXEL_SIZE
  then in_grid ((x - WINDOW_WIDTH) / PIXEL_SIZE) (y / PIXEL_SIZE + 1) = true ∧
       edit_phase (x, y) s
       = Some (set_cells
                 (<[Z.to_nat ((x - WINDOW_WIDTH) / PIXEL_SIZE
                              + GRID_WIDTH * (y / PIXEL_SIZE + 1))
                    := edit_value s]> (cells s)) s)
  else edit_phase (x, y) s = None.
Proof.
  intros Hp Hs Hbtn Hx Hy. apply sized_length in Hs.
  rewrite edit_phase_paused by assumption.
  unfold WINDOW_WIDTH, WINDOW_HEIGHT, PIXEL_SIZE, GRID_WIDTH in *.
  rewrite !Z.quot_div_nonneg by lia.
  assert (x / 5 = (x - 1280) / 5 + 256) as Hxq
    by (Z.to_euclidean_division_equations; lia).
  assert (0 ≤ (x - 1280) / 5 < 256)
    by (Z.to_euclidean_division_equations; lia).
  assert (0 ≤ y / 5 < 144) by (Z.to_euclidean_division_equations; lia).
  destruct (mouse_index_spec (x / 5) (y / 5) ltac:(lia)) as [Hm | [Hm Hout]];
    unfold GRID_WIDTH in *.
  - rewrite Hm. cbn [mbind option_bind].
    destruct (Z.ltb_spec y (720 - 5)).
    + assert (y / 5 < 143) by (Z.to_euclidean_division_equations; lia).
      split; [apply in_grid_iff; lia|].
      rewrite store_in by lia. cbn [mbind option_bind].
      do 3 f_equal. lia.
    + assert (143 ≤ y / 5) by (Z.to_euclidean_division_equations; lia).
      unfold store. rewrite Hs.
      destruct (Z.ltb_spec (x / 5 + 256 * (y / 5)) 36864); [lia|].
      now rewrite andb_false_r.
  - rewrite Hm. cbn [mbind option_bind].
    destruct (Z.ltb_spec y (720 - 5)); [|reflexivity].
    assert (y / 5 < 143) by (Z.to_euclidean_division_equations; lia).
    lia.
Qed.

Lemma edit_right_of_window_witness :
  if 100 <? WINDOW_HEIGHT - PIXEL_SIZE
  then in_grid ((1300 - WINDOW_WIDTH) / PIXEL_SIZE) (100 / PIXEL_SIZE + 1)
       = true ∧
       edit_phase (1300, 100) painting
       = Some (set_cells
                 (<[Z.to_nat ((1300 - WINDOW_WIDTH) / PIXEL_SIZE
                              + GRID_WIDTH * (100 / PIXEL_SIZE + 1))
                    := edit_value painting]> (cells painting)) painting)
  else edit_phase (1300, 100) painting = None.
Proof.
  apply (edit_right_of_window 1300 100 painting);
    first [reflexivity | vm_compute; reflexivity
          | vm_compute; intuition discriminate].
Defined.

(** ** The tick counter across pauses *)

Lemma set_tick_same s t : t = tick s → set_tick t s = s.
Proof. intros ->. now destruct s. Qed.

(** X6: frames of a paused program in which nothing happens (no event, no
    button held) change nothing but the tick counter, which goes up by one
    per frame: the counter also runs while the simulation is paused. *)
Theorem idle_paused_frames_only_count k xy s :
  s_started s = false → quit s = false →
  add_btn_down s = false → rem_btn_down s = false →
  INT_MIN ≤ tick s → tick s + Z.of_nat k ≤ INT_MAX →
  main_loop (replicate k (Input [] xy)) s
  = Some (set_tick (tick s + Z.of_nat k) s).
Proof.
  revert s. induction k as [|k IH]; intros s Hp Hq Ha Hr Hlo Hhi.
  - cbn [replicate main_loop]. f_equal. symmetry. apply set_tick_same. lia.
  - cbn [replicate]. rewrite main_loop_cons by assumption.
    assert (frame (Input [] xy) s = Some (set_tick (tick s + 1) s)) as ->.
    { unfold frame, poll_events. cbn [events visit mouse mbind option_bind].
      unfold edit_phase. rewrite Hp, Ha, Hr. cbn [negb mbind option_bind].
      unfold update_phase. rewrite Hp. cbn [mbind option_bind].
      apply tick_phase_in. unfold INT_MIN, INT_MAX in *. lia. }
    cbn [mbind option_bind].
    rewrite IH by (cbn [tick set_tick s_started quit add_btn_down
                        rem_btn_down]; first [assumption | lia]).
    f_equal. unfold set_tick.
    cbn [cells previous_simul s_started tick max_tick quit add_btn_down
         rem_btn_down files].
    f_equal. lia.
Qed.

Lemma idle_paused_frames_only_count_witness :
  main_loop (replicate 3 (Input [] (2000, -7))) idle
  = Some (set_tick (tick idle + Z.of_nat 3) idle).
Proof.
  apply (idle_paused_frames_only_count 3 (2000, -7) idle);
    first [reflexivity | vm_compute; intuition discriminate].
Defined.

(** X7: if F1 is released in a paused program whose counter is already past
    the threshold, the simulation advances one generation in that same
    frame; the snapshot holds the grid as it was before that advance, and
    the frame ends with the counter at 1. *)
Theorem start_with_stale_counter r xy s :
  s_started s = false →
  sized (cells s) = true → sized (previous_simul s) = true →
  max_tick s < tick s →
  ∃ s', frame (Input [(SDL_KEYUP SDLK_F1, r)] xy) s = Some s' ∧
        s_started s' = true ∧ previous_simul s' = cells s ∧
        generation (cells s) = Some (cells s') ∧ tick s' = 1.
Proof.
  intros Hp Hc Hprev Ht. apply sized_length in Hc, Hprev.
  rewrite frame_cons, key_up_start by assumption.
  cbn [mbind option_bind].
  destruct (generation_spec (cells s) Hc) as (c & Hgen & _).
  exists (set_tick 1 (set_cells c
            (set_previous_simul (cells s) (set_s_started true s)))).
  split; [|now repeat split].
  unfold frame, poll_events. cbn [events visit mouse mbind option_bind].
  rewrite edit_phase_running by reflexivity. cbn [mbind option_bind].
  unfold update_phase.
  cbn [s_started tick max_tick cells set_previous_simul set_s_started].
  destruct (Z.gtb_spec (tick s) (max_tick s)); [|lia].
  rewrite Hgen. cbn [mbind option_bind]. reflexivity.
Qed.

Lemma start_with_stale_counter_witness :
  ∃ s', frame (Input [(SDL_KEYUP SDLK_F1, no_answers)] (0, 0)) stale_counter
        = Some s' ∧
        s_started s' = true ∧ previous_simul s' = cells stale_counter ∧
        generation (cells stale_counter) = Some (cells s') ∧ tick s' = 1.
Proof.
  apply (start_with_stale_counter no_answers (0, 0) stale_counter);
    first [reflexivity | vm_compute; reflexivity].
Defined.

(** ** Saving and loading, further *)

Lemma key_up_save r path btn s :
  s_started s = false →
  Z.of_nat (length (cells s)) = 36864 →
  Z.of_nat (length (previous_simul s)) = 36864 →
  message_box r = Some btn → save_dialog r = Some path →
  fopen_write r = true →
  handle_event (SDL_KEYUP SDLK_F3) r s
  = Some (set_files
            (<[path := if btn =? 1 then cells s else previous_simul s]>
               (files s)) s).
Proof.
  intros Hp Hc Hprev Hbtn Hdlg Hopen.
  cbn [handle_event]. unfold key_up. rewrite Hp. cbn [negb].
  unfold save_state. rewrite Hbtn, Hdlg, Hopen.
  destruct (btn =? 1); now rewrite fwrite_cells by assumption.
Qed.

Lemma run_after_start r rest xy inputs s s2 :
  quit s = false → s_started s = false →
  Z.of_nat (length (cells s)) = 36864 →
  Z.of_nat (length (previous_simul s)) = 36864 →
  no_toggle rest = true →
  forallb (λ inp, no_toggle (events inp)) inputs = true →
  main_loop (Input ((SDL_KEYUP SDLK_F1, r) :: rest) xy :: inputs) s
  = Some s2 →
  previous_simul s2 = cells s ∧ s_started s2 = true.
Proof.
  intros Hq Hs Hc Hp Hrest Hinputs Hrun.
  rewrite main_loop_cons in Hrun by assumption.
  destruct (frame _ s) as [s1|] eqn:Hframe;
    cbn [mbind option_bind] in Hrun; [|discriminate].
  apply main_loop_snapshot in Hrun as [Hp2 Hr2]; [|assumption].
  rewrite frame_cons, key_up_start in Hframe by assumption.
  cbn [mbind option_bind] in Hframe.
  apply frame_snapshot in Hframe as [? ?]; [|assumption].
  cbn [previous_simul s_started set_previous_simul set_s_started] in *.
  split; congruence.
Qed.

(** X8: start the simulation, let it run for any number of frames, stop it
    with F1 and save with the button "Previous": the file receives the grid
    as it was when the simulation was started, not the current one. *)
Theorem save_previous_after_run r0 rest xy inputs s s2 r r1 path btn :
  quit s = false → s_started s = false →
  sized (cells s) = true → sized (previous_simul s) = true →
  no_toggle rest = true →
  forallb (λ inp, no_toggle (events inp)) inputs = true →
  main_loop (Input ((SDL_KEYUP SDLK_F1, r0) :: rest) xy :: inputs) s
  = Some s2 →
  btn ≠ 1 → message_box r = Some btn → save_dialog r = Some path →
  fopen_write r = true →
  ∃ s3 s4, handle_event (SDL_KEYUP SDLK_F1) r1 s2 = Some s3 ∧
           s_started s3 = false ∧ cells s3 = cells s2 ∧
           handle_event (SDL_KEYUP SDLK_F3) r s3 = Some s4 ∧
           files s4 !! path = Some (cells s).
Proof.
  intros Hq Hs Hc Hp Hrest Hinputs Hrun Hbtn Hmsg Hdlg Hopen.
  apply sized_length in Hc, Hp.
  destruct (run_after_start r0 rest xy inputs s s2) as [Hprev Hrunning];
    auto.
  exists (set_s_started false s2),
    (set_files (<[path := cells s]> (files s2)) (set_s_started false s2)).
  split; [cbn [handle_event]; now rewrite key_up_running|].
  split; [reflexivity|]. split; [reflexivity|].
  split; [|cbn [files set_files]; apply lookup_insert_eq].
  cbn [handle_event]. unfold key_up, save_state.
  cbn [s_started set_s_started negb cells previous_simul files].
  rewrite Hmsg, Hdlg, Hopen. apply Z.eqb_neq in Hbtn. rewrite Hbtn, Hprev.
  now rewrite fwrite_cells by assumption.
Qed.

Lemma save_previous_after_run_witness :
  ∃ s2, main_loop [press_start; quiet; quiet] paused_corner = Some s2 ∧
  ∃ s3 s4, handle_event (SDL_KEYUP SDLK_F1) no_answers s2 = Some s3 ∧
           s_started s3 = false ∧ cells s3 = cells s2 ∧
           handle_event (SDL_KEYUP SDLK_F3) save_previous s3 = Some s4 ∧
           files s4 !! "before.gol"%string = Some (cells paused_corner).
Proof.
  assert (∃ s2, main_loop [press_start; quiet; quiet] paused_corner
                = Some s2) as (s2 & Hrun).
  { eexists. unfold press_start, quiet.
    rewrite main_loop_cons, frame_cons by reflexivity.
    rewrite key_up_start by (vm_compute; reflexivity).
    cbn [mbind option_bind].
    do 3 (rewrite frame_quiet_running
            by first [reflexivity | vm_compute; reflexivity
                     | vm_compute; intuition discriminate];
          reduce_test; cbn [mbind option_bind];
          try rewrite main_loop_cons by reflexivity).
    reflexivity. }
  exists s2. split; [exact Hrun|].
  apply (save_previous_after_run no_answers [] (0, 0) [quiet; quiet]
           paused_corner s2 save_previous no_answers
           "before.gol"%string 0);
    first [ exact Hrun | vm_compute; reflexivity | discriminate ].
Defined.

(** X9: whatever the dialogs answer, releasing F3 changes nothing but the
    file system, and there nothing but the file chosen in the save dialog;
    if the message box fails, the dialog is cancelled or the simulation is
    running, nothing changes at all. *)
Theorem save_changes_one_file r s s' :
  handle_event (SDL_KEYUP SDLK_F3) r s = Some s' →
  s' = set_files (files s') s ∧
  (∀ p, save_dialog r ≠ Some p → files s' !! p = files s !! p) ∧
  (message_box r = None ∨ save_dialog r = None ∨ s_started s = true →
   files s' = files s).
Proof.
  assert (s = set_files (files s) s) as Hsame by now destruct s.
  cbn [handle_event]. unfold key_up.
  destruct (s_started s) eqn:Hp; cbn [negb];
    [intros [= <-]; repeat split; auto|].
  unfold save_state.
  destruct (message_box r) as [btn|];
    [|intros [= <-]; repeat split; auto].
  destruct (save_dialog r) as [path|];
    [|intros [= <-]; repeat split; auto].
  destruct (fopen_write r); [|discriminate].
  destruct (if btn =? 1 then _ else _) as [bytes|];
    cbn [mbind option_bind]; [|discriminate].
  intros [= <-]. cbn [files set_files]. split; [reflexivity|]. split.
  - intros p Hp'. apply lookup_insert_ne. congruence.
  - intros [H|[H|H]]; discriminate.
Qed.

Lemma save_changes_one_file_witness :
  ∃ s', handle_event (SDL_KEYUP SDLK_F3) save_current paused_corner
        = Some s' ∧
  s' = set_files (files s') paused_corner ∧
  (∀ p, save_dialog save_current ≠ Some p →
        files s' !! p = files paused_corner !! p) ∧
  (message_box save_current = None ∨ save_dialog save_current = None
   ∨ s_started paused_corner = true →
   files s' = files paused_corner).
Proof.
  eexists. split.
  - apply (key_up_save save_current "corner.gol"%string 1 paused_corner);
      vm_compute; reflexivity.
  - apply (save_changes_one_file save_current paused_corner).
    apply (key_up_save save_current "corner.gol"%string 1 paused_corner);
      vm_compute; reflexivity.
Defined.

Lemma cell_app_take_drop (file a : list Z) k i :
  (k ≤ length file)%nat → (k ≤ length a)%nat → 0 ≤ i →
  cell (take k file ++ drop k a) i
  = if i <? Z.of_nat k then cell file i else cell a i.
Proof.
  intros Hf Ha Hi. unfold cell.
  destruct (Z.ltb_spec i (Z.of_nat k)).
  - rewrite lookup_app_l by (rewrite length_take; lia).
    rewrite lookup_take_lt by lia. reflexivity.
  - rewrite lookup_app_r by (rewrite length_take; lia).
    rewrite length_take, lookup_drop. do 2 f_equal. lia.
Qed.

(** X10: loading never checks the size of the file.  A file of any length
    is read into the front of the grid: the cells covered by the complete
    4-byte units of the file take the bytes of the file, the cells past the
    end of the file keep what they held, and the grid keeps its size (bytes
    of the file past the 36864th are never read). *)
Theorem load_reads_prefix r path file s :
  s_started s = false → sized (cells s) = true →
  open_dialog r = Some path → files s !! path = Some file →
  ∃ a, handle_event (SDL_KEYUP SDLK_F4) r s = Some (set_cells a s) ∧
    sized a = true ∧
    ∀ i, 0 ≤ i < GRID_WIDTH * GRID_HEIGHT →
      (i < sizeof_uint32_t * (Z.of_nat (length file) / sizeof_uint32_t) →
       cell a i = cell file i) ∧
      (Z.of_nat (length file) ≤ i → cell a i = cell (cells s) i).
Proof.
  intros Hp Hs Hdlg Hfile. apply sized_length in Hs.
  cbn [handle_event]. unfold key_up. rewrite Hp. cbn [negb].
  unfold load_state. rewrite Hdlg, Hfile. cbn [mbind option_bind].
  unfold fread.
  change (sizeof_uint32_t * (sizeof_cells / sizeof_uint32_t)) with 36864.
  set (k := Z.min 36864 (Z.of_nat (length file))).
  assert (0 ≤ k ≤ 36864 ∧ k ≤ Z.of_nat (length file)) as Hk
    by (unfold k; lia).
  rewrite Hs.
  destruct (Z.leb_spec 0 k), (Z.leb_spec k 36864); try lia.
  cbn [andb mbind option_bind].
  eexists. split; [reflexivity|]. split.
  - apply sized_length.
    rewrite length_app, length_take, length_drop. lia.
  - change (GRID_WIDTH * GRID_HEIGHT) with 36864. unfold sizeof_uint32_t.
    intros i Hi. rewrite cell_app_take_drop by lia.
    rewrite Z2Nat.id by lia.
    pose proof (Z.mul_div_le (Z.of_nat (length file)) 4 ltac:(lia)).
    split; intros Hi'.
    + destruct (Z.ltb_spec i k); [reflexivity|unfold k in *; lia].
    + destruct (Z.ltb_spec i k); [unfold k in *; lia|reflexivity].
Qed.

Lemma load_reads_prefix_witness :
  ∃ a, handle_event (SDL_KEYUP SDLK_F4) open_short with_short_file
       = Some (set_cells a with_short_file) ∧
    sized a = true ∧
    ∀ i, 0 ≤ i < GRID_WIDTH * GRID_HEIGHT →
      (i < sizeof_uint32_t * (Z.of_nat (length short_file) / sizeof_uint32_t)
       → cell a i = cell short_file i) ∧
      (Z.of_nat (length short_file) ≤ i →
       cell a i = cell (cells with_short_file) i).
Proof.
  apply (load_reads_prefix open_short "short.gol"%string short_file
           with_short_file);
    vm_compute; reflexivity.
Defined.

(** ** Leaving the loop *)

Lemma handle_event_quit ev r s s' :
  handle_event ev r s = Some s' →
  quit s' = (if ev is SDL_QUIT then true else quit s).
Proof.
  destruct ev as [|sym|[]|[]|y|]; cbn [handle_event];
    try (intros [= <-]; reflexivity).
  - unfold key_up. destruct sym;
      cbn [s_started set_s_started cells previous_simul];
      destruct (negb (s_started s)); try (intros [= <-]; reflexivity).
    + destruct (memcpy _ _ _); cbn [mbind option_bind]; [|discriminate].
      intros [= <-]. reflexivity.
    + destruct (clear_cells _); cbn [mbind option_bind]; [|discriminate].
      intros [= <-]. reflexivity.
    + unfold save_state.
      destruct (message_box r) as [btn|]; [|intros [= <-]; reflexivity].
      destruct (save_dialog r); [|intros [= <-]; reflexivity].
      destruct (fopen_write r); [|discriminate].
      destruct (if btn =? 1 then _ else _); cbn [mbind option_bind];
        [|discriminate].
      intros [= <-]. reflexivity.
    + unfold load_state.
      destruct (open_dialog r); [|intros [= <-]; reflexivity].
      destruct (files s !! _); cbn [mbind option_bind]; [|discriminate].
      destruct (fread _ _ _ _); cbn [mbind option_bind]; [|discriminate].
      intros [= <-]. reflexivity.
  - destruct (mouse_wheel y (max_tick s)); cbn [mbind option_bind];
      [|discriminate].
    intros [= <-]. reflexivity.
Qed.

Lemma poll_events_quit evs :
  ∀ s s', poll_events evs s = Some s' →
  quit s' = quit s || existsb (λ er, if er.1 is SDL_QUIT then true else false)
                        evs.
Proof.
  unfold poll_events. induction evs as [|[ev r] evs IH]; intros s s'.
  - intros [= <-]. cbn. now rewrite orb_false_r.
  - cbn [visit existsb fst snd].
    destruct (handle_event ev r s) as [s1|] eqn:H1; cbn [mbind option_bind];
      [|discriminate].
    intros H. rewrite (IH _ _ H). apply handle_event_quit in H1. rewrite H1.
    destruct ev; cbn; try reflexivity. now rewrite orb_true_r.
Qed.

Lemma later_phases_quit xy s1 s' :
  (s2 ← edit_phase xy s1; s3 ← update_phase s2; tick_phase s3) = Some s' →
  quit s' = quit s1.
Proof.
  unfold edit_phase, update_phase, tick_phase.
  destruct (negb (s_started s1)) eqn:Hp.
  - destruct (add_btn_down s1); [|destruct (rem_btn_down s1)];
      cbn [mbind option_bind];
      try (destruct (mouse_index _ _); cbn [mbind option_bind];
           [|discriminate];
           destruct (store _ _ _); cbn [mbind option_bind]; [|discriminate]);
      cbn [s_started set_cells]; apply negb_true_iff in Hp; rewrite Hp;
      cbn [mbind option_bind];
      (destruct (int_of _); cbn [mbind option_bind]; [|discriminate]);
      intros [= <-]; reflexivity.
  - cbn [mbind option_bind]. apply negb_false_iff in Hp. rewrite Hp.
    destruct (tick s1 >? max_tick s1); cbn [mbind option_bind].
    + destruct (generation _); cbn [mbind option_bind]; [|discriminate].
      destruct (int_of _); cbn [mbind option_bind]; [|discriminate].
      intros [= <-]. reflexivity.
    + destruct (int_of _); cbn [mbind option_bind]; [|discriminate].
      intros [= <-]. reflexivity.
Qed.

(** X11: a quit event does not stop the frame it arrives in: the remaining
    events, the editing block and the update block of that frame are still
    executed; the loop then ends with the state that frame produced, and no
    later input is looked at.  Without a quit event the loop goes on. *)
Theorem quit_ends_loop_after_frame inp rest s s1 :
  quit s = false → frame inp s = Some s1 →
  quit s1 = existsb (λ er, if er.1 is SDL_QUIT then true else false)
              (events inp) ∧
  main_loop (inp :: rest) s
  = (if quit s1 then Some s1 else main_loop rest s1).
Proof.
  intros Hq Hframe. split.
  - unfold frame in Hframe.
    destruct (poll_events (events inp) s) as [s0|] eqn:Hpoll;
      cbn [mbind option_bind] in Hframe; [|discriminate].
    apply later_phases_quit in Hframe. apply poll_events_quit in Hpoll.
    rewrite Hframe, Hpoll, Hq. reflexivity.
  - rewrite main_loop_cons, Hframe by assumption. cbn [mbind option_bind].
    destruct rest as [|inp' rest']; cbn [main_loop];
      now destruct (quit s1).
Qed.

Lemma quit_ends_loop_after_frame_witness :
  ∃ s1, frame quit_then_click idle = Some s1 ∧
    cell (cells s1) (10 + GRID_WIDTH * 10) = CELL_ALIVE ∧
    quit s1 = existsb (λ er, if er.1 is SDL_QUIT then true else false)
                (events quit_then_click) ∧
    main_loop (quit_then_click :: [press_start; quiet]) idle
    = (if quit s1 then Some s1 else main_loop [press_start; quiet] s1).
Proof.
  assert (∃ s1, frame quit_then_click idle = Some s1 ∧
                cell (cells s1) (10 + GRID_WIDTH * 10) = CELL_ALIVE)
    as (s1 & Hframe & Hcell).
  { eexists. split.
    - unfold quit_then_click.
      do 2 (rewrite frame_cons; cbn [handle_event mbind option_bind]).
      rewrite frame_quiet_paused
        by first [reflexivity | vm_compute; reflexivity
                 | vm_compute; intuition discriminate].
      reduce_test. reflexivity.
    - vm_compute. reflexivity. }
  exists s1. split; [exact Hframe|]. split; [exact Hcell|].
  apply (quit_ends_loop_after_frame quit_then_click [press_start; quiet]
           idle s1); [reflexivity | exact Hframe].
Defined.

(** ** The scroll wheel, further *)

(** X12: only the direction of a scroll event counts, not its amount; one
    step up followed by one step down gives the threshold back; one step
    down followed by one step up gives it back too, except at the floor,
    where the threshold 1 becomes 2. *)
Theorem wheel_steps_compose y1 y2 m :
  y1 < 0 → 0 < y2 → 1 ≤ m < INT_MAX →
  mouse_wheel y1 m = mouse_wheel (-1) m ∧
  mouse_wheel y2 m = mouse_wheel 1 m ∧
  (mouse_wheel y1 m ≫= mouse_wheel y2) = Some m ∧
  (mouse_wheel y2 m ≫= mouse_wheel y1) = Some (Z.max 2 m).
Proof.
  intros H1 H2 Hm. unfold mouse_wheel, int_of, INT_MIN, INT_MAX in *.
  destruct (Z.ltb_spec y1 0); [|lia].
  destruct (Z.ltb_spec y2 0); [lia|].
  destruct (Z.gtb_spec y2 0); [|lia].
  cbn [Z.ltb Z.gtb Z.compare].
  destruct (Z.leb_spec (-2147483648) (m + 1)); [|lia].
  destruct (Z.leb_spec (m + 1) 2147483647); [|lia].
  destruct (Z.leb_spec (-2147483648) (m - 1)); [|lia].
  destruct (Z.leb_spec (m - 1) 2147483647); [|lia].
  cbn [andb mbind option_bind].
  destruct (Z.ltb_spec y2 0); [lia|].
  destruct (Z.gtb_spec y2 0); [|lia].
  destruct (Z.ltb_spec y1 0); [|lia].
  repeat split.
  - destruct (Z.leb_spec (-2147483648) (m + 1 - 1)); [|lia].
    destruct (Z.leb_spec (m + 1 - 1) 2147483647); [|lia].
    cbn [andb mbind option_bind].
    destruct (Z.leb_spec (m + 1 - 1) 0); f_equal; lia.
  - destruct (Z.leb_spec (m - 1) 0).
    + cbn [andb Z.leb Z.add Z.compare Pos.add Pos.compare Pos.compare_cont
           Pos.succ].
      f_equal. lia.
    + destruct (Z.leb_spec (-2147483648) (m - 1 + 1)); [|lia].
      destruct (Z.leb_spec (m - 1 + 1) 2147483647); [|lia].
      cbn [andb]. f_equal. lia.
Qed.

Lemma wheel_steps_compose_witness :
  mouse_wheel (-3) 1 = mouse_wheel (-1) 1 ∧
  mouse_wheel 2 1 = mouse_wheel 1 1 ∧
  (mouse_wheel (-3) 1 ≫= mouse_wheel 2) = Some 1 ∧
  (mouse_wheel 2 1 ≫= mouse_wheel (-3)) = Some (Z.max 2 1).
Proof.
  apply (wheel_steps_compose (-3) 2 1); vm_compute; intuition discriminate.
Defined.

(** ** The generation step on grids that are not in the committed format *)

Lemma flag_bit c k : 0 ≤ k → flag c (2 ^ k) = Z.testbit c k.
Proof.
  intros Hk. unfold flag.
  destruct (Z.testbit c k) eqn:Hb.
  - apply negb_true_iff, Z.eqb_neq. intros Hz.
    assert (Z.testbit (Z.land c (2 ^ k)) k = true) as Ht
      by (rewrite Z.land_spec, Hb, Z.pow2_bits_true; auto).
    rewrite Hz, Z.bits_0 in Ht. discriminate.
  - apply negb_false_iff, Z.eqb_eq, Z.bits_inj'. intros n Hn.
    rewrite Z.land_spec, Z.bits_0.
    destruct (Z.eq_dec n k) as [->|Hne].
    + now rewrite Hb.
    + rewrite (Z.pow2_bits_false k n) by auto. apply andb_false_r.
Qed.

Lemma flag_REVIVE c : flag c CELL_REVIVE = Z.testbit c 1.
Proof. apply (flag_bit c 1). lia. Qed.

Lemma flag_DIE c : flag c CELL_DIE = Z.testbit c 2.
Proof. apply (flag_bit c 2). lia. Qed.

Lemma testbit_marked c m k :
  0 ≤ k < 8 → m = 0 ∨ m = CELL_REVIVE ∨ m = CELL_DIE →
  Z.testbit (marked c m) k = Z.testbit c k || Z.testbit m k.
Proof.
  intros Hk Hm. unfold marked. destruct (Z.eqb_spec m 0) as [->|Hne].
  - now rewrite Z.bits_0, orb_false_r.
  - now rewrite uint8_testbit, Z.lor_spec by lia.
Qed.

Lemma commit_value_no_pending c :
  flag (commit_value c) CELL_REVIVE = false ∧
  flag (commit_value c) CELL_DIE = false.
Proof.
  unfold commit_value.
  destruct (flag c CELL_REVIVE) eqn:Hr; [split; reflexivity|].
  destruct (flag c CELL_DIE) eqn:Hd; [split; reflexivity|].
  now split.
Qed.

(** What the two passes make of one byte [c] whose cell has the pending
    bit [m] coming. *)
Lemma commit_marked c m :
  m = 0 ∨ m = CELL_REVIVE ∨ m = CELL_DIE →
  commit_value (marked c m)
  = if Z.testbit c 1 || (m =? CELL_REVIVE) then CELL_ALIVE
    else if Z.testbit c 2 || (m =? CELL_DIE) then 0
    else c.
Proof.
  intros Hm. unfold commit_value.
  rewrite flag_REVIVE, flag_DIE, !testbit_marked by (auto; lia).
  destruct Hm as [->|[->| ->]]; cbn [Z.eqb CELL_REVIVE CELL_DIE Pos.eqb];
    rewrite ?orb_false_r, ?orb_true_r; cbn [Z.testbit Pos.testbit orb];
    try reflexivity.
  all: destruct (Z.testbit c 1), (Z.testbit c 2); reflexivity.
Qed.

Lemma generation_cell g :
  Z.of_nat (length g) = 36864 →
  ∃ g', generation g = Some g' ∧ Z.of_nat (length g') = 36864 ∧
    ∀ x y, in_grid x y = true →
      cell g' (x + GRID_WIDTH * y)
      = commit_value (marked (cell g (x + GRID_WIDTH * y)) (pending g x y)).
Proof.
  intros Hg. destruct (generation_spec g Hg) as (g' & Hgen & Hlen & Hcells).
  exists g'. split; [exact Hgen|]. split; [lia|].
  intros x y Hxy. rewrite Hcells by now apply in_grid_index.
  unfold eval_value. now destruct (coords_of_index x y Hxy) as [-> ->].
Qed.

(** X15: on any grid of the right size, whatever its bytes (a loaded file,
    for instance), one generation is defined and keeps the size of the grid;
    afterwards no cell carries a REVIVE or DIE bit; and every cell that
    carried neither before is alive afterwards exactly when B3/S23 says so,
    the neighbors being counted by their lowest bit. *)
Theorem generation_on_any_grid g :
  sized g = true →
  ∃ g', generation g = Some g' ∧ sized g' = true ∧
    (∀ i, 0 ≤ i < GRID_WIDTH * GRID_HEIGHT →
       flag (cell g' i) CELL_REVIVE = false ∧
       flag (cell g' i) CELL_DIE = false) ∧
    ∀ x y, in_grid x y = true →
      flag (cell g (x + GRID_WIDTH * y)) CELL_REVIVE = false →
      flag (cell g (x + GRID_WIDTH * y)) CELL_DIE = false →
      get g' x y = life_rule (get g x y) (count_live_neighbors g x y).
Proof.
  intros Hg. apply sized_length in Hg.
  destruct (generation_spec g Hg) as (g' & Hgen & Hlen & Hcells).
  exists g'. split; [exact Hgen|].
  split; [apply sized_length; lia|]. split.
  - intros i Hi. rewrite Hcells by exact Hi. apply commit_value_no_pending.
  - intros x y Hxy Hr Hd.
    pose proof (in_grid_index x y Hxy) as Hidx.
    unfold get at 1. rewrite Hcells by exact Hidx. unfold eval_value.
    destruct (coords_of_index x y Hxy) as [-> ->].
    rewrite commit_marked by apply pending_cases.
    rewrite flag_REVIVE in Hr. rewrite flag_DIE in Hd. rewrite Hr, Hd.
    cbn [orb]. unfold pending, life_rule. fold (get g x y).
    set (n := count_live_neighbors g x y).
    destruct (n =? 2) eqn:H2, (n =? 3) eqn:H3, (get g x y) eqn:Hget;
      cbn [orb]; try reflexivity; exact Hget.
Qed.

Lemma generation_on_any_grid_witness :
  ∃ g', generation stale_grid = Some g' ∧ sized g' = true ∧
    (∀ i, 0 ≤ i < GRID_WIDTH * GRID_HEIGHT →
       flag (cell g' i) CELL_REVIVE = false ∧
       flag (cell g' i) CELL_DIE = false) ∧
    ∀ x y, in_grid x y = true →
      flag (cell stale_grid (x + GRID_WIDTH * y)) CELL_REVIVE = false →
      flag (cell stale_grid (x + GRID_WIDTH * y)) CELL_DIE = false →
      get g' x y
      = life_rule (get stale_grid x y) (count_live_neighbors stale_grid x y).
Proof.
  apply (generation_on_any_grid stale_grid). vm_compute. reflexivity.
Defined.

(** X16: stale pending bits in a grid override the rule at the next
    generation.  A cell whose byte has the REVIVE bit becomes 1 whatever
    its neighbors; a cell whose byte has the DIE bit and not the REVIVE bit
    becomes 1 if it is dead with exactly three live neighbors and 0 in every
    other case, so a live cell with two or three live neighbors dies. *)
Theorem stale_bits_override_rule g x y :
  sized g = true → in_grid x y = true →
  flag (cell g (x + GRID_WIDTH * y)) CELL_REVIVE
  || flag (cell g (x + GRID_WIDTH * y)) CELL_DIE = true →
  ∃ g', generation g = Some g' ∧
    cell g' (x + GRID_WIDTH * y)
    = if flag (cell g (x + GRID_WIDTH * y)) CELL_REVIVE then 1
      else Z.b2z (negb (get g x y) && (count_live_neighbors g x y =? 3)).
Proof.
  intros Hg Hxy Hstale. apply sized_length in Hg.
  destruct (generation_cell g Hg) as (g' & Hgen & _ & Hcell).
  exists g'. split; [exact Hgen|].
  rewrite Hcell, commit_marked by (auto using pending_cases).
  rewrite flag_REVIVE, flag_DIE in *.
  destruct (Z.testbit _ 1); [reflexivity|]. cbn [orb] in *.
  rewrite Hstale. cbn [orb]. unfold pending.
  set (n := count_live_neighbors g x y).
  destruct (n =? 2) eqn:H2, (n =? 3) eqn:H3, (get g x y) eqn:Hget;
    reflexivity.
Qed.

Lemma stale_bits_override_rule_witness :
  ∃ g', generation stale_grid = Some g' ∧
    cell g' (1 + GRID_WIDTH * 0)
    = if flag (cell stale_grid (1 + GRID_WIDTH * 0)) CELL_REVIVE then 1
      else Z.b2z (negb (get stale_grid 1 0)
                  && (count_live_neighbors stale_grid 1 0 =? 3)).
Proof.
  apply (stale_bits_override_rule stale_grid 1 0); vm_compute; reflexivity.
Defined.

(** ** Patterns at the border of the grid *)

Lemma index_of_elem ps a b :
  Forall (λ p, in_grid p.1 p.2 = true) ps → in_grid a b = true →
  a + GRID_WIDTH * b ∈ index_of <$> ps ↔ (a, b) ∈ ps.
Proof.
  intros Hps Hab. split.
  - intros (p & Hp & Hin)%list_elem_of_fmap.
    pose proof (proj1 (Forall_forall _ _) Hps p Hin) as Hpg.
    destruct p as [a' b']. cbn [fst snd] in *.
    apply in_grid_iff in Hpg, Hab. unfold index_of, GRID_WIDTH in Hp.
    cbn [fst snd] in Hp.
    assert (a' = a ∧ b' = b) as [-> ->] by lia. exact Hin.
  - intros Hin. apply list_elem_of_fmap. exists (a, b). auto.
Qed.

(** A pattern [ps] inside the grid, described by [pat], steps to the cells
    of the grid that the rule [qat] describes. *)
Section pattern_step.
Variables ps qs : list (Z * Z).
Variables pat qat : Z → Z → bool.
Hypothesis ps_in_grid : Forall (λ p, in_grid p.1 p.2 = true) ps.
Hypothesis qs_in_grid : Forall (λ p, in_grid p.1 p.2 = true) qs.
Hypothesis pat_ps : ∀ a b, pat a b = bool_decide ((a, b) ∈ ps).
Hypothesis qat_qs : ∀ a b, in_grid a b = true →
  qat a b = bool_decide ((a, b) ∈ qs).
Hypothesis step : ∀ a b, in_grid a b = true →
  life_rule (pat a b)
    (foldr (λ p n, Z.b2z (pat p.1 p.2) + n) 0 (moore a b))
  = qat a b.

Lemma cell_pattern a b :
  in_grid a b = true →
  cell (with_alive ps cells_init) (a + GRID_WIDTH * b) = Z.b2z (pat a b).
Proof.
  intros Hab. destruct (with_alive_spec ps ps_in_grid) as (_ & _ & Hcell).
  rewrite Hcell by now apply in_grid_index. f_equal.
  rewrite pat_ps. apply bool_decide_ext. now apply index_of_elem.
Qed.

Lemma live_at_pattern p : live_at (with_alive ps cells_init) p = pat p.1 p.2.
Proof.
  unfold live_at, get. destruct (in_grid p.1 p.2) eqn:Hp; cbn [andb].
  - rewrite cell_pattern by assumption. now destruct (pat p.1 p.2).
  - rewrite pat_ps. symmetry. apply bool_decide_eq_false. intros Hin.
    pose proof (proj1 (Forall_forall _ _) ps_in_grid _ Hin) as Hg.
    cbn [fst snd] in Hg. congruence.
Qed.

Lemma generation_pattern :
  generation (with_alive ps cells_init) = Some (with_alive qs cells_init).
Proof.
  destruct (with_alive_spec ps ps_in_grid) as (Hlp & Hcp & _).
  destruct (with_alive_spec qs qs_in_grid) as (Hlq & _ & Hcq).
  rewrite generation_life by (try apply sized_length; assumption).
  apply (f_equal Some). apply cells_ext.
  - pose proof (length_life_generation (with_alive ps cells_init)). lia.
  - rewrite length_life_generation. intros i Hi.
    rewrite cell_life_generation by assumption.
    destruct (index_of_coords i Hi) as [Hin Hidx].
    unfold index_of in Hidx. cbn [fst snd] in Hidx.
    rewrite Hcq by assumption.
    assert (i ∈ index_of <$> qs
            ↔ (i mod GRID_WIDTH, i / GRID_WIDTH) ∈ qs) as Hiff
      by (rewrite <- Hidx at 1; now apply index_of_elem).
    rewrite (bool_decide_ext _ _ Hiff).
    rewrite <- qat_qs, <- step by assumption.
    unfold life_cell, get. rewrite cell_pattern by assumption.
    f_equal. f_equal; [now destruct (pat _ _)|].
    unfold count_live_neighbors.
    induction (moore _ _) as [|p l IH]; [reflexivity|].
    cbn [foldr]. now rewrite IH, live_at_pattern.
Qed.
End pattern_step.

Lemma elem_of_pairs_2 (a b : Z) p1 p2 :
  (a, b) ∈ [p1; p2] ↔ (a = p1.1 ∧ b = p1.2) ∨ (a = p2.1 ∧ b = p2.2).
Proof.
  destruct p1, p2. rewrite !elem_of_cons, elem_of_nil. cbn [fst snd].
  intuition congruence.
Qed.

Lemma elem_of_pairs_3 (a b : Z) p1 p2 p3 :
  (a, b) ∈ [p1; p2; p3]
  ↔ (a = p1.1 ∧ b = p1.2) ∨ (a = p2.1 ∧ b = p2.2) ∨ (a = p3.1 ∧ b = p3.2).
Proof.
  destruct p1, p2, p3. rewrite !elem_of_cons, elem_of_nil. cbn [fst snd].
  intuition congruence.
Qed.

Lemma elem_of_pairs_4 (a b : Z) p1 p2 p3 p4 :
  (a, b) ∈ [p1; p2; p3; p4]
  ↔ (a = p1.1 ∧ b = p1.2) ∨ (a = p2.1 ∧ b = p2.2)
    ∨ (a = p3.1 ∧ b = p3.2) ∨ (a = p4.1 ∧ b = p4.2).
Proof.
  destruct p1, p2, p3, p4. rewrite !elem_of_cons, elem_of_nil.
  cbn [fst snd]. intuition congruence.
Qed.

Lemma on_row_elem x y a b :
  on_row x y a b = bool_decide ((a, b) ∈ [(x - 1, y); (x, y); (x + 1, y)]).
Proof.
  destruct (on_row x y a b) eqn:E; unfold on_row in E; symmetry;
    [apply bool_decide_eq_true|apply bool_decide_eq_false];
    rewrite elem_of_pairs_3; cbn [fst snd].
  - rewrite !andb_true_iff, Z.eqb_eq, !Z.leb_le in E. lia.
  - rewrite !andb_false_iff, Z.eqb_neq, !Z.leb_gt in E. lia.
Qed.

Lemma on_stub_elem x a b :
  on_stub x a b = bool_decide ((a, b) ∈ [(x, 0); (x, 1)]).
Proof.
  destruct (on_stub x a b) eqn:E; unfold on_stub in E; symmetry;
    [apply bool_decide_eq_true|apply bool_decide_eq_false];
    rewrite elem_of_pairs_2; cbn [fst snd].
  - rewrite !andb_true_iff, Z.eqb_eq, !Z.leb_le in E. lia.
  - rewrite !andb_false_iff, Z.eqb_neq, !Z.leb_gt in E. lia.
Qed.

Lemma on_block_elem x y a b :
  on_block x y a b
  = bool_decide ((a, b) ∈ [(x, y); (x + 1, y); (x, y + 1); (x + 1, y + 1)]).
Proof.
  destruct (on_block x y a b) eqn:E; unfold on_block in E; symmetry;
    [apply bool_decide_eq_true|apply bool_decide_eq_false];
    rewrite elem_of_pairs_4; cbn [fst snd].
  - rewrite !andb_true_iff, !Z.leb_le in E. lia.
  - rewrite !andb_false_iff, !Z.leb_gt in E. lia.
Qed.

Lemma stub_dies x a b :
  life_rule (on_stub x a b)
    (foldr (λ p n, Z.b2z (on_stub x p.1 p.2) + n) 0 (moore a b))
  = false.
Proof.
  unfold on_stub, moore. cbn [foldr fst snd].
  assert (a - x ≤ -2 ∨ a - x = -1 ∨ a - x = 0 ∨ a - x = 1 ∨ 2 ≤ a - x)
    as Ha by lia.
  assert (b ≤ -2 ∨ b = -1 ∨ b = 0 ∨ b = 1 ∨ b = 2 ∨ 3 ≤ b) as Hb by lia.
  destruct Ha as [Ha|[Ha|[Ha|[Ha|Ha]]]];
    destruct Hb as [Hb|[Hb|[Hb|[Hb|[Hb|Hb]]]]];
    decide_comparisons; reflexivity.
Qed.

Lemma block_stays x y a b :
  life_rule (on_block x y a b)
    (foldr (λ p n, Z.b2z (on_block x y p.1 p.2) + n) 0 (moore a b))
  = on_block x y a b.
Proof.
  unfold on_block, moore. cbn [foldr fst snd].
  assert (a - x ≤ -2 ∨ a - x = -1 ∨ a - x = 0 ∨ a - x = 1 ∨ a - x = 2
          ∨ 3 ≤ a - x) as Ha by lia.
  assert (b - y ≤ -2 ∨ b - y = -1 ∨ b - y = 0 ∨ b - y = 1 ∨ b - y = 2
          ∨ 3 ≤ b - y) as Hb by lia.
  destruct Ha as [Ha|[Ha|[Ha|[Ha|[Ha|Ha]]]]];
    destruct Hb as [Hb|[Hb|[Hb|[Hb|[Hb|Hb]]]]];
    decide_comparisons; reflexivity.
Qed.

(** X17: the grid does not wrap around.  A blinker lying on the top row
    does not oscillate: one generation leaves the two cells (x,0) and (x,1)
    (the third cell of the column would be above the grid), and the next
    generation leaves the grid empty. *)
Theorem blinker_on_top_row_dies x :
  1 ≤ x < GRID_WIDTH - 1 →
  generation (blinker_h x 0) = Some (edge_stub x) ∧
  generation (edge_stub x) = Some cells_init.
Proof.
  intros Hx.
  assert (Forall (λ p, in_grid p.1 p.2 = true)
            [(x - 1, 0); (x, 0); (x + 1, 0)]) as Hrow
    by (unfold GRID_WIDTH in *; repeat constructor; apply in_grid_iff;
        cbn [fst snd]; lia).
  assert (Forall (λ p, in_grid p.1 p.2 = true) [(x, 0); (x, 1)]) as Hstub
    by (unfold GRID_WIDTH in *; repeat constructor; apply in_grid_iff;
        cbn [fst snd]; lia).
  split.
  - apply (generation_pattern _ _ (on_row x 0) (on_stub x) Hrow Hstub).
    + apply on_row_elem.
    + intros a b _. apply on_stub_elem.
    + intros a b Hab. rewrite row_becomes_column.
      apply in_grid_iff in Hab. unfold on_column, on_stub.
      destruct (Z.leb_spec (0 - 1) b), (Z.leb_spec 0 b);
        first [lia | reflexivity].
  - change (Some cells_init) with (Some (with_alive [] cells_init)).
    apply (generation_pattern _ [] (on_stub x) (λ _ _, false) Hstub
             ltac:(constructor)).
    + apply on_stub_elem.
    + intros a b _. symmetry. apply bool_decide_eq_false, not_elem_of_nil.
    + intros a b _. apply stub_dies.
Qed.

Lemma blinker_on_top_row_dies_witness :
  generation (blinker_h 1 0) = Some (edge_stub 1) ∧
  generation (edge_stub 1) = Some cells_init.
Proof.
  apply (blinker_on_top_row_dies 1). vm_compute. intuition discriminate.
Defined.

(** X18: a block of two by two live cells is a still life wherever it fits
    on the grid, also in a corner or along a border, where some of its
    neighbors are off the grid. *)
Theorem block_is_still_life x y :
  0 ≤ x < GRID_WIDTH - 1 → 0 ≤ y < GRID_HEIGHT - 1 →
  generation (block x y) = Some (block x y).
Proof.
  intros Hx Hy.
  assert (Forall (λ p, in_grid p.1 p.2 = true)
            [(x, y); (x + 1, y); (x, y + 1); (x + 1, y + 1)]) as Hb
    by (unfold GRID_WIDTH, GRID_HEIGHT in *; repeat constructor;
        apply in_grid_iff; cbn [fst snd]; lia).
  apply (generation_pattern _ _ (on_block x y) (on_block x y) Hb Hb).
  - apply on_block_elem.
  - intros a b _. apply on_block_elem.
  - intros a b _. apply block_stays.
Qed.

Lemma block_is_still_life_witness :
  generation (block 0 0) = Some (block 0 0).
Proof.
  apply (block_is_still_life 0 0); vm_compute; intuition discriminate.
Defined.

(** ** The picture of a frame *)

Lemma frame_with_drawing (draw : list Z → list Z → option (list Z))
    inp s s1 buffer drawn :
  poll_events (events inp) s = Some s1 →
  draw (cells s1) buffer = Some drawn →
  (s ← poll_events (events inp) s;
   buffer ← draw (cells s) buffer;
   s ← edit_phase (mouse inp) s;
   s ← update_phase s;
   s ← tick_phase s;
   Some (s, buffer))
  = (s' ← frame inp s; Some (s', drawn)).
Proof.
  intros Hpoll Hd. unfold frame. rewrite Hpoll. cbn [mbind option_bind].
  rewrite Hd. cbn [mbind option_bind].
  destruct (edit_phase (mouse inp) s1) as [s2|]; cbn [mbind option_bind];
    [|reflexivity].
  destruct (update_phase s2) as [s3|]; cbn [mbind option_bind];
    [|reflexivity].
  destruct (tick_phase s3); reflexivity.
Qed.

(** X19: drawing has no effect on the simulation: with the screen buffer in
    the loop, a frame ends in the same state as without it.  The picture of
    the frame shows the grid as the events of the frame left it, so a cell
    painted or a generation advanced in a frame is on screen one frame
    later. *)
Theorem frame_draws_grid_after_events inp s s1 buffer :
  poll_events (events inp) s = Some s1 → sized (cells s1) = true →
  Z.of_nat (length buffer) = WINDOW_WIDTH * WINDOW_HEIGHT →
  ∃ drawn,
    frame_drawn inp s buffer = (s' ← frame inp s; Some (s', drawn)) ∧
    ∀ px py, 0 ≤ px < WINDOW_WIDTH → 0 ≤ py < WINDOW_HEIGHT →
      cell drawn (px + WINDOW_WIDTH * py)
      = if get (cells s1) (px / PIXEL_SIZE) (py / PIXEL_SIZE)
        then UINT32_MAX else 0.
Proof.
  intros Hpoll Hs Hb.
  destruct (draw_cells_pixels (cells s1) buffer Hs Hb)
    as (drawn & Hd & _ & Hpix).
  exists drawn. split; [|exact Hpix].
  exact (frame_with_drawing draw_cells inp s s1 buffer drawn Hpoll Hd).
Qed.

Lemma frame_draws_grid_after_events_witness :
  ∃ drawn,
    frame_drawn press_left idle black_screen
    = (s' ← frame press_left idle; Some (s', drawn)) ∧
    ∀ px py, 0 ≤ px < WINDOW_WIDTH → 0 ≤ py < WINDOW_HEIGHT →
      cell drawn (px + WINDOW_WIDTH * py)
      = if get (cells (set_add_btn_down true idle))
             (px / PIXEL_SIZE) (py / PIXEL_SIZE)
        then UINT32_MAX else 0.
Proof.
  apply (frame_draws_grid_after_events press_left idle
           (set_add_btn_down true idle) black_screen);
    [reflexivity | vm_compute; reflexivity | apply length_black_screen].
Defined.

(** ** Loading, then saving *)

(** X20: a file of exactly 36864 bytes survives loading and saving: after
    F4 the grid is the file, byte for byte, and saving the current state
    writes the same bytes to the chosen path. *)
Theorem load_save_round_trip r r' path path' file s :
  s_started s = false → sized (cells s) = true →
  open_dialog r = Some path → files s !! path = Some file →
  Z.of_nat (length file) = GRID_WIDTH * GRID_HEIGHT →
  message_box r' = Some 1 → save_dialog r' = Some path' →
  fopen_write r' = true →
  ∃ s1 s2, handle_event (SDL_KEYUP SDLK_F4) r s = Some s1 ∧
           cells s1 = file ∧
           handle_event (SDL_KEYUP SDLK_F3) r' s1 = Some s2 ∧
           files s2 !! path' = Some file ∧ cells s2 = file.
Proof.
  intros Hp Hs Hdlg Hfile Hlen Hmsg Hsave Hopen. apply sized_length in Hs.
  change (GRID_WIDTH * GRID_HEIGHT) with 36864 in Hlen.
  exists (set_cells file s),
    (set_files (<[path' := file]> (files s)) (set_cells file s)).
  split.
  { cbn [handle_event]. unfold key_up. rewrite Hp. cbn [negb].
    unfold load_state. rewrite Hdlg, Hfile. cbn [mbind option_bind].
    now rewrite fread_cells by assumption. }
  split; [reflexivity|]. split.
  { cbn [handle_event]. unfold key_up.
    cbn [s_started set_cells]. rewrite Hp. cbn [negb].
    unfold save_state. rewrite Hmsg, Hsave, Hopen.
    cbn [Z.eqb Pos.eqb cells set_cells].
    now rewrite fwrite_cells by assumption. }
  split; [cbn [files set_files]; apply lookup_insert_eq|reflexivity].
Qed.

Lemma load_save_round_trip_witness :
  ∃ s1 s2, handle_event (SDL_KEYUP SDLK_F4) open_foreign with_foreign_file
           = Some s1 ∧
           cells s1 = foreign_file ∧
           handle_event (SDL_KEYUP SDLK_F3) save_current s1 = Some s2 ∧
           files s2 !! "corner.gol"%string = Some foreign_file ∧
           cells s2 = foreign_file.
Proof.
  apply (load_save_round_trip open_foreign save_current
           "foreign.gol"%string "corner.gol"%string foreign_file
           with_foreign_file);
    [ reflexivity | vm_compute; reflexivity | reflexivity
    | apply lookup_singleton_eq | vm_compute; reflexivity
    | reflexivity | reflexivity | reflexivity ].
Defined.

(** ** The update pass in any order *)

(** X21: the update pass gives the same grid in whatever order it visits
    the cells: each cell is rewritten from its own byte alone. *)
Theorem commit_order_independent b order :
  sized b = true → order ≡ₚ row_major →
  ∃ c, commit_order order b = Some c ∧ commit_pass b = Some c ∧
    ∀ i, 0 ≤ i < GRID_WIDTH * GRID_HEIGHT →
      cell c i = if flag (cell b i) CELL_REVIVE then CELL_ALIVE
                 else if flag (cell b i) CELL_DIE then 0 else cell b i.
Proof.
  intros Hb Hperm. apply sized_length in Hb.
  assert (Forall (λ p, in_grid p.1 p.2 = true) order) as Hord
    by (rewrite Hperm; apply row_major_in_grid).
  assert (∀ i, 0 ≤ i < 36864 → i ∈ index_of <$> order) as Hall
    by (intros i Hi; rewrite Hperm; now apply row_major_covers).
  destruct (commit_order_spec b order Hb Hord Hall) as (c & Hc & Hlc & Hcc).
  destruct (commit_pass_spec b Hb) as (c' & Hc' & Hlc' & Hcc').
  exists c. split; [exact Hc|]. split; [|exact Hcc].
  rewrite Hc'. apply (f_equal Some). apply cells_ext; [congruence|].
  intros i Hi. rewrite Hcc, Hcc' by lia. reflexivity.
Qed.

Lemma commit_order_independent_witness :
  ∃ c, commit_order (reverse row_major) stale_grid = Some c ∧
    commit_pass stale_grid = Some c ∧
    ∀ i, 0 ≤ i < GRID_WIDTH * GRID_HEIGHT →
      cell c i = if flag (cell stale_grid i) CELL_REVIVE then CELL_ALIVE
                 else if flag (cell stale_grid i) CELL_DIE then 0
                 else cell stale_grid i.
Proof.
  apply (commit_order_independent stale_grid (reverse row_major));
    [vm_compute; reflexivity | apply reverse_Permutation].
Defined.

(** ** The period of the simulation *)

Lemma frame_idle_running xy s :
  s_started s = true → sized (cells s) = true →
  INT_MIN ≤ tick s < INT_MAX →
  ∃ g, generation (cells s) = Some g ∧ sized g = true ∧
    frame (Input [] xy) s
    = Some (if tick s >? max_tick s
            then set_tick 1 (set_cells g s)
            else set_tick (tick s + 1) s).
Proof.
  intros Hs Hsz Ht. apply sized_length in Hsz.
  destruct (generation_spec (cells s) Hsz) as (g & Hg & Hlen & _).
  exists g. split; [exact Hg|].
  split; [apply sized_length; lia|].
  unfold frame, poll_events. cbn [events visit mouse mbind option_bind].
  rewrite edit_phase_running by assumption. cbn [mbind option_bind].
  unfold update_phase. rewrite Hs.
  destruct (tick s >? max_tick s).
  - rewrite Hg. cbn [mbind option_bind].
    rewrite tick_phase_in by (unfold INT_MIN, INT_MAX; simpl; lia).
    reflexivity.
  - cbn [mbind option_bind]. apply tick_phase_in.
    unfold INT_MIN, INT_MAX in *. lia.
Qed.

Lemma idle_frames_wait ms :
  ∀ s, s_started s = true → quit s = false → sized (cells s) = true →
  INT_MIN ≤ tick s → tick s + Z.of_nat (length ms) ≤ max_tick s + 1 →
  max_tick s < INT_MAX →
  main_loop (Input [] <$> ms) s
  = Some (set_tick (tick s + Z.of_nat (length ms)) s).
Proof.
  induction ms as [|xy ms IH]; intros s Hs Hq Hsz Hlo Hhi Hmax.
  - cbn [fmap list_fmap main_loop length]. f_equal. symmetry.
    apply set_tick_same. cbn. lia.
  - rewrite fmap_cons, main_loop_cons by assumption.
    rewrite length_cons in *.
    destruct (frame_idle_running xy s Hs Hsz) as (g & _ & _ & ->); [lia|].
    destruct (Z.gtb_spec (tick s) (max_tick s)); [lia|].
    cbn [mbind option_bind].
    rewrite IH; cbn [s_started quit cells tick max_tick set_tick];
      try assumption; unfold INT_MIN, INT_MAX in *; try lia.
    f_equal. unfold set_tick.
    cbn [cells previous_simul s_started tick max_tick quit add_btn_down
         rem_btn_down files].
    f_equal. lia.
Qed.

Lemma main_loop_snoc l inp :
  ∀ s t, main_loop l s = Some t →
  main_loop (l ++ [inp]) s = (if quit t then Some t else frame inp t).
Proof.
  induction l as [|i l IH]; intros s t.
  - intros [= ->]. cbn [app main_loop].
    destruct (quit t); [reflexivity|]. now destruct (frame inp t).
  - cbn [app main_loop]. destruct (quit s) eqn:Hqs.
    + intros [= <-]. now rewrite Hqs.
    + destruct (frame i s) as [s1|]; cbn [mbind option_bind];
        [apply IH|discriminate].
Qed.

(** X22: while the simulation runs, on any grid of the right size (in the
    committed format or not), the frame after one that advanced the
    generation starts with the counter at 1; each of the next [max_tick]
    frames without events, wherever the mouse is, only increments the
    counter, and the frame after them replaces the grid by its next
    generation and sets the counter to 1 again.  So a threshold of n lets
    one frame in n + 1 advance. *)
Theorem generation_every_max_tick_plus_one s ms xy :
  s_started s = true → quit s = false → sized (cells s) = true →
  tick s = 1 → 1 ≤ max_tick s < INT_MAX - 1 →
  Z.of_nat (length ms) = max_tick s →
  ∃ g, generation (cells s) = Some g ∧ sized g = true ∧
    (∀ k, (k ≤ length ms)%nat →
       main_loop (Input [] <$> take k ms) s
       = Some (set_tick (1 + Z.of_nat k) s)) ∧
    frame (Input [] xy) (set_tick (1 + max_tick s) s)
    = Some (set_tick 1 (set_cells g s)) ∧
    main_loop (Input [] <$> (ms ++ [xy])) s
    = Some (set_tick 1 (set_cells g s)).
Proof.
  intros Hs Hq Hsz Ht Hm Hlen.
  assert (∀ k, (k ≤ length ms)%nat →
            main_loop (Input [] <$> take k ms) s
            = Some (set_tick (1 + Z.of_nat k) s)) as Hwait.
  { intros k Hk. rewrite idle_frames_wait; try assumption;
      rewrite ?length_take; unfold INT_MIN, INT_MAX in *; try lia.
    do 2 f_equal. lia. }
  destruct (frame_idle_running xy (set_tick (1 + max_tick s) s))
    as (g & Hg & Hsg & Hframe);
    [assumption | assumption
    | cbn [tick set_tick]; unfold INT_MIN, INT_MAX in *; lia |].
  cbn [cells tick max_tick set_tick] in Hg, Hframe.
  destruct (Z.gtb_spec (1 + max_tick s) (max_tick s)); [|lia].
  assert (set_tick 1 (set_cells g (set_tick (1 + max_tick s) s))
          = set_tick 1 (set_cells g s)) as Heq by reflexivity.
  rewrite Heq in Hframe.
  exists g. split; [exact Hg|]. split; [exact Hsg|].
  split; [exact Hwait|]. split; [exact Hframe|].
  rewrite fmap_app. cbn [fmap list_fmap].
  rewrite (main_loop_snoc (Input [] <$> ms) (Input [] xy) s
             (set_tick (1 + max_tick s) s)).
  - cbn [quit set_tick]. rewrite Hq. exact Hframe.
  - specialize (Hwait (length ms) ltac:(lia)).
    rewrite firstn_all in Hwait. rewrite Hwait. do 2 f_equal. lia.
Qed.

Lemma generation_every_max_tick_plus_one_witness :
  ∃ g, generation (cells running_foreign) = Some g ∧ sized g = true ∧
    (∀ k, (k ≤ length [(7, 9)])%nat →
       main_loop (Input [] <$> take k [(7, 9)]) running_foreign
       = Some (set_tick (1 + Z.of_nat k) running_foreign)) ∧
    frame (Input [] (3, 4))
      (set_tick (1 + max_tick running_foreign) running_foreign)
    = Some (set_tick 1 (set_cells g running_foreign)) ∧
    main_loop (Input [] <$> ([(7, 9)] ++ [(3, 4)])) running_foreign
    = Some (set_tick 1 (set_cells g running_foreign)).
Proof.
  apply (generation_every_max_tick_plus_one running_foreign [(7, 9)] (3, 4));
    first [reflexivity | vm_compute; reflexivity
          | vm_compute; intuition discriminate].
Defined.

(** ** Runs that stay defined *)

Lemma within_mono e n n' s : n ≤ n' → within e n s → within e n' s.
Proof.
  unfold within. intros Hn (? & ? & ? & ? & ? & ?).
  repeat split; first [assumption | lia | auto].
Qed.

Lemma within_initial fs : within (Env false (dom fs)) 0 (initial_state fs).
Proof.
  unfold within, initial_state.
  cbn [cells previous_simul tick max_tick files s_started running paths].
  rewrite length_cells_init.
  repeat split; try lia. intros p Hp. now apply elem_of_dom.
Qed.

Lemma fread_length a file :
  Z.of_nat (length a) = 36864 →
  ∃ a', fread a sizeof_uint32_t (sizeof_cells / sizeof_uint32_t) file
        = Some a' ∧ Z.of_nat (length a') = 36864.
Proof.
  intros Ha. unfold fread.
  change (sizeof_uint32_t * (sizeof_cells / sizeof_uint32_t)) with 36864.
  set (k := Z.min 36864 (Z.of_nat (length file))).
  assert (0 ≤ k ≤ 36864 ∧ k ≤ Z.of_nat (length file)) as Hk
    by (unfold k; lia).
  rewrite Ha. destruct (Z.leb_spec 0 k), (Z.leb_spec k 36864); try lia.
  eexists. split; [reflexivity|].
  rewrite length_app, length_take, length_drop. lia.
Qed.

Ltac solve_within :=
  unfold within;
  cbn [cells previous_simul s_started tick max_tick quit add_btn_down
       rem_btn_down files set_cells set_previous_simul set_s_started
       set_tick set_max_tick set_quit set_add_btn_down set_rem_btn_down
       set_files running paths];
  repeat split;
    first [assumption | lia | apply length_cells_init | congruence | auto].

Lemma key_up_within e n sym r s :
  within e n s → harmless_event e (SDL_KEYUP sym, r) = true →
  ∃ s', key_up sym r s = Some s' ∧
        within (track_event e (SDL_KEYUP sym, r)) n s'.
Proof.
  intros (Hc & Hp & Ht & Hm & Hr & Hf) Hev.
  unfold key_up, harmless_event, track_event in *. cbn [fst snd] in *.
  destruct sym; cbn [s_started set_s_started cells previous_simul];
    rewrite Hr; destruct (running e) eqn:He; cbn [negb orb] in *;
    try (eexists; split; [reflexivity|]; solve_within).
  - rewrite memcpy_cells by assumption. cbn [mbind option_bind].
    eexists. split; [reflexivity|]. solve_within.
  - rewrite clear_cells_spec by assumption. cbn [mbind option_bind].
    eexists. split; [reflexivity|]. solve_within.
  - unfold save_state.
    destruct (message_box r) as [btn|];
      [|eexists; split; [reflexivity|]; solve_within].
    destruct (save_dialog r) as [path|];
      [|eexists; split; [reflexivity|]; solve_within].
    rewrite Hev.
    assert (∃ bytes, (if btn =? 1
                      then fwrite (cells s) sizeof_uint8_t
                             (sizeof_cells / sizeof_uint8_t)
                      else fwrite (previous_simul s) sizeof_uint8_t
                             (sizeof_cells / sizeof_uint8_t)) = Some bytes)
      as [bytes ->]
      by (destruct (btn =? 1); rewrite fwrite_cells by assumption; eauto).
    cbn [mbind option_bind]. eexists. split; [reflexivity|].
    solve_within. intros p Hp'.
    destruct (decide (path = p)) as [->|Hne].
    + rewrite lookup_insert_eq. eauto.
    + rewrite lookup_insert_ne by assumption. apply Hf.
      apply elem_of_union in Hp' as [Hp'%elem_of_singleton|Hp'];
        [congruence|exact Hp'].
  - unfold load_state.
    destruct (open_dialog r) as [path|];
      [|eexists; split; [reflexivity|]; solve_within].
    apply bool_decide_eq_true in Hev. apply Hf in Hev as [file ->].
    cbn [mbind option_bind].
    destruct (fread_length (cells s) file Hc) as (a & -> & Ha).
    cbn [mbind option_bind]. eexists. split; [reflexivity|].
    solve_within.
Qed.

Lemma handle_event_within e n ev r s :
  within e n s → harmless_event e (ev, r) = true → n + 1 < INT_MAX →
  ∃ s', handle_event ev r s = Some s' ∧
        within (track_event e (ev, r)) (n + 1) s'.
Proof.
  intros Hs Hev Hn.
  destruct ev as [|sym|[]|[]|y|]; cbn [handle_event];
    try (eexists; split; [reflexivity|];
         apply (within_mono e n); [lia|];
         destruct Hs as (? & ? & ? & ? & ? & ?); solve_within).
  - destruct (key_up_within e n sym r s Hs Hev) as (s' & -> & Hs').
    exists s'. split; [reflexivity|]. apply (within_mono _ n); [lia|auto].
  - destruct Hs as (Hc & Hp & Ht & Hm & Hr & Hf).
    destruct (mouse_wheel_defined y (max_tick s)) as (m & Hw & Hle); [lia|].
    rewrite Hw. cbn [mbind option_bind]. eexists. split; [reflexivity|].
    pose proof (mouse_wheel_floor y (max_tick s) m ltac:(lia) Hw).
    solve_within.
Qed.

Lemma poll_events_within evs :
  ∀ e n s, within e n s → harmless_events e evs = true →
  n + Z.of_nat (length evs) < INT_MAX →
  ∃ s', poll_events evs s = Some s' ∧
        within (track_events e evs) (n + Z.of_nat (length evs)) s'.
Proof.
  unfold poll_events, track_events.
  induction evs as [|[ev r] evs IH]; intros e n s Hs Hev Hn.
  - exists s. split; [reflexivity|]. apply (within_mono e n); [cbn; lia|auto].
  - cbn [harmless_events] in Hev. apply andb_true_iff in Hev as [Hev Hevs].
    rewrite length_cons in *.
    destruct (handle_event_within e n ev r s Hs Hev) as (s1 & H1 & Hs1);
      [lia|].
    destruct (IH _ (n + 1) s1 Hs1 Hevs) as (s' & H' & Hs'); [lia|].
    exists s'. cbn [visit foldl fst snd]. rewrite H1. cbn [mbind option_bind].
    split; [exact H'|].
    apply (within_mono _ (n + 1 + Z.of_nat (length evs))); [lia|auto].
Qed.

Lemma later_phases_within e n xy s :
  within e n s → in_window xy = true → n + 1 < INT_MAX →
  ∃ s', (s2 ← edit_phase xy s; s3 ← update_phase s2; tick_phase s3) = Some s'
        ∧ within e (n + 1) s'.
Proof.
  intros (Hc & Hp & Ht & Hm & Hr & Hf) Hxy Hn.
  unfold in_window in Hxy.
  rewrite !andb_true_iff, !Z.leb_le, !Z.ltb_lt in Hxy.
  destruct xy as [x y]. cbn [fst snd] in Hxy.
  destruct (s_started s) eqn:Hrun.
  - rewrite edit_phase_running by assumption. cbn [mbind option_bind].
    destruct (update_phase_running s Hrun Hc) as (u & -> & Hu).
    cbn [mbind option_bind].
    destruct (tick s >? max_tick s).
    + destruct Hu as [Hgen ->].
      destruct (generation_spec (cells s) Hc) as (c & Hc' & Hlen & _).
      rewrite Hc' in Hgen. injection Hgen as <-.
      rewrite tick_phase_in
        by (cbn [tick set_tick]; unfold INT_MIN, INT_MAX in *; lia).
      eexists. split; [reflexivity|]. solve_within.
    + subst u.
      rewrite tick_phase_in by (unfold INT_MIN, INT_MAX in *; lia).
      eexists. split; [reflexivity|]. solve_within.
  - rewrite edit_phase_in_window by (try apply sized_length; auto; lia).
    cbn [mbind option_bind].
    destruct (mouse_index_in_window x y) as [_ Hin]; [lia..|].
    apply in_grid_index in Hin.
    set (s2 := if add_btn_down s then _ else _).
    assert (s_started s2 = false ∧ tick s2 = tick s ∧
            max_tick s2 = max_tick s ∧ previous_simul s2 = previous_simul s ∧
            files s2 = files s ∧ Z.of_nat (length (cells s2)) = 36864)
      as (H1 & H2 & H3 & H4 & H5 & H6).
    { unfold s2. destruct (add_btn_down s); [|destruct (rem_btn_down s)];
        cbn [s_started tick max_tick previous_simul files cells set_cells];
        rewrite ?length_insert; repeat split; assumption. }
    unfold update_phase. rewrite H1. cbn [mbind option_bind].
    rewrite tick_phase_in by (unfold INT_MIN, INT_MAX in *; lia).
    eexists. split; [reflexivity|].
    unfold within.
    cbn [cells previous_simul tick max_tick files s_started set_tick].
    rewrite H1, H2, H3, H4, H5, H6.
    repeat split; first [assumption | lia | auto].
Qed.

Lemma frame_within e n inp s buffer :
  within e n s → harmless_events e (events inp) = true →
  in_window (mouse inp) = true →
  n + Z.of_nat (length (events inp)) + 1 < INT_MAX →
  Z.of_nat (length buffer) = WINDOW_WIDTH * WINDOW_HEIGHT →
  ∃ s' drawn,
    frame_drawn inp s buffer = Some (s', drawn) ∧
    frame inp s = Some s' ∧
    within (track_events e (events inp))
      (n + Z.of_nat (length (events inp)) + 1) s' ∧
    Z.of_nat (length drawn) = WINDOW_WIDTH * WINDOW_HEIGHT ∧
    quit s' = quit s || has_quit (events inp).
Proof.
  intros Hs Hev Hxy Hn Hb.
  destruct (poll_events_within (events inp) e n s Hs Hev) as (s1 & H1 & Hs1);
    [lia|].
  destruct (later_phases_within _ _ (mouse inp) s1 Hs1 Hxy) as (s' & H' & Hs');
    [lia|].
  assert (sized (cells s1) = true) as Hsz
    by (apply sized_length; apply Hs1).
  destruct (draw_cells_pixels (cells s1) buffer Hsz Hb)
    as (drawn & Hd & Hlen & _).
  assert (frame inp s = Some s') as Hframe
    by (unfold frame; rewrite H1; exact H').
  exists s', drawn.
  split.
  { unfold frame_drawn.
    rewrite (frame_with_drawing draw_cells inp s s1 buffer drawn H1 Hd).
    now rewrite Hframe. }
  split; [exact Hframe|]. split; [exact Hs'|]. split; [exact Hlen|].
  rewrite (later_phases_quit _ _ _ H').
  exact (poll_events_quit _ _ _ H1).
Qed.

Lemma weight_nonneg inputs : 0 ≤ weight inputs.
Proof.
  induction inputs as [|i l IHl]; cbn; [lia|]. fold (weight l). lia.
Qed.

Lemma main_loop_within inputs :
  ∀ e n s buffer, within e n s → harmless_run e inputs = true →
  n + weight inputs < INT_MAX →
  Z.of_nat (length buffer) = WINDOW_WIDTH * WINDOW_HEIGHT →
  ∃ s' drawn e',
    main_loop_drawn inputs s buffer = Some (s', drawn) ∧
    main_loop inputs s = Some s' ∧
    within e' (n + weight inputs) s' ∧
    Z.of_nat (length drawn) = WINDOW_WIDTH * WINDOW_HEIGHT.
Proof.
  induction inputs as [|inp inputs IH]; intros e n s buffer Hs Hin Hn Hb.
  - exists s, buffer, e. split; [reflexivity|]. split; [reflexivity|].
    split; [|exact Hb]. apply (within_mono e n); [cbn; lia|auto].
  - cbn [harmless_run] in Hin.
    apply andb_true_iff in Hin as [Hin Hrest].
    apply andb_true_iff in Hin as [Hev Hxy].
    cbn [weight foldr] in *. fold (weight inputs) in *.
    pose proof (weight_nonneg inputs) as Hw.
    cbn [main_loop main_loop_drawn]. destruct (quit s) eqn:Hq.
    + exists s, buffer, e. split; [reflexivity|]. split; [reflexivity|].
      split; [|exact Hb]. apply (within_mono e n); [lia|auto].
    + destruct (frame_within e n inp s buffer Hs Hev Hxy)
        as (s1 & b1 & Hfd & Hf & Hs1 & Hb1 & Hq1); [lia|exact Hb|].
      rewrite Hfd, Hf. cbn [mbind option_bind fst snd].
      rewrite Hq in Hq1. cbn [orb] in Hq1.
      destruct (has_quit (events inp)).
      * exists s1, b1, (track_events e (events inp)).
        split; [destruct inputs; cbn [main_loop_drawn]; now rewrite ?Hq1|].
        split; [destruct inputs; cbn [main_loop]; now rewrite ?Hq1|].
        split; [|exact Hb1].
        apply (within_mono _ (n + Z.of_nat (length (events inp)) + 1));
          [lia|auto].
      * cbn [orb] in Hrest.
        destruct (IH _ _ s1 b1 Hs1 Hrest) as (s' & d' & e' & H1 & H2 & H3 & H4);
          [lia|exact Hb1|].
        exists s', d', e'. split; [exact H1|]. split; [exact H2|].
        split; [|exact H4].
        apply (within_mono _
                 (n + Z.of_nat (length (events inp)) + 1 + weight inputs));
          [lia|auto].
Qed.

(** X13: a run of the window loop from the initial state, drawing loop
    included, never does anything undefined (no access outside [cells],
    [previous_simul] or [buffer], no [int] overflow of [tick], [max_tick] or
    a mouse index, no use of a file that failed to open) under these
    conditions on the frames it executes: the mouse is inside the window;
    every save handled while paused whose message box and dialog succeed
    gets its file opened; every load handled while paused names a file that
    exists at that moment, because it was there at the start or because an
    earlier save of the run wrote it; and frames plus events number less
    than [INT_MAX].  At its end the arrays have their size, [tick] is not
    negative and [max_tick] is at least 1. *)
Theorem harmless_run_is_defined fs inputs buffer :
  harmless_run (Env false (dom fs)) inputs = true →
  weight inputs < INT_MAX →
  Z.of_nat (length buffer) = WINDOW_WIDTH * WINDOW_HEIGHT →
  ∃ s drawn,
    main_loop_drawn inputs (initial_state fs) buffer = Some (s, drawn) ∧
    main_loop inputs (initial_state fs) = Some s ∧
    sized (cells s) = true ∧ sized (previous_simul s) = true ∧
    Z.of_nat (length drawn) = WINDOW_WIDTH * WINDOW_HEIGHT ∧
    0 ≤ tick s ∧ 1 ≤ max_tick s.
Proof.
  intros Hin Hw Hb.
  destruct (main_loop_within inputs _ 0 (initial_state fs) buffer
              (within_initial fs) Hin)
    as (s & drawn & e' & Hd & Hs & (Hc & Hp & Ht & Hm & _) & Hlen);
    [lia|exact Hb|].
  exists s, drawn. split; [exact Hd|]. split; [exact Hs|].
  repeat split; try apply sized_length; auto; lia.
Qed.

Lemma harmless_run_is_defined_witness :
  ∃ s drawn,
    main_loop_drawn save_then_load (initial_state ∅) black_screen
    = Some (s, drawn) ∧
    main_loop save_then_load (initial_state ∅) = Some s ∧
    sized (cells s) = true ∧ sized (previous_simul s) = true ∧
    Z.of_nat (length drawn) = WINDOW_WIDTH * WINDOW_HEIGHT ∧
    0 ≤ tick s ∧ 1 ≤ max_tick s.
Proof.
  apply (harmless_run_is_defined ∅ save_then_load black_screen);
    [vm_compute; reflexivity | vm_compute; reflexivity
    | apply length_black_screen].
Defined.

(** ** The counters in arbitrary runs *)

Lemma mouse_wheel_step y m m' :
  1 ≤ m → mouse_wheel y m = Some m' →
  1 ≤ m' ≤ m + Z.b2z (y <? 0).
Proof.
  intros Hm. unfold mouse_wheel, int_of.
  destruct (y <? 0); cbn [Z.b2z].
  - destruct (_ && _); [|discriminate]. intros [= <-]. lia.
  - destruct (y >? 0).
    + destruct (_ && _); cbn [mbind option_bind]; [|discriminate].
      destruct (Z.leb_spec (m - 1) 0); intros [= <-]; lia.
    + intros [= <-]. lia.
Qed.

Lemma slow_downs_nonneg evs : 0 ≤ slow_downs evs.
Proof.
  induction evs as [|er evs IH]; cbn; [lia|]. fold (slow_downs evs).
  destruct (slower er); cbn; lia.
Qed.

Lemma run_slow_downs_nonneg inputs : 0 ≤ run_slow_downs inputs.
Proof.
  induction inputs as [|inp l IH]; cbn; [lia|]. fold (run_slow_downs l).
  pose proof (slow_downs_nonneg (events inp)). lia.
Qed.

Lemma handle_event_counters t m ev r s s' :
  counters_ok t m s → handle_event ev r s = Some s' →
  counters_ok t (m + Z.b2z (slower (ev, r))) s'.
Proof.
  intros Hs.
  assert (counters_ok t (m + 0) s) as Hs0
    by (unfold counters_ok in *; lia).
  destruct ev as [|sym|[]|[]|y|]; cbn [handle_event slower fst Z.b2z];
    try (intros [= <-]; exact Hs0).
  - unfold key_up. destruct sym;
      cbn [s_started set_s_started cells previous_simul];
      destruct (negb (s_started s)); try (intros [= <-]; exact Hs0).
    + destruct (memcpy _ _ _); cbn [mbind option_bind]; [|discriminate].
      intros [= <-]. exact Hs0.
    + destruct (clear_cells _); cbn [mbind option_bind]; [|discriminate].
      intros [= <-]. exact Hs0.
    + unfold save_state.
      destruct (message_box r) as [btn|]; [|intros [= <-]; exact Hs0].
      destruct (save_dialog r); [|intros [= <-]; exact Hs0].
      destruct (fopen_write r); [|discriminate].
      destruct (if btn =? 1 then _ else _); cbn [mbind option_bind];
        [|discriminate].
      intros [= <-]. exact Hs0.
    + unfold load_state.
      destruct (open_dialog r); [|intros [= <-]; exact Hs0].
      destruct (files s !! _); cbn [mbind option_bind]; [|discriminate].
      destruct (fread _ _ _ _); cbn [mbind option_bind]; [|discriminate].
      intros [= <-]. exact Hs0.
  - destruct (mouse_wheel y (max_tick s)) as [m'|] eqn:Hw;
      cbn [mbind option_bind]; [|discriminate].
    intros [= <-]. destruct Hs as [Ht Hm]. split; [exact Ht|].
    cbn [max_tick set_max_tick].
    pose proof (mouse_wheel_step y (max_tick s) m' ltac:(lia) Hw).
    destruct (y <? 0); cbn [Z.b2z] in *; lia.
Qed.

Lemma poll_events_counters evs :
  ∀ t m s s', counters_ok t m s → poll_events evs s = Some s' →
  counters_ok t (m + slow_downs evs) s'.
Proof.
  unfold poll_events. induction evs as [|[ev r] evs IH]; intros t m s s' Hs.
  - intros [= <-]. unfold counters_ok in *. cbn. lia.
  - cbn [visit fst snd].
    destruct (handle_event ev r s) as [s1|] eqn:H1; cbn [mbind option_bind];
      [|discriminate].
    intros H'.
    pose proof (IH _ _ _ _ (handle_event_counters t m ev r s s1 Hs H1) H')
      as Hs'.
    cbn [slow_downs foldr]. fold (slow_downs evs).
    unfold counters_ok in *. lia.
Qed.

Lemma later_phases_counters t m xy s1 s' :
  counters_ok t m s1 →
  (s2 ← edit_phase xy s1; s3 ← update_phase s2; tick_phase s3) = Some s' →
  counters_ok (t + 1) m s'.
Proof.
  intros [Ht Hm].
  assert (∀ u, tick u = tick s1 ∨ tick u = 0 → max_tick u = max_tick s1 →
            tick_phase u = Some s' → counters_ok (t + 1) m s') as Hfin.
  { intros u Htu Hmu. unfold tick_phase, int_of.
    destruct (_ && _); cbn [mbind option_bind]; [|discriminate].
    intros [= <-]. unfold counters_ok. cbn [tick max_tick set_tick]. lia. }
  unfold edit_phase, update_phase.
  destruct (negb (s_started s1)) eqn:Hp.
  - apply negb_true_iff in Hp.
    destruct (add_btn_down s1); [|destruct (rem_btn_down s1)];
      cbn [mbind option_bind];
      try (destruct (mouse_index _ _); cbn [mbind option_bind];
           [|discriminate];
           destruct (store _ _ _); cbn [mbind option_bind]; [|discriminate]);
      cbn [s_started set_cells]; rewrite Hp; cbn [mbind option_bind];
      apply Hfin; auto.
  - apply negb_false_iff in Hp. cbn [mbind option_bind]. rewrite Hp.
    destruct (tick s1 >? max_tick s1); cbn [mbind option_bind];
      [|apply Hfin; auto].
    destruct (generation _); cbn [mbind option_bind]; [|discriminate].
    apply Hfin; auto.
Qed.

Lemma frame_counters t m inp s s' :
  counters_ok t m s → frame inp s = Some s' →
  counters_ok (t + 1) (m + slow_downs (events inp)) s'.
Proof.
  intros Hs. unfold frame.
  destruct (poll_events (events inp) s) as [s1|] eqn:H1;
    cbn [mbind option_bind]; [|discriminate].
  apply later_phases_counters. exact (poll_events_counters _ _ _ _ _ Hs H1).
Qed.

Lemma main_loop_counters inputs :
  ∀ t m s s', counters_ok t m s → main_loop inputs s = Some s' →
  counters_ok (t + Z.of_nat (length inputs)) (m + run_slow_downs inputs) s'.
Proof.
  induction inputs as [|inp inputs IH]; intros t m s s' Hs.
  - intros [= <-]. unfold counters_ok in *. cbn. lia.
  - cbn [main_loop run_slow_downs foldr]. fold (run_slow_downs inputs).
    rewrite length_cons.
    pose proof (run_slow_downs_nonneg inputs).
    pose proof (slow_downs_nonneg (events inp)).
    destruct (quit s).
    + intros [= <-]. unfold counters_ok in *. lia.
    + destruct (frame inp s) as [s1|] eqn:H1; cbn [mbind option_bind];
        [|discriminate].
      intros H'.
      pose proof (IH _ _ _ _ (frame_counters t m inp s s1 Hs H1) H') as Hs'.
      unfold counters_ok in *. lia.
Qed.

(** X14: in every run from the initial state that stays defined, whatever
    events and inputs arrive (loads and saves included), the tick counter
    lies between 0 and the number of frames of the run, and the threshold
    between 1 and 1 plus the number of scroll events that slow the
    simulation down: the loop raises [tick] by at most one per frame and
    [max_tick] by at most one per such event, and never takes either below
    its floor. *)
Theorem counters_stay_in_range fs inputs s :
  main_loop inputs (initial_state fs) = Some s →
  0 ≤ tick s ≤ Z.of_nat (length inputs) ∧
  1 ≤ max_tick s ≤ 1 + run_slow_downs inputs.
Proof.
  intros Hrun.
  assert (counters_ok 0 1 (initial_state fs)) as H0
    by (unfold counters_ok; cbn; lia).
  exact (main_loop_counters inputs 0 1 (initial_state fs) s H0 Hrun).
Qed.

Lemma counters_stay_in_range_witness :
  ∃ s, main_loop session (initial_state ∅) = Some s ∧
       0 ≤ tick s ≤ Z.of_nat (length session) ∧
       1 ≤ max_tick s ≤ 1 + run_slow_downs session.
Proof.
  destruct (main_loop session (initial_state ∅)) as [s|] eqn:Hrun.
  - exists s. split; [reflexivity|].
    exact (counters_stay_in_range ∅ session s Hrun).
  - exfalso.
    destruct (main_loop_within session _ 0 (initial_state ∅) black_screen
                (within_initial ∅)) as (s & _ & _ & _ & Hs & _);
      [vm_compute; reflexivity | vm_compute; reflexivity
      | apply length_black_screen | congruence].
Defined.
